(** * Boot-screen simulations: keyboard navigation, phases, timers and config

    A shallow embedding of the three React components of the repository:

    - [Clover]  : the config-driven OS picker (src/src/App.tsx, first document);
    - [Legacy]  : the earlier picker with its static theme table
                  (src/src/App.tsx, second document);
    - [XP]      : the XP boot simulation (XPBootScreen).

    A component is a record of its [useState] cells together with the part of
    the browser it talks to (pending timers, the fetch, callbacks invoked,
    uncaught errors).  An event handler is a function on that record; after a
    handler the effects whose dependency lists changed are run, as React does
    after the commit, until nothing changes any more.  The state updates of
    one handler or callback are applied together, as React 18 batches them.
    Timers carry no duration: a pending timer may fire at any moment, which
    covers every real schedule. *)

From Stdlib Require Import ZArith List String Bool Lia.
Import ListNotations.

Open Scope string_scope.
Open Scope list_scope.
Open Scope Z_scope.

(** ** JavaScript values used by the components *)

Module JS.

(** A selection index is a JavaScript number.  The program only ever produces
    integers far below 2^53 (array lengths, array positions, -1 from
    [findIndex]) and, when a row is empty, NaN from [x % 0].  The negative
    zero that [(-1) % 1] yields is identified with 0: the program only adds
    to an index, compares it with [===] and uses it as an array position,
    and all of these treat the two zeros alike. *)
Inductive number : Type :=
| Int (z : Z)
| NaN.

Definition add (a b : number) : number :=
  match a, b with
  | Int x, Int y => Int (x + y)
  | _, _ => NaN
  end.

Definition sub (a b : number) : number :=
  match a, b with
  | Int x, Int y => Int (x - y)
  | _, _ => NaN
  end.

(** The [%] operator: the remainder takes the sign of the dividend, and a
    zero divisor gives NaN. *)
Definition rem (a b : number) : number :=
  match a, b with
  | Int x, Int y => if y =? 0 then NaN else Int (Z.rem x y)
  | _, _ => NaN
  end.

Definition number_eqb (a b : number) : bool :=
  match a, b with
  | Int x, Int y => x =? y
  | NaN, NaN => true
  | _, _ => false
  end.

(** [arr.length] *)
Definition length_of (n : nat) : number := Int (Z.of_nat n).

Definition length {A : Type} (arr : list A) : number :=
  length_of (List.length arr).

(** [arr[i]]: [undefined] (here [None]) outside the array. *)
Definition at_index {A : Type} (arr : list A) (i : number) : option A :=
  match i with
  | Int z => if z <? 0 then None else nth_error arr (Z.to_nat z)
  | NaN => None
  end.

Fixpoint findIndex_from {A : Type} (p : A -> bool) (arr : list A) (k : Z) : Z :=
  match arr with
  | [] => -1
  | x :: rest => if p x then k else findIndex_from p rest (k + 1)
  end.

(** [arr.findIndex(p)]: the first position satisfying [p], or -1. *)
Definition findIndex {A : Type} (p : A -> bool) (arr : list A) : number :=
  Int (findIndex_from p arr 0).

(** Truthiness of a string: only the empty string is falsy. *)
Definition truthy (s : string) : bool :=
  negb (s =? "")%string.

(** [a ?? b] on possibly-undefined values. *)
Definition nullish {A : Type} (a b : option A) : option A :=
  match a with
  | Some x => Some x
  | None => b
  end.

End JS.

(** [KeyboardEvent.key], as far as the handlers distinguish it. *)
Inductive Key : Type :=
| ArrowUp
| ArrowDown
| ArrowLeft
| ArrowRight
| Enter
| Escape
| OtherKey.

(** ** The config-driven picker (App.tsx) *)

Module Clover.

Module ConfigEntry.
Record t : Type := mk {
  id : string;
  name : string;
  icon : string;
  badge : option string;
  url : option string
}.
End ConfigEntry.

Module ConfigAction.
Record t : Type := mk {
  id : string;
  name : string;
  icon : string
}.
End ConfigAction.

Inductive ThemeType : Type :=
| type_builtin
| type_clover.

Inductive ThemeStyle : Type :=
| style_classic
| style_modern
| style_clover.

Module ConfigTheme.
Record t : Type := mk {
  id : string;
  label : string;
  type : ThemeType;
  background : string;
  logo : option string;
  entries : list ConfigEntry.t;
  actions : list ConfigAction.t
}.
End ConfigTheme.

Module Config.
Record t : Type := mk {
  defaultTheme : string;
  themes : list ConfigTheme.t;
  cloverThemes : option (list string)
}.
End Config.

(** [Theme = ConfigTheme & { style }] *)
Module Theme.
Record t : Type := mk {
  config : ConfigTheme.t;
  style : ThemeStyle
}.
Definition id (theme : t) : string := ConfigTheme.id (config theme).
Definition label (theme : t) : string := ConfigTheme.label (config theme).
Definition type (theme : t) : ThemeType := ConfigTheme.type (config theme).
Definition entries (theme : t) : list ConfigEntry.t := ConfigTheme.entries (config theme).
Definition actions (theme : t) : list ConfigAction.t := ConfigTheme.actions (config theme).
End Theme.

Definition buildCloverTheme (themeName : string) : Theme.t :=
  let basePath := ("themes/" ++ themeName)%string in
  Theme.mk
    (ConfigTheme.mk
       ("clover-" ++ themeName)%string
       themeName
       type_clover
       (basePath ++ "/background.png")%string
       (Some (basePath ++ "/icons/logo.png")%string)
       [ ConfigEntry.mk "macos" "macOS" (basePath ++ "/icons/os_mac.icns")%string None (Some "");
         ConfigEntry.mk "windows" "Windows" (basePath ++ "/icons/os_win.icns")%string None (Some "") ]
       [ ConfigAction.mk "shell" "UEFI Shell" (basePath ++ "/icons/tool_shell.png")%string;
         ConfigAction.mk "clover" "Clover Config" (basePath ++ "/icons/func_clover.png")%string;
         ConfigAction.mk "about" "About Clover" (basePath ++ "/icons/func_about.png")%string;
         ConfigAction.mk "options" "Options" (basePath ++ "/icons/func_options.png")%string;
         ConfigAction.mk "reset" "Reset" (basePath ++ "/icons/func_reset.png")%string;
         ConfigAction.mk "shutdown" "Shutdown" (basePath ++ "/icons/func_shutdown.png")%string ])
    style_clover.

Definition getThemeStyle (theme : ConfigTheme.t) : ThemeStyle :=
  match ConfigTheme.type theme with
  | type_clover => style_clover
  | type_builtin =>
      if (ConfigTheme.id theme =? "classic")%string then style_classic else style_modern
  end.

(** The theme list built in the [then] callback of the config fetch. *)
Definition builtinThemes (data : Config.t) : list Theme.t :=
  map (fun t => Theme.mk t (getThemeStyle t)) (Config.themes data).

Definition cloverThemes (data : Config.t) : list Theme.t :=
  map buildCloverTheme
      (match Config.cloverThemes data with
       | Some names => names
       | None => []
       end).

Definition allThemes (data : Config.t) : list Theme.t :=
  builtinThemes data ++ cloverThemes data.

(** *** Component state *)

Inductive Row : Type :=
| entries_row
| actions_row.

Definition Row_eqb (a b : Row) : bool :=
  match a, b with
  | entries_row, entries_row => true
  | actions_row, actions_row => true
  | _, _ => false
  end.

(** The nine [useState] cells of [App], followed by what the component has
    asked of the browser: how often [fetch('config.json')] was called and
    whether its promise is still unsettled, the URLs of the 500 ms timers
    [bootEntry] has started and nothing has cancelled (oldest first), the
    address the page navigated to, and the number of uncaught TypeErrors. *)
Record AppState : Type := mkState {
  config : option Config.t;
  themes : list Theme.t;
  themeId : string;
  selectedIndex : JS.number;
  status : string;
  activeRow : Row;
  actionIndex : JS.number;
  showOptions : bool;
  optionIndex : JS.number;
  fetches : nat;
  fetchPending : bool;
  timeouts : list string;
  location : option string;
  errors : nat
}.

Definition set_config (v : option Config.t) (s : AppState) : AppState :=
  mkState v (themes s) (themeId s) (selectedIndex s) (status s) (activeRow s)
    (actionIndex s) (showOptions s) (optionIndex s) (fetches s)
    (fetchPending s) (timeouts s) (location s) (errors s).

Definition set_themes (v : list Theme.t) (s : AppState) : AppState :=
  mkState (config s) v (themeId s) (selectedIndex s) (status s) (activeRow s)
    (actionIndex s) (showOptions s) (optionIndex s) (fetches s)
    (fetchPending s) (timeouts s) (location s) (errors s).

Definition set_themeId (v : string) (s : AppState) : AppState :=
  mkState (config s) (themes s) v (selectedIndex s) (status s) (activeRow s)
    (actionIndex s) (showOptions s) (optionIndex s) (fetches s)
    (fetchPending s) (timeouts s) (location s) (errors s).

Definition set_selectedIndex (v : JS.number) (s : AppState) : AppState :=
  mkState (config s) (themes s) (themeId s) v (status s) (activeRow s)
    (actionIndex s) (showOptions s) (optionIndex s) (fetches s)
    (fetchPending s) (timeouts s) (location s) (errors s).

Definition set_status (v : string) (s : AppState) : AppState :=
  mkState (config s) (themes s) (themeId s) (selectedIndex s) v (activeRow s)
    (actionIndex s) (showOptions s) (optionIndex s) (fetches s)
    (fetchPending s) (timeouts s) (location s) (errors s).

Definition set_activeRow (v : Row) (s : AppState) : AppState :=
  mkState (config s) (themes s) (themeId s) (selectedIndex s) (status s) v
    (actionIndex s) (showOptions s) (optionIndex s) (fetches s)
    (fetchPending s) (timeouts s) (location s) (errors s).

Definition set_actionIndex (v : JS.number) (s : AppState) : AppState :=
  mkState (config s) (themes s) (themeId s) (selectedIndex s) (status s)
    (activeRow s) v (showOptions s) (optionIndex s) (fetches s)
    (fetchPending s) (timeouts s) (location s) (errors s).

Definition set_showOptions (v : bool) (s : AppState) : AppState :=
  mkState (config s) (themes s) (themeId s) (selectedIndex s) (status s)
    (activeRow s) (actionIndex s) v (optionIndex s) (fetches s)
    (fetchPending s) (timeouts s) (location s) (errors s).

Definition set_optionIndex (v : JS.number) (s : AppState) : AppState :=
  mkState (config s) (themes s) (themeId s) (selectedIndex s) (status s)
    (activeRow s) (actionIndex s) (showOptions s) v (fetches s)
    (fetchPending s) (timeouts s) (location s) (errors s).

Definition set_fetches (v : nat) (s : AppState) : AppState :=
  mkState (config s) (themes s) (themeId s) (selectedIndex s) (status s)
    (activeRow s) (actionIndex s) (showOptions s) (optionIndex s) v
    (fetchPending s) (timeouts s) (location s) (errors s).

Definition set_fetchPending (v : bool) (s : AppState) : AppState :=
  mkState (config s) (themes s) (themeId s) (selectedIndex s) (status s)
    (activeRow s) (actionIndex s) (showOptions s) (optionIndex s) (fetches s)
    v (timeouts s) (location s) (errors s).

Definition set_timeouts (v : list string) (s : AppState) : AppState :=
  mkState (config s) (themes s) (themeId s) (selectedIndex s) (status s)
    (activeRow s) (actionIndex s) (showOptions s) (optionIndex s) (fetches s)
    (fetchPending s) v (location s) (errors s).

Definition set_location (v : option string) (s : AppState) : AppState :=
  mkState (config s) (themes s) (themeId s) (selectedIndex s) (status s)
    (activeRow s) (actionIndex s) (showOptions s) (optionIndex s) (fetches s)
    (fetchPending s) (timeouts s) v (errors s).

Definition set_errors (v : nat) (s : AppState) : AppState :=
  mkState (config s) (themes s) (themeId s) (selectedIndex s) (status s)
    (activeRow s) (actionIndex s) (showOptions s) (optionIndex s) (fetches s)
    (fetchPending s) (timeouts s) (location s) v.

(** The initial values of the [useState] calls. *)
Definition init : AppState :=
  mkState None [] "classic" (JS.Int 0) "Loading..." entries_row (JS.Int 0)
    false (JS.Int 0) 0%nat false [] None 0%nat.

(** [themes.find((item) => item.id === themeId) ?? themes[0]] *)
Definition theme (s : AppState) : option Theme.t :=
  JS.nullish
    (find (fun item => (Theme.id item =? themeId s)%string) (themes s))
    (JS.at_index (themes s) (JS.Int 0)).

(** [theme?.entries ?? []] and [theme?.actions ?? []] *)
Definition entries (s : AppState) : list ConfigEntry.t :=
  match theme s with
  | Some t => Theme.entries t
  | None => []
  end.

Definition actions (s : AppState) : list ConfigAction.t :=
  match theme s with
  | Some t => Theme.actions t
  | None => []
  end.

(** What [App] returns: the loading screen with the status line while there
    is no theme, the picker otherwise. *)
Inductive View : Type :=
| LoadingScreen (statusLine : string)
| PickerScreen (shown : Theme.t) (statusLine : string) (modal : bool).

Definition render (s : AppState) : View :=
  match theme s with
  | None => LoadingScreen (status s)
  | Some t => PickerScreen t (status s) (showOptions s)
  end.

(** *** Loading the configuration *)

Inductive FetchResult : Type :=
| FetchRejected
| JsonRejected
| Parsed (data : Config.t).

(** The [then] callback. *)
Definition configLoaded (data : Config.t) (s : AppState) : AppState :=
  let all := allThemes data in
  let defaultId :=
    if JS.truthy (Config.defaultTheme data) then Config.defaultTheme data else "classic" in
  let defaultTheme :=
    JS.nullish
      (find (fun t => (Theme.id t =? defaultId)%string) all)
      (JS.at_index all (JS.Int 0)) in
  let s := set_themeId defaultId (set_themes all (set_config (Some data) s)) in
  match defaultTheme with
  | Some t =>
      match JS.at_index (Theme.entries t) (JS.Int 0) with
      | Some first => set_status ("Boot " ++ ConfigEntry.name first)%string s
      | None => s
      end
  | None => s
  end.

(** The [catch] callback (its [console.error] is not modelled).  It is
    reached when [fetch] or [res.json()] rejects; for data of type [Config]
    nothing in the [then] callback throws. *)
Definition configFailed (s : AppState) : AppState :=
  set_status "Failed to load config" s.

Definition settleFetch (r : FetchResult) (s : AppState) : AppState :=
  if fetchPending s then
    let s := set_fetchPending false s in
    match r with
    | Parsed data => configLoaded data s
    | FetchRejected | JsonRejected => configFailed s
    end
  else s.

(** *** Effects *)

(** "Reset selection when theme changes", dependencies
    [themeId, themes.length].  [cur] is the render the effect closes over,
    [acc] the state its setters are applied to. *)
Definition resetDeps_changed (prev cur : AppState) : bool :=
  negb (themeId prev =? themeId cur)%string
  || negb (Nat.eqb (List.length (themes prev)) (List.length (themes cur))).

Definition resetEffect (cur acc : AppState) : AppState :=
  match theme cur with
  | None => acc
  | Some _ =>
      let acc :=
        set_activeRow entries_row
          (set_actionIndex (JS.Int 0) (set_selectedIndex (JS.Int 0) acc)) in
      match JS.at_index (entries cur) (JS.Int 0) with
      | Some firstEntry => set_status ("Boot " ++ ConfigEntry.name firstEntry)%string acc
      | None => acc
      end
  end.

(** "Update status when selection changes", dependencies
    [selectedIndex, activeRow, themeId]. *)
Definition statusDeps_changed (prev cur : AppState) : bool :=
  negb (JS.number_eqb (selectedIndex prev) (selectedIndex cur))
  || negb (Row_eqb (activeRow prev) (activeRow cur))
  || negb (themeId prev =? themeId cur)%string.

Definition statusEffect (cur acc : AppState) : AppState :=
  match theme cur with
  | None => acc
  | Some _ =>
      match JS.nullish (JS.at_index (entries cur) (selectedIndex cur))
                       (JS.at_index (entries cur) (JS.Int 0)) with
      | Some entry =>
          match activeRow cur with
          | entries_row => set_status ("Boot " ++ ConfigEntry.name entry)%string acc
          | actions_row => acc
          end
      | None => acc
      end
  end.

(** The effects of one commit, in the order they are declared. *)
Definition runEffects (prev cur : AppState) : AppState :=
  let acc := if resetDeps_changed prev cur then resetEffect cur cur else cur in
  if statusDeps_changed prev cur then statusEffect cur acc else acc.

(** A handler took [prev] to [next]; the effects of that commit may set
    state again, which commits once more.  After the second round only
    [status] has changed, which is in no dependency list (see
    [commit_quiescent] below). *)
Definition commit (prev next : AppState) : AppState :=
  runEffects next (runEffects prev next).

(** Mounting: every effect runs once; the first one starts the fetch. *)
Definition mount (s : AppState) : AppState :=
  let started := set_fetchPending true (set_fetches (S (fetches s)) s) in
  runEffects started (statusEffect started (resetEffect started started)).

Definition start : AppState := mount init.

(** *** Handlers *)

(** An uncaught TypeError: the handler stops where it is; what it had set
    before stays set. *)
Definition throw (s : AppState) : AppState :=
  set_errors (S (errors s)) s.

Definition bootEntry (entry : ConfigEntry.t) (s : AppState) : AppState :=
  let noUrl :=
    set_status ("Boot " ++ ConfigEntry.name entry ++ " (no URL configured)")%string s in
  match ConfigEntry.url entry with
  | Some u =>
      if JS.truthy u then
        set_timeouts (timeouts s ++ [u])
          (set_status ("Booting " ++ ConfigEntry.name entry ++ " ...")%string s)
      else noUrl
  | None => noUrl
  end.

(** [handleKey] of the keyboard effect.  The effect re-registers the handler
    whenever a value it reads changes, so the handler sees the state of the
    last commit, [s]; the updater functions receive that same state, one
    update per cell and event. *)
Definition handleKey (key : Key) (s : AppState) : AppState :=
  if showOptions s then
    match key with
    | ArrowUp =>
        set_optionIndex
          (JS.rem (JS.add (JS.sub (optionIndex s) (JS.Int 1)) (JS.length (themes s)))
                  (JS.length (themes s))) s
    | ArrowDown =>
        set_optionIndex
          (JS.rem (JS.add (optionIndex s) (JS.Int 1)) (JS.length (themes s))) s
    | Enter =>
        match JS.at_index (themes s) (optionIndex s) with
        | Some t => set_showOptions false (set_themeId (Theme.id t) s)
        | None => throw s
        end
    | Escape => set_showOptions false s
    | _ => s
    end
  else
    match key with
    | ArrowLeft =>
        match activeRow s with
        | entries_row =>
            set_selectedIndex
              (JS.rem (JS.add (JS.sub (selectedIndex s) (JS.Int 1)) (JS.length (entries s)))
                      (JS.length (entries s))) s
        | actions_row =>
            set_actionIndex
              (JS.rem (JS.add (JS.sub (actionIndex s) (JS.Int 1)) (JS.length (actions s)))
                      (JS.length (actions s))) s
        end
    | ArrowRight =>
        match activeRow s with
        | entries_row =>
            set_selectedIndex
              (JS.rem (JS.add (selectedIndex s) (JS.Int 1)) (JS.length (entries s))) s
        | actions_row =>
            set_actionIndex
              (JS.rem (JS.add (actionIndex s) (JS.Int 1)) (JS.length (actions s))) s
        end
    | ArrowDown =>
        let s1 := set_activeRow actions_row s in
        match JS.at_index (actions s) (actionIndex s) with
        | Some action => set_status (ConfigAction.name action) s1
        | None => s1
        end
    | ArrowUp =>
        let s1 := set_activeRow entries_row s in
        match JS.at_index (entries s) (selectedIndex s) with
        | Some entry => set_status ("Boot " ++ ConfigEntry.name entry)%string s1
        | None => s1
        end
    | Enter =>
        match activeRow s with
        | entries_row =>
            match JS.at_index (entries s) (selectedIndex s) with
            | Some entry => bootEntry entry s
            | None => s
            end
        | actions_row =>
            match JS.at_index (actions s) (actionIndex s) with
            | Some action =>
                if (ConfigAction.id action =? "options")%string then
                  set_optionIndex
                    (JS.findIndex (fun t => (Theme.id t =? themeId s)%string) (themes s))
                    (set_showOptions true s)
                else set_status (ConfigAction.name action) s
            | None => s
            end
        end
    | _ => s
    end.

(** The click handlers of the buttons that [App] renders; a position at
    which no button is rendered has no handler. *)
Definition clickEntry (index : nat) (s : AppState) : AppState :=
  match nth_error (entries s) index with
  | Some _ =>
      set_selectedIndex (JS.Int (Z.of_nat index)) (set_activeRow entries_row s)
  | None => s
  end.

Definition doubleClickEntry (index : nat) (s : AppState) : AppState :=
  match nth_error (entries s) index with
  | Some entry => bootEntry entry s
  | None => s
  end.

Definition clickAction (index : nat) (s : AppState) : AppState :=
  match nth_error (actions s) index with
  | Some action =>
      let s1 :=
        set_status (ConfigAction.name action)
          (set_actionIndex (JS.Int (Z.of_nat index)) (set_activeRow actions_row s)) in
      if (ConfigAction.id action =? "options")%string then
        set_optionIndex
          (JS.findIndex (fun t => (Theme.id t =? themeId s)%string) (themes s))
          (set_showOptions true s1)
      else s1
  | None => s
  end.

Definition clickOverlay (s : AppState) : AppState :=
  if showOptions s then set_showOptions false s else s.

Definition clickOption (index : nat) (s : AppState) : AppState :=
  if showOptions s then
    match nth_error (themes s) index with
    | Some item => set_showOptions false (set_themeId (Theme.id item) s)
    | None => s
    end
  else s.

(** The callback of the oldest 500 ms timer: the page navigates away. *)
Definition timeoutFires (s : AppState) : AppState :=
  match timeouts s with
  | u :: rest => set_location (Some u) (set_timeouts rest s)
  | [] => s
  end.

(** *** One event *)

Inductive Event : Type :=
| ConfigFetched (r : FetchResult)
| KeyDown (key : Key)
| ClickEntry (index : nat)
| DoubleClickEntry (index : nat)
| ClickAction (index : nat)
| ClickOverlay
| ClickOption (index : nat)
| TimeoutFires.

(** The handler an event reaches.  While there is no theme the component
    renders the loading screen only and the keyboard effect returns before
    it registers [handleKey]. *)
Definition handle (ev : Event) (s : AppState) : AppState :=
  match ev with
  | ConfigFetched r => settleFetch r s
  | TimeoutFires => timeoutFires s
  | _ =>
      match theme s with
      | None => s
      | Some _ =>
          match ev with
          | KeyDown key => handleKey key s
          | ClickEntry index => clickEntry index s
          | DoubleClickEntry index => doubleClickEntry index s
          | ClickAction index => clickAction index s
          | ClickOverlay => clickOverlay s
          | ClickOption index => clickOption index s
          | _ => s
          end
      end
  end.

(** Once the page has navigated away nothing of it runs any more. *)
Definition step (s : AppState) (ev : Event) : AppState :=
  match location s with
  | Some _ => s
  | None => commit s (handle ev s)
  end.

Definition run (s : AppState) (evs : list Event) : AppState :=
  fold_left step evs s.

End Clover.

(** ** The picker with the static theme table (App.tsx, second document) *)

Module Legacy.

Module Entry.
Record t : Type := mk {
  id : string;
  name : string;
  baseIcon : string;
  badgeIcon : option string
}.
End Entry.

Module Action.
Record t : Type := mk {
  id : string;
  name : string;
  icon : string
}.
End Action.

(** ['classic' | 'modern-dark' | 'modern-light'] *)
Inductive ThemeId : Type :=
| id_classic
| id_modern_dark
| id_modern_light.

Definition ThemeId_eqb (a b : ThemeId) : bool :=
  match a, b with
  | id_classic, id_classic => true
  | id_modern_dark, id_modern_dark => true
  | id_modern_light, id_modern_light => true
  | _, _ => false
  end.

Inductive ThemeStyle : Type :=
| style_classic
| style_modern.

Module Theme.
Record t : Type := mk {
  id : ThemeId;
  label : string;
  style : ThemeStyle;
  background : string;
  entries : list Entry.t;
  actions : list Action.t
}.
End Theme.

Definition classicTheme : Theme.t :=
  Theme.mk id_classic "Classic" style_classic "/assets/bg-tonymac.png"
    [ Entry.mk "hfs" "HFS" "/assets/vol_internal_hfs.png" (Some "/assets/os_lion.png");
      Entry.mk "recovery" "RECOVERY" "/assets/vol_internal_hfs.png"
        (Some "/assets/os_winxp.png") ]
    [ Action.mk "shell" "UEFI Shell" "/assets/tool_shell.png";
      Action.mk "clover" "Clover Config" "/assets/func_clover.png";
      Action.mk "about" "About Clover" "/assets/func_about.png";
      Action.mk "options" "Options" "/assets/func_options.png";
      Action.mk "reset" "Reset" "/assets/func_reset.png";
      Action.mk "shutdown" "Shutdown" "/assets/func_shutdown.png" ].

Definition modernDarkTheme : Theme.t :=
  Theme.mk id_modern_dark "Modern Dark" style_modern "/assets/bg-modern-dark.png"
    [ Entry.mk "mac" "macOS" "/assets/modern-dark-os-mac.png" None;
      Entry.mk "win" "Windows" "/assets/modern-dark-os-win.png" None ]
    [ Action.mk "shell" "UEFI Shell" "/assets/modern-dark-tool_shell.png";
      Action.mk "clover" "Clover Config" "/assets/modern-dark-func_clover.png";
      Action.mk "about" "About Clover" "/assets/modern-dark-func_about.png";
      Action.mk "options" "Options" "/assets/modern-dark-func_options.png";
      Action.mk "reset" "Reset" "/assets/modern-dark-func_reset.png";
      Action.mk "shutdown" "Shutdown" "/assets/modern-dark-func_shutdown.png" ].

Definition modernLightTheme : Theme.t :=
  Theme.mk id_modern_light "Modern Light" style_modern "/assets/bg-modern-light.png"
    [ Entry.mk "mac" "macOS" "/assets/modern-light-os-mac.png" None;
      Entry.mk "win" "Windows" "/assets/modern-light-os-win.png" None ]
    [ Action.mk "shell" "UEFI Shell" "/assets/modern-light-tool_shell.png";
      Action.mk "clover" "Clover Config" "/assets/modern-light-func_clover.png";
      Action.mk "about" "About Clover" "/assets/modern-light-func_about.png";
      Action.mk "options" "Options" "/assets/modern-light-func_options.png";
      Action.mk "reset" "Reset" "/assets/modern-light-func_reset.png";
      Action.mk "shutdown" "Shutdown" "/assets/modern-light-func_shutdown.png" ].

Definition themes : list Theme.t :=
  [ classicTheme; modernDarkTheme; modernLightTheme ].

Inductive Row : Type :=
| entries_row
| actions_row.

Definition Row_eqb (a b : Row) : bool :=
  match a, b with
  | entries_row, entries_row => true
  | actions_row, actions_row => true
  | _, _ => false
  end.

(** The five [useState] cells and the number of uncaught TypeErrors. *)
Record AppState : Type := mkState {
  themeId : ThemeId;
  selectedIndex : JS.number;
  status : string;
  activeRow : Row;
  actionIndex : JS.number;
  errors : nat
}.

Definition set_themeId (v : ThemeId) (s : AppState) : AppState :=
  mkState v (selectedIndex s) (status s) (activeRow s) (actionIndex s)
    (errors s).

Definition set_selectedIndex (v : JS.number) (s : AppState) : AppState :=
  mkState (themeId s) v (status s) (activeRow s) (actionIndex s) (errors s).

Definition set_status (v : string) (s : AppState) : AppState :=
  mkState (themeId s) (selectedIndex s) v (activeRow s) (actionIndex s)
    (errors s).

Definition set_activeRow (v : Row) (s : AppState) : AppState :=
  mkState (themeId s) (selectedIndex s) (status s) v (actionIndex s)
    (errors s).

Definition set_actionIndex (v : JS.number) (s : AppState) : AppState :=
  mkState (themeId s) (selectedIndex s) (status s) (activeRow s) v (errors s).

Definition set_errors (v : nat) (s : AppState) : AppState :=
  mkState (themeId s) (selectedIndex s) (status s) (activeRow s)
    (actionIndex s) v.

Definition throw (s : AppState) : AppState :=
  set_errors (S (errors s)) s.

(** [themes.find((item) => item.id === themeId) ?? themes[0]]; the table is
    not empty, so [themes[0]] is its first theme. *)
Definition theme (s : AppState) : Theme.t :=
  match find (fun item => ThemeId_eqb (Theme.id item) (themeId s)) themes with
  | Some t => t
  | None => hd classicTheme themes
  end.

Definition entries (s : AppState) : list Entry.t := Theme.entries (theme s).

Definition actions (s : AppState) : list Action.t := Theme.actions (theme s).

(** [`Boot ${themes[0].entries[0].name}`], evaluated once when the component
    mounts. *)
Definition init : AppState :=
  mkState id_classic (JS.Int 0) "Boot HFS" entries_row (JS.Int 0) 0%nat.

(** [(current + delta + total) % total] with [total = entries.length] *)
Definition moveEntries (delta : Z) (s : AppState) : AppState :=
  let total := JS.length (entries s) in
  set_selectedIndex
    (JS.rem (JS.add (JS.add (selectedIndex s) (JS.Int delta)) total) total) s.

Definition moveActions (delta : Z) (s : AppState) : AppState :=
  let total := JS.length (actions s) in
  set_actionIndex
    (JS.rem (JS.add (JS.add (actionIndex s) (JS.Int delta)) total) total) s.

(** [handleKey].  Reading [.name] of a position outside the row throws; the
    row switch before it has been set by then. *)
Definition handleKey (key : Key) (s : AppState) : AppState :=
  match key with
  | ArrowLeft =>
      match activeRow s with
      | entries_row => moveEntries (-1) s
      | actions_row => moveActions (-1) s
      end
  | ArrowRight =>
      match activeRow s with
      | entries_row => moveEntries 1 s
      | actions_row => moveActions 1 s
      end
  | ArrowDown =>
      let s1 := set_activeRow actions_row s in
      match JS.at_index (actions s) (actionIndex s) with
      | Some action => set_status (Action.name action) s1
      | None => throw s1
      end
  | ArrowUp =>
      let s1 := set_activeRow entries_row s in
      match JS.at_index (entries s) (selectedIndex s) with
      | Some entry => set_status ("Boot " ++ Entry.name entry)%string s1
      | None => throw s1
      end
  | Enter =>
      match activeRow s with
      | entries_row =>
          match JS.at_index (entries s) (selectedIndex s) with
          | Some entry => set_status ("Booting " ++ Entry.name entry ++ " ...")%string s
          | None => throw s
          end
      | actions_row =>
          match JS.at_index (actions s) (actionIndex s) with
          | Some action => set_status (Action.name action) s
          | None => throw s
          end
      end
  | _ => s
  end.

Definition clickEntry (index : nat) (s : AppState) : AppState :=
  match nth_error (entries s) index with
  | Some _ =>
      set_selectedIndex (JS.Int (Z.of_nat index)) (set_activeRow entries_row s)
  | None => s
  end.

Definition clickAction (index : nat) (s : AppState) : AppState :=
  match nth_error (actions s) index with
  | Some action =>
      set_status (Action.name action)
        (set_actionIndex (JS.Int (Z.of_nat index)) (set_activeRow actions_row s))
  | None => s
  end.

(** The effect with dependencies [themeId]. *)
Definition resetEffect (cur acc : AppState) : AppState :=
  let acc :=
    set_activeRow entries_row
      (set_actionIndex (JS.Int 0) (set_selectedIndex (JS.Int 0) acc)) in
  match JS.at_index (entries cur) (JS.Int 0) with
  | Some firstEntry => set_status ("Boot " ++ Entry.name firstEntry)%string acc
  | None => acc
  end.

(** The effect with dependencies [selectedIndex, activeRow, themeId]. *)
Definition statusEffect (cur acc : AppState) : AppState :=
  match activeRow cur with
  | entries_row =>
      match JS.nullish (JS.at_index (entries cur) (selectedIndex cur))
                       (JS.at_index (entries cur) (JS.Int 0)) with
      | Some entry => set_status ("Boot " ++ Entry.name entry)%string acc
      | None => throw acc
      end
  | actions_row => acc
  end.

Definition runEffects (prev cur : AppState) : AppState :=
  let themeChanged := negb (ThemeId_eqb (themeId prev) (themeId cur)) in
  let acc := if themeChanged then resetEffect cur cur else cur in
  if negb (JS.number_eqb (selectedIndex prev) (selectedIndex cur))
     || negb (Row_eqb (activeRow prev) (activeRow cur))
     || themeChanged
  then statusEffect cur acc
  else acc.

Definition commit (prev next : AppState) : AppState :=
  runEffects next (runEffects prev next).

Definition mount (s : AppState) : AppState :=
  runEffects s (statusEffect s (resetEffect s s)).

Definition start : AppState := mount init.

Inductive Event : Type :=
| KeyDown (key : Key)
| ClickEntry (index : nat)
| ClickAction (index : nat)
| ClickTheme (item : ThemeId).

Definition handle (ev : Event) (s : AppState) : AppState :=
  match ev with
  | KeyDown key => handleKey key s
  | ClickEntry index => clickEntry index s
  | ClickAction index => clickAction index s
  | ClickTheme item => set_themeId item s
  end.

Definition step (s : AppState) (ev : Event) : AppState :=
  commit s (handle ev s).

Definition run (s : AppState) (evs : list Event) : AppState :=
  fold_left step evs s.

End Legacy.

(** ** The XP boot simulation (XPBootScreen) *)

Module XP.

Inductive BootPhase : Type :=
| post
| bootloader
| boot
| login
| logging_in
| desktop.

Definition BootPhase_eqb (a b : BootPhase) : bool :=
  match a, b with
  | post, post | bootloader, bootloader | boot, boot => true
  | login, login | logging_in, logging_in | desktop, desktop => true
  | _, _ => false
  end.

Module User.
Record t : Type := mk {
  id : string;
  name : string;
  avatar : string
}.
End User.

Definition defaultUsers : list User.t :=
  [ User.mk "1" "Administrator" "xp/images/user/astronaut.png";
    User.mk "2" "Guest" "xp/images/user/butterfly.png" ].

(** The props that matter to the state: the user list and whether the two
    optional callbacks are given.  The three durations only set the delay of
    timers, which carry no duration here. *)
Record Props : Type := mkProps {
  users : list User.t;
  onLogin : bool;
  onExit : bool
}.

Definition defaultProps : Props := mkProps defaultUsers false false.

Module BootOption.
Record t : Type := mk {
  id : string;
  label : string
}.
End BootOption.

Definition bootOptions : list BootOption.t :=
  [ BootOption.mk "start" "Start Windows XP";
    BootOption.mk "safemode" "Safe Mode";
    BootOption.mk "lastknown" "Last Known Good Configuration" ].

(** The timers the component starts.  The first five belong to effects,
    whose cleanup clears them; the last is the [setTimeout] of
    [handleLogin], whose handle is dropped. *)
Inductive Timer : Type :=
| memoryInterval
| addLinesTimeout
| transitionTimeout
| countdownInterval
| bootTimer
| loginTimeout (user : User.t).

Definition ofEffect (t : Timer) : bool :=
  match t with
  | loginTimeout _ => false
  | _ => true
  end.

Definition Timer_eqb (a b : Timer) : bool :=
  match a, b with
  | memoryInterval, memoryInterval => true
  | addLinesTimeout, addLinesTimeout => true
  | transitionTimeout, transitionTimeout => true
  | countdownInterval, countdownInterval => true
  | bootTimer, bootTimer => true
  | loginTimeout u, loginTimeout v =>
      ((User.id u =? User.id v) && (User.name u =? User.name v)
       && (User.avatar u =? User.avatar v))%string
  | _, _ => false
  end.

(** Calls of the parent's callbacks, in order. *)
Inductive Callback : Type :=
| calledOnLogin (user : User.t)
| calledOnExit.

(** The seven [useState] cells, the timers that are pending, whether the
    component is mounted, and the callbacks it has invoked. *)
Record ScreenState : Type := mkState {
  phase : BootPhase;
  selectedUser : option User.t;
  loggingInUser : option User.t;
  memoryCount : Z;
  postLines : list string;
  bootloaderIndex : JS.number;
  countdown : Z;
  timers : list Timer;
  mounted : bool;
  calls : list Callback
}.

Definition set_phase (v : BootPhase) (s : ScreenState) : ScreenState :=
  mkState v (selectedUser s) (loggingInUser s) (memoryCount s) (postLines s)
    (bootloaderIndex s) (countdown s) (timers s) (mounted s) (calls s).

Definition set_selectedUser (v : option User.t) (s : ScreenState) : ScreenState :=
  mkState (phase s) v (loggingInUser s) (memoryCount s) (postLines s)
    (bootloaderIndex s) (countdown s) (timers s) (mounted s) (calls s).

Definition set_loggingInUser (v : option User.t) (s : ScreenState) : ScreenState :=
  mkState (phase s) (selectedUser s) v (memoryCount s) (postLines s)
    (bootloaderIndex s) (countdown s) (timers s) (mounted s) (calls s).

Definition set_memoryCount (v : Z) (s : ScreenState) : ScreenState :=
  mkState (phase s) (selectedUser s) (loggingInUser s) v (postLines s)
    (bootloaderIndex s) (countdown s) (timers s) (mounted s) (calls s).

Definition set_postLines (v : list string) (s : ScreenState) : ScreenState :=
  mkState (phase s) (selectedUser s) (loggingInUser s) (memoryCount s) v
    (bootloaderIndex s) (countdown s) (timers s) (mounted s) (calls s).

Definition set_bootloaderIndex (v : JS.number) (s : ScreenState) : ScreenState :=
  mkState (phase s) (selectedUser s) (loggingInUser s) (memoryCount s)
    (postLines s) v (countdown s) (timers s) (mounted s) (calls s).

Definition set_countdown (v : Z) (s : ScreenState) : ScreenState :=
  mkState (phase s) (selectedUser s) (loggingInUser s) (memoryCount s)
    (postLines s) (bootloaderIndex s) v (timers s) (mounted s) (calls s).

Definition set_timers (v : list Timer) (s : ScreenState) : ScreenState :=
  mkState (phase s) (selectedUser s) (loggingInUser s) (memoryCount s)
    (postLines s) (bootloaderIndex s) (countdown s) v (mounted s) (calls s).

Definition set_mounted (v : bool) (s : ScreenState) : ScreenState :=
  mkState (phase s) (selectedUser s) (loggingInUser s) (memoryCount s)
    (postLines s) (bootloaderIndex s) (countdown s) (timers s) v (calls s).

Definition set_calls (v : list Callback) (s : ScreenState) : ScreenState :=
  mkState (phase s) (selectedUser s) (loggingInUser s) (memoryCount s)
    (postLines s) (bootloaderIndex s) (countdown s) (timers s) (mounted s) v.

Definition init : ScreenState :=
  mkState post None None 0 [] (JS.Int 0) 5 [] true [].

Definition pending (t : Timer) (s : ScreenState) : bool :=
  existsb (Timer_eqb t) (timers s).

(** [clearTimeout] / [clearInterval], and a timeout that has fired: the
    first pending timer of that kind goes. *)
Fixpoint remove_timer (t : Timer) (l : list Timer) : list Timer :=
  match l with
  | [] => []
  | x :: rest => if Timer_eqb t x then rest else x :: remove_timer t rest
  end.

Definition clear (t : Timer) (s : ScreenState) : ScreenState :=
  set_timers (remove_timer t (timers s)) s.

Definition schedule (t : Timer) (s : ScreenState) : ScreenState :=
  set_timers (timers s ++ [t]) s.

(** *** Effects *)

(** The cleanup functions of the three timer effects. *)
Definition cleanupEffects (s : ScreenState) : ScreenState :=
  set_timers (filter (fun t => negb (ofEffect t)) (timers s)) s.

(** The bodies of the three timer effects for the phase of render [cur]. *)
Definition setupEffects (cur acc : ScreenState) : ScreenState :=
  match phase cur with
  | post =>
      schedule transitionTimeout
        (schedule addLinesTimeout
           (schedule memoryInterval
              (set_postLines
                 [ "Award Modular BIOS v4.51PG, An Energy Star Ally";
                   "Copyright (C) 1984-2025, Award Software, Inc.";
                   "";
                   "Main Processor : Intel(R) Pentium(R) 4 CPU 2.80GHz";
                   "" ] acc)))
  | bootloader => schedule countdownInterval acc
  | boot => schedule bootTimer acc
  | _ => acc
  end.

(** All three have [phase] among their dependencies (the others are props,
    which stay as they are): when the phase changed, the old cleanups run
    and the effects run again. *)
Definition commit (prev next : ScreenState) : ScreenState :=
  if BootPhase_eqb (phase prev) (phase next) then next
  else setupEffects next (cleanupEffects next).

Definition mount (s : ScreenState) : ScreenState :=
  setupEffects s s.

Definition start : ScreenState := mount init.

(** Unmounting runs the cleanups and removes the listeners. *)
Definition unmount (s : ScreenState) : ScreenState :=
  set_mounted false (cleanupEffects s).

(** *** Handlers *)

Definition handleLogin (user : User.t) (s : ScreenState) : ScreenState :=
  schedule (loginTimeout user)
    (set_phase logging_in (set_loggingInUser (Some user) s)).

Definition handleUserClick (user : User.t) (s : ScreenState) : ScreenState :=
  match selectedUser s with
  | Some sel =>
      if (User.id sel =? User.id user)%string then handleLogin user s
      else set_selectedUser (Some user) s
  | None => set_selectedUser (Some user) s
  end.

Definition callOnExit (p : Props) (s : ScreenState) : ScreenState :=
  if onExit p then set_calls (calls s ++ [calledOnExit]) s else s.

Definition handleKeyDown (p : Props) (key : Key) (s : ScreenState) : ScreenState :=
  match key with
  | Escape => callOnExit p s
  | _ =>
      match phase s with
      | bootloader =>
          match key with
          | ArrowUp =>
              set_bootloaderIndex
                (JS.rem (JS.add (JS.sub (bootloaderIndex s) (JS.Int 1))
                                (JS.length bootOptions))
                        (JS.length bootOptions)) s
          | ArrowDown =>
              set_bootloaderIndex
                (JS.rem (JS.add (bootloaderIndex s) (JS.Int 1)) (JS.length bootOptions)) s
          | Enter => set_phase boot s
          | _ => s
          end
      | login =>
          let currentIndex :=
            match selectedUser s with
            | Some sel =>
                JS.findIndex_from (fun u => (User.id u =? User.id sel)%string) (users p) 0
            | None => -1
            end in
          let last := Z.of_nat (List.length (users p)) - 1 in
          match key with
          | ArrowUp =>
              let newIndex := if currentIndex <=? 0 then last else currentIndex - 1 in
              set_selectedUser (JS.at_index (users p) (JS.Int newIndex)) s
          | ArrowDown =>
              let newIndex := if currentIndex >=? last then 0 else currentIndex + 1 in
              set_selectedUser (JS.at_index (users p) (JS.Int newIndex)) s
          | Enter =>
              match selectedUser s with
              | Some sel => handleLogin sel s
              | None => s
              end
          | _ => s
          end
      | _ => s
      end
  end.

(** Clicks on what the current phase renders. *)
Definition clickBootOption (index : nat) (s : ScreenState) : ScreenState :=
  match phase s, nth_error bootOptions index with
  | bootloader, Some _ =>
      set_phase boot (set_bootloaderIndex (JS.Int (Z.of_nat index)) s)
  | _, _ => s
  end.

Definition clickUser (p : Props) (index : nat) (s : ScreenState) : ScreenState :=
  match phase s, nth_error (users p) index with
  | login, Some user | logging_in, Some user => handleUserClick user s
  | _, _ => s
  end.

Definition clickExit (p : Props) (s : ScreenState) : ScreenState :=
  match phase s with
  | desktop => callOnExit p s
  | _ => s
  end.

(** *** Timer callbacks *)

(** One tick of the memory counter.  The counter is a floating-point
    accumulation; whether it has reached the total on this tick, and its
    floor otherwise, are given with the tick. *)
Definition memoryTick (reached : bool) (shown : Z) (s : ScreenState) : ScreenState :=
  if reached then set_memoryCount 2097152 (clear memoryInterval s)
  else set_memoryCount shown s.

Definition addLines (s : ScreenState) : ScreenState :=
  set_postLines
    (postLines s ++
     [ "Memory Testing : 2097152K OK";
       "";
       "Detecting Pri Master ... Virtual Hard Disk C:";
       "Detecting Pri Slave  ... Virtual Hard Disk D:";
       "Detecting Sec Master ... Virtual CD/DVD E:";
       "Detecting Sec Slave  ... None";
       "";
       "Initializing USB Controllers ... Done";
       "" ])
    (clear addLinesTimeout s).

Definition countdownTick (s : ScreenState) : ScreenState :=
  if countdown s <=? 1 then
    set_countdown 0 (set_phase boot (clear countdownInterval s))
  else set_countdown (countdown s - 1) s.

(** The callback of [handleLogin]'s timeout.  On an unmounted component
    [setPhase] no longer changes anything; the parent's callback is called
    all the same. *)
Definition loginDone (p : Props) (user : User.t) (s : ScreenState) : ScreenState :=
  let s1 := clear (loginTimeout user) s in
  let s2 := if mounted s then set_phase desktop s1 else s1 in
  if onLogin p then set_calls (calls s2 ++ [calledOnLogin user]) s2 else s2.

(** A pending timer fires.  The memory interval does so through
    [MemoryTick] below, which carries its reading. *)
Definition fire (p : Props) (t : Timer) (s : ScreenState) : ScreenState :=
  if pending t s then
    match t with
    | memoryInterval => s
    | addLinesTimeout => addLines s
    | transitionTimeout => set_phase bootloader (clear transitionTimeout s)
    | countdownInterval => countdownTick s
    | bootTimer => set_phase login (clear bootTimer s)
    | loginTimeout user => loginDone p user s
    end
  else s.

(** *** One event *)

Inductive Event : Type :=
| KeyDown (key : Key)
| ClickBootOption (index : nat)
| ClickUser (index : nat)
| ClickExit
| MemoryTick (reached : bool) (shown : Z)
| TimerFires (t : Timer)
| Unmount.

Definition handle (p : Props) (ev : Event) (s : ScreenState) : ScreenState :=
  match ev with
  | MemoryTick reached shown =>
      if pending memoryInterval s then memoryTick reached shown s else s
  | TimerFires t => fire p t s
  | _ =>
      if mounted s then
        match ev with
        | KeyDown key => handleKeyDown p key s
        | ClickBootOption index => clickBootOption index s
        | ClickUser index => clickUser p index s
        | ClickExit => clickExit p s
        | Unmount => unmount s
        | _ => s
        end
      else s
  end.

Definition step (p : Props) (s : ScreenState) (ev : Event) : ScreenState :=
  let next := handle p ev s in
  if mounted next then commit s next else next.

Definition run (p : Props) (s : ScreenState) (evs : list Event) : ScreenState :=
  fold_left (step p) evs s.

(** *** What the component renders *)

(** The screen returned for each phase, with the parts of it that depend on
    the state: the POST lines and the memory line (shown while the count is
    strictly between 0 and the total), the highlighted boot option and the
    countdown, the message of the login screen with the ids of the selected
    and the active user, and the heading of the desktop.  [undefined] in a
    JSX expression renders nothing. *)
Inductive View : Type :=
| PostScreen (lines : list string) (memoryLine : option Z)
| BootloaderScreen (highlighted : JS.number) (secondsLeft : Z)
| BootScreen
| LoginScreen (message : string) (selected active : option string)
| DesktopScreen (heading : string).

Definition render (s : ScreenState) : View :=
  match phase s with
  | post =>
      PostScreen (postLines s)
        (if (0 <? memoryCount s) && (memoryCount s <? 2097152)
         then Some (memoryCount s) else None)
  | bootloader => BootloaderScreen (bootloaderIndex s) (countdown s)
  | boot => BootScreen
  | login =>
      LoginScreen "To begin, click your user name"
        (option_map User.id (selectedUser s)) (option_map User.id (loggingInUser s))
  | logging_in =>
      LoginScreen "Loading your personal settings..."
        (option_map User.id (selectedUser s)) (option_map User.id (loggingInUser s))
  | desktop =>
      DesktopScreen
        ("Welcome, " ++ match loggingInUser s with
                        | Some user => User.name user
                        | None => ""
                        end)%string
  end.

End XP.

(** * Vocabulary of the properties *)

(** The spec's [(index, length, key) -> newIndex]: the arrow toward the
    previous item and the arrow toward the next one, on a row of the given
    length. *)
Inductive Direction : Type :=
| Previous
| Next.

Definition newIndex (index length : Z) (toward : Direction) : Z :=
  match toward with
  | Previous => (index - 1 + length) mod length
  | Next => (index + 1) mod length
  end.

(** A configuration used to exercise the picker: one built-in theme, whose
    first entry has a URL, and one Clover theme folder. *)
Definition demoConfig : Clover.Config.t :=
  Clover.Config.mk "classic"
    [ Clover.ConfigTheme.mk "classic" "Classic" Clover.type_builtin "assets/bg.png" None
        [ Clover.ConfigEntry.mk "mac" "macOS" "assets/mac.png" None
            (Some "https://example.org/mac");
          Clover.ConfigEntry.mk "win" "Windows" "assets/win.png" None None ]
        [ Clover.ConfigAction.mk "shell" "UEFI Shell" "assets/shell.png";
          Clover.ConfigAction.mk "options" "Options" "assets/options.png" ] ]
    (Some [ "Mojave" ]).

(** The picker after that configuration has loaded. *)
Definition demoState : Clover.AppState :=
  Clover.run Clover.start [ Clover.ConfigFetched (Clover.Parsed demoConfig) ].

(** The XP screen once the POST phase is over. *)
Definition demoBootloader : XP.ScreenState :=
  XP.run XP.defaultProps XP.start [ XP.TimerFires XP.transitionTimeout ].

(** The picker with the options modal open: Down to the actions row, Right
    to the Options action, Enter. *)
Definition demoOptions : Clover.AppState :=
  Clover.run demoState
    [ Clover.KeyDown ArrowDown; Clover.KeyDown ArrowRight; Clover.KeyDown Enter ].

(** The static-table picker with the actions row active. *)
Definition demoActionsRow : Legacy.AppState :=
  Legacy.step Legacy.start (Legacy.KeyDown ArrowDown).

(** The row the arrow keys act on while the modal is closed, its selection
    index and its length; and the selection index of the other row. *)
Definition cloverActiveIndex (s : Clover.AppState) : JS.number :=
  match Clover.activeRow s with
  | Clover.entries_row => Clover.selectedIndex s
  | Clover.actions_row => Clover.actionIndex s
  end.

Definition cloverActiveLength (s : Clover.AppState) : JS.number :=
  match Clover.activeRow s with
  | Clover.entries_row => JS.length (Clover.entries s)
  | Clover.actions_row => JS.length (Clover.actions s)
  end.

Definition cloverOtherIndex (s : Clover.AppState) : JS.number :=
  match Clover.activeRow s with
  | Clover.entries_row => Clover.actionIndex s
  | Clover.actions_row => Clover.selectedIndex s
  end.

Definition legacyActiveIndex (s : Legacy.AppState) : JS.number :=
  match Legacy.activeRow s with
  | Legacy.entries_row => Legacy.selectedIndex s
  | Legacy.actions_row => Legacy.actionIndex s
  end.

Definition legacyActiveLength (s : Legacy.AppState) : JS.number :=
  match Legacy.activeRow s with
  | Legacy.entries_row => JS.length (Legacy.entries s)
  | Legacy.actions_row => JS.length (Legacy.actions s)
  end.

Definition legacyOtherIndex (s : Legacy.AppState) : JS.number :=
  match Legacy.activeRow s with
  | Legacy.entries_row => Legacy.actionIndex s
  | Legacy.actions_row => Legacy.selectedIndex s
  end.

(** The phases the claim about the XP simulation names, in its order. *)
Definition namedPhases : list XP.BootPhase :=
  [ XP.post; XP.bootloader; XP.boot; XP.login; XP.desktop ].

(** The timers an effect starts in a given phase. *)
Definition timer_fits (ph : XP.BootPhase) (t : XP.Timer) : bool :=
  match ph, t with
  | XP.post, XP.memoryInterval
  | XP.post, XP.addLinesTimeout
  | XP.post, XP.transitionTimeout
  | XP.bootloader, XP.countdownInterval
  | XP.boot, XP.bootTimer => true
  | _, _ => false
  end.

(** Every pending timer of an effect belongs to the effect of the current
    phase of a mounted component. *)
Definition timers_fit (s : XP.ScreenState) : Prop :=
  forall t, In t (XP.timers s) -> XP.ofEffect t = true ->
            XP.mounted s = true /\ timer_fits (XP.phase s) t = true.

(** The XP screen with a user selected on the login screen: POST over,
    Enter at the bootloader, boot animation over, Down selects the first
    user. *)
Definition loginProps : XP.Props := XP.mkProps XP.defaultUsers true true.

Definition demoLogin : XP.ScreenState :=
  XP.run loginProps XP.start
    [ XP.TimerFires XP.transitionTimeout; XP.KeyDown Enter;
      XP.TimerFires XP.bootTimer; XP.KeyDown ArrowDown ].

(** The six phases of [BootPhase] in the order the simulation goes through
    them, and the position of a phase in that order. *)
Definition phaseOrder : list XP.BootPhase :=
  [ XP.post; XP.bootloader; XP.boot; XP.login; XP.logging_in; XP.desktop ].

Definition phaseRank (ph : XP.BootPhase) : nat :=
  match ph with
  | XP.post => 0
  | XP.bootloader => 1
  | XP.boot => 2
  | XP.login => 3
  | XP.logging_in => 4
  | XP.desktop => 5
  end.

(** A configuration whose [defaultTheme] names none of its themes; its one
    theme has an entry and the Options action. *)
Definition strayConfig : Clover.Config.t :=
  Clover.Config.mk "tonymac"
    [ Clover.ConfigTheme.mk "classic" "Classic" Clover.type_builtin "assets/bg.png" None
        [ Clover.ConfigEntry.mk "mac" "macOS" "assets/mac.png" None None ]
        [ Clover.ConfigAction.mk "options" "Options" "assets/options.png" ] ]
    None.

Definition strayState : Clover.AppState :=
  Clover.run Clover.start [ Clover.ConfigFetched (Clover.Parsed strayConfig) ].

(** Down to the actions row, Enter on the Options action. *)
Definition strayOptions : Clover.AppState :=
  Clover.run strayState [ Clover.KeyDown ArrowDown; Clover.KeyDown Enter ].

(** The XP screen while it is logging the selected user in. *)
Definition demoLoggingIn : XP.ScreenState :=
  XP.step loginProps demoLogin (XP.KeyDown Enter).

Definition administrator : XP.User.t :=
  XP.User.mk "1" "Administrator" "xp/images/user/astronaut.png".

(** Events that settle the fetch, and fetch results that are a failure:
    the request itself, or reading the response as JSON. *)
Definition isFetch (ev : Clover.Event) : bool :=
  match ev with
  | Clover.ConfigFetched _ => true
  | _ => false
  end.

Definition isFailure (r : Clover.FetchResult) : bool :=
  match r with
  | Clover.Parsed _ => false
  | Clover.FetchRejected | Clover.JsonRejected => true
  end.

(** The picker showing the theme synthesized for the folder "Mojave",
    chosen in the options modal. *)
Definition demoClover : Clover.AppState :=
  Clover.run demoOptions [ Clover.KeyDown ArrowDown; Clover.KeyDown Enter ].

(** The status line [bootEntry] sets for an entry without a URL. *)
Definition noUrlStatus (entry : Clover.ConfigEntry.t) : string :=
  ("Boot " ++ Clover.ConfigEntry.name entry ++ " (no URL configured)")%string.

(** The list the arrow keys of the picker act on: the options modal while
    it is open, the active row otherwise; with the index, the length and the
    two arrow keys of each. *)
Inductive Focus : Type :=
| onEntries
| onActions
| onOptions.

Definition cloverFocus (s : Clover.AppState) : Focus :=
  if Clover.showOptions s then onOptions
  else match Clover.activeRow s with
       | Clover.entries_row => onEntries
       | Clover.actions_row => onActions
       end.

Definition cloverIndex (f : Focus) (s : Clover.AppState) : JS.number :=
  match f with
  | onEntries => Clover.selectedIndex s
  | onActions => Clover.actionIndex s
  | onOptions => Clover.optionIndex s
  end.

Definition cloverLength (f : Focus) (s : Clover.AppState) : JS.number :=
  match f with
  | onEntries => JS.length (Clover.entries s)
  | onActions => JS.length (Clover.actions s)
  | onOptions => JS.length (Clover.themes s)
  end.

Definition legacyIndex (r : Legacy.Row) (s : Legacy.AppState) : JS.number :=
  match r with
  | Legacy.entries_row => Legacy.selectedIndex s
  | Legacy.actions_row => Legacy.actionIndex s
  end.

Definition legacyLength (r : Legacy.Row) (s : Legacy.AppState) : JS.number :=
  match r with
  | Legacy.entries_row => JS.length (Legacy.entries s)
  | Legacy.actions_row => JS.length (Legacy.actions s)
  end.

(** The index updates the handlers perform, as functions of the index, the
    length and the key alone.  [vertical] tells the lists moved with Up and
    Down from the rows moved with Left and Right. *)
Definition indexAfter (vertical : bool) (index length : JS.number) (key : Key)
  : JS.number :=
  match vertical, key with
  | true, ArrowUp | false, ArrowLeft =>
      JS.rem (JS.add (JS.sub index (JS.Int 1)) length) length
  | true, ArrowDown | false, ArrowRight =>
      JS.rem (JS.add index (JS.Int 1)) length
  | _, _ => index
  end.

Definition legacyIndexAfter (index length : JS.number) (key : Key) : JS.number :=
  match key with
  | ArrowLeft => JS.rem (JS.add (JS.add index (JS.Int (-1))) length) length
  | ArrowRight => JS.rem (JS.add (JS.add index (JS.Int 1)) length) length
  | _ => index
  end.

Definition isVertical (f : Focus) : bool :=
  match f with
  | onOptions => true
  | _ => false
  end.

(** An index that is an integer of the range [lo, n). *)
Definition inRange (i : JS.number) (lo : Z) (n : nat) : Prop :=
  exists z, i = JS.Int z /\ lo <= z < Z.of_nat n.

Definition rowsNonempty (t : Clover.Theme.t) : Prop :=
  Clover.Theme.entries t <> [] /\ Clover.Theme.actions t <> [].

(** What every state of the picker satisfies once a configuration whose
    themes have nonempty rows has loaded: the two row indices are positions
    of their rows; the option index is a position of the theme list or the
    -1 of [findIndex]. *)
Definition cloverRanges (s : Clover.AppState) : Prop :=
  Clover.fetchPending s = false
  /\ Forall rowsNonempty (Clover.themes s)
  /\ forall t, Clover.theme s = Some t ->
       inRange (Clover.selectedIndex s) 0 (List.length (Clover.Theme.entries t))
       /\ inRange (Clover.actionIndex s) 0 (List.length (Clover.Theme.actions t))
       /\ inRange (Clover.optionIndex s) (-1) (List.length (Clover.themes s)).

(** The static-table picker: both indices are positions of their rows and
    no handler has thrown. *)
Definition legacyRanges (s : Legacy.AppState) : Prop :=
  inRange (Legacy.selectedIndex s) 0 (List.length (Legacy.entries s))
  /\ inRange (Legacy.actionIndex s) 0 (List.length (Legacy.actions s))
  /\ Legacy.errors s = 0%nat.

(** The status line the reset effect leaves for a theme: 'Boot ' and the name
    of its first entry, or the status as it was when it has no entry. *)
Definition bootFirst (t : Clover.Theme.t) (status : string) : string :=
  match Clover.Theme.entries t with
  | first :: _ => ("Boot " ++ Clover.ConfigEntry.name first)%string
  | [] => status
  end.

(** The selection as the reset effect leaves it. *)
Definition cloverReset (status : string) (s : Clover.AppState) : Clover.AppState :=
  Clover.set_status status
    (Clover.set_activeRow Clover.entries_row
       (Clover.set_actionIndex (JS.Int 0) (Clover.set_selectedIndex (JS.Int 0) s))).

(** [data.defaultTheme || 'classic'], the theme id set by the load. *)
Definition defaultThemeId (data : Clover.Config.t) : string :=
  if JS.truthy (Clover.Config.defaultTheme data)
  then Clover.Config.defaultTheme data
  else "classic".

(** A configuration without any theme. *)
Definition emptyConfig : Clover.Config.t := Clover.Config.mk "classic" [] None.

(** Events of the XP screen that are not caused by the user or the parent:
    a timer firing or the memory counter ticking. *)
Definition isTimerEvent (ev : XP.Event) : bool :=
  match ev with
  | XP.TimerFires _ | XP.MemoryTick _ _ => true
  | _ => false
  end.

(** The pending timeouts of [handleLogin]. *)
Definition loginTimeouts (s : XP.ScreenState) : list XP.Timer :=
  filter (fun t => negb (XP.ofEffect t)) (XP.timers s).

(** Every user the XP screen holds or reports comes from the [users] prop,
    and once a login has started there is a user being logged in. *)
Definition usersKnown (p : XP.Props) (s : XP.ScreenState) : Prop :=
  (forall u, XP.selectedUser s = Some u -> In u (XP.users p))
  /\ (forall u, XP.loggingInUser s = Some u -> In u (XP.users p))
  /\ (forall u, In (XP.loginTimeout u) (XP.timers s) ->
                In u (XP.users p) /\ XP.loggingInUser s <> None)
  /\ (forall u, In (XP.calledOnLogin u) (XP.calls s) -> In u (XP.users p))
  /\ (XP.phase s = XP.logging_in \/ XP.phase s = XP.desktop ->
      XP.loggingInUser s <> None).

(** The state in which timers alone can leave the XP screen: no login has
    started and no callback was called. *)
Definition untouched (s : XP.ScreenState) : Prop :=
  loginTimeouts s = []
  /\ XP.loggingInUser s = None
  /\ XP.selectedUser s = None
  /\ XP.calls s = []
  /\ XP.mounted s = true
  /\ (phaseRank (XP.phase s) <= 3)%nat.

(** The two blocks of lines of the POST screen: the ones its effect sets,
    and the ones the two-second timeout appends. *)
Definition biosLines : list string :=
  [ "Award Modular BIOS v4.51PG, An Energy Star Ally";
    "Copyright (C) 1984-2025, Award Software, Inc.";
    "";
    "Main Processor : Intel(R) Pentium(R) 4 CPU 2.80GHz";
    "" ].

Definition driveLines : list string :=
  [ "Memory Testing : 2097152K OK";
    "";
    "Detecting Pri Master ... Virtual Hard Disk C:";
    "Detecting Pri Slave  ... Virtual Hard Disk D:";
    "Detecting Sec Master ... Virtual CD/DVD E:";
    "Detecting Sec Slave  ... None";
    "";
    "Initializing USB Controllers ... Done";
    "" ].

(** How many timeouts that append the drive lines are pending. *)
Definition driveTimeouts (s : XP.ScreenState) : nat :=
  List.length (filter (XP.Timer_eqb XP.addLinesTimeout) (XP.timers s)).

(** The lines are the first block, with the timeout pending while the POST
    screen is up; or both blocks, with no such timeout left. *)
Definition postLinesOk (s : XP.ScreenState) : Prop :=
  (driveTimeouts s <= 1)%nat
  /\ ((XP.postLines s = biosLines
       /\ (XP.mounted s = true -> XP.phase s = XP.post -> driveTimeouts s = 1%nat))
      \/ (XP.postLines s = biosLines ++ driveLines /\ driveTimeouts s = 0%nat)).

(** * Properties *)

(** ** Index arithmetic *)

Lemma newIndex_in_range (i n : Z) (d : Direction) :
  0 < n -> 0 <= newIndex i n d < n.
Proof.
  intros Hn. destruct d; cbn [newIndex]; apply Z.mod_pos_bound; exact Hn.
Qed.

Lemma rem_previous (i n : Z) :
  0 < n -> 0 <= i < n ->
  JS.rem (JS.add (JS.sub (JS.Int i) (JS.Int 1)) (JS.Int n)) (JS.Int n)
  = JS.Int (newIndex i n Previous).
Proof.
  intros Hn Hi. cbn [JS.rem JS.add JS.sub newIndex].
  destruct (Z.eqb_spec n 0) as [E | _]; [lia |].
  rewrite Z.rem_mod_nonneg by lia. reflexivity.
Qed.

Lemma rem_next (i n : Z) :
  0 < n -> 0 <= i < n ->
  JS.rem (JS.add (JS.Int i) (JS.Int 1)) (JS.Int n) = JS.Int (newIndex i n Next).
Proof.
  intros Hn Hi. cbn [JS.rem JS.add newIndex].
  destruct (Z.eqb_spec n 0) as [E | _]; [lia |].
  rewrite Z.rem_mod_nonneg by lia. reflexivity.
Qed.

(** [moveEntries(-1)] and [moveEntries(1)] of the static-table picker add
    the length before reducing in both directions. *)
Lemma rem_delta_previous (i n : Z) :
  0 < n -> 0 <= i < n ->
  JS.rem (JS.add (JS.add (JS.Int i) (JS.Int (-1))) (JS.Int n)) (JS.Int n)
  = JS.Int (newIndex i n Previous).
Proof.
  intros Hn Hi. cbn [JS.rem JS.add newIndex].
  destruct (Z.eqb_spec n 0) as [E | _]; [lia |].
  rewrite Z.rem_mod_nonneg by lia.
  replace (i + -1 + n) with (i - 1 + n) by lia. reflexivity.
Qed.

Lemma rem_delta_next (i n : Z) :
  0 < n -> 0 <= i < n ->
  JS.rem (JS.add (JS.add (JS.Int i) (JS.Int 1)) (JS.Int n)) (JS.Int n)
  = JS.Int (newIndex i n Next).
Proof.
  intros Hn Hi. cbn [JS.rem JS.add newIndex].
  destruct (Z.eqb_spec n 0) as [E | _]; [lia |].
  rewrite Z.rem_mod_nonneg by lia.
  replace (i + 1 + n) with (i + 1 + 1 * n) by lia.
  apply f_equal, Z.mod_add. lia.
Qed.

Lemma number_eqb_refl (a : JS.number) : JS.number_eqb a a = true.
Proof. destruct a; cbn; [apply Z.eqb_refl | reflexivity]. Qed.

Lemma at_index_nat {A : Type} (l : list A) (k : nat) :
  JS.at_index l (JS.Int (Z.of_nat k)) = nth_error l k.
Proof.
  cbn [JS.at_index]. destruct (Z.ltb_spec (Z.of_nat k) 0); [lia |].
  now rewrite Nat2Z.id.
Qed.

Lemma at_index_in_range {A : Type} (l : list A) (i : Z) :
  0 <= i < Z.of_nat (List.length l) -> exists x, JS.at_index l (JS.Int i) = Some x.
Proof.
  intros Hi. cbn [JS.at_index]. destruct (Z.ltb_spec i 0); [lia |].
  destruct (nth_error l (Z.to_nat i)) eqn:E; [eauto |].
  apply nth_error_None in E. lia.
Qed.

(** ** The config-driven picker: what a commit can change *)

Lemma clover_set_status_same (s : Clover.AppState) :
  Clover.set_status (Clover.status s) s = s.
Proof. destruct s; reflexivity. Qed.

Lemma clover_row_eqb_refl (r : Clover.Row) : Clover.Row_eqb r r = true.
Proof. destruct r; reflexivity. Qed.

(** Without a change of theme, the effects touch the status line only. *)
Lemma clover_runEffects_status (prev cur : Clover.AppState) :
  Clover.themeId prev = Clover.themeId cur ->
  List.length (Clover.themes prev) = List.length (Clover.themes cur) ->
  exists st, Clover.runEffects prev cur = Clover.set_status st cur.
Proof.
  intros Hid Hlen. unfold Clover.runEffects, Clover.resetDeps_changed.
  rewrite Hid, Hlen, String.eqb_refl, Nat.eqb_refl. cbn [negb orb].
  destruct (Clover.statusDeps_changed prev cur).
  - unfold Clover.statusEffect.
    destruct (Clover.theme cur);
      [| exists (Clover.status cur); now rewrite clover_set_status_same].
    destruct (JS.nullish _ _);
      [| exists (Clover.status cur); now rewrite clover_set_status_same].
    destruct (Clover.activeRow cur); [eauto |].
    exists (Clover.status cur); now rewrite clover_set_status_same.
  - exists (Clover.status cur); now rewrite clover_set_status_same.
Qed.

(** Nothing that feeds an effect changed: the commit is the handler's result. *)
Lemma clover_runEffects_idle (prev cur : Clover.AppState) :
  Clover.themeId prev = Clover.themeId cur ->
  List.length (Clover.themes prev) = List.length (Clover.themes cur) ->
  Clover.selectedIndex prev = Clover.selectedIndex cur ->
  Clover.activeRow prev = Clover.activeRow cur ->
  Clover.runEffects prev cur = cur.
Proof.
  intros Hid Hlen Hsel Hrow.
  unfold Clover.runEffects, Clover.resetDeps_changed, Clover.statusDeps_changed.
  now rewrite Hid, Hlen, Hsel, Hrow, String.eqb_refl, Nat.eqb_refl,
    number_eqb_refl, clover_row_eqb_refl.
Qed.

Lemma clover_commit_idle (prev next : Clover.AppState) :
  Clover.themeId prev = Clover.themeId next ->
  List.length (Clover.themes prev) = List.length (Clover.themes next) ->
  Clover.selectedIndex prev = Clover.selectedIndex next ->
  Clover.activeRow prev = Clover.activeRow next ->
  Clover.commit prev next = next.
Proof.
  intros Hid Hlen Hsel Hrow. unfold Clover.commit.
  rewrite (clover_runEffects_idle prev next) by assumption.
  now apply clover_runEffects_idle.
Qed.

Lemma clover_commit_status (prev next : Clover.AppState) :
  Clover.themeId prev = Clover.themeId next ->
  List.length (Clover.themes prev) = List.length (Clover.themes next) ->
  exists st, Clover.commit prev next = Clover.set_status st next.
Proof.
  intros Hid Hlen. unfold Clover.commit.
  destruct (clover_runEffects_status prev next Hid Hlen) as [st ->].
  rewrite clover_runEffects_idle by reflexivity. eauto.
Qed.

(** Two rounds of effects are enough: a third finds no dependency changed. *)
Lemma commit_quiescent (prev next : Clover.AppState) :
  Clover.runEffects (Clover.runEffects prev next) (Clover.commit prev next)
  = Clover.commit prev next.
Proof.
  unfold Clover.commit.
  set (s1 := Clover.runEffects prev next).
  assert (Hid : Clover.themeId next = Clover.themeId s1
                /\ List.length (Clover.themes next) = List.length (Clover.themes s1)).
  { subst s1. unfold Clover.runEffects, Clover.resetEffect, Clover.statusEffect.
    repeat match goal with
           | |- context [if ?b then _ else _] => destruct b
           | |- context [match ?x with _ => _ end] => destruct x
           end; cbn; split; reflexivity. }
  destruct Hid as [Hid Hlen].
  destruct (clover_runEffects_status next s1 Hid Hlen) as [st ->].
  now apply clover_runEffects_idle.
Qed.

(** A step whose handler keeps the theme is the handler followed by at most
    a new status line. *)
Lemma clover_step_same_theme (s : Clover.AppState) (ev : Clover.Event) :
  Clover.location s = None ->
  Clover.themeId (Clover.handle ev s) = Clover.themeId s ->
  Clover.themes (Clover.handle ev s) = Clover.themes s ->
  exists st, Clover.step s ev = Clover.set_status st (Clover.handle ev s).
Proof.
  intros Hloc Hid Hth. unfold Clover.step. rewrite Hloc.
  apply clover_commit_status; [now rewrite Hid | now rewrite Hth].
Qed.

Lemma clover_entries_theme (s : Clover.AppState) (n : Z) :
  0 < n -> JS.length (Clover.entries s) = JS.Int n ->
  exists t, Clover.theme s = Some t.
Proof.
  intros Hn Hlen. unfold Clover.entries in Hlen.
  destruct (Clover.theme s); [eauto |].
  cbn in Hlen. injection Hlen as <-. lia.
Qed.

Lemma clover_actions_theme (s : Clover.AppState) (n : Z) :
  0 < n -> JS.length (Clover.actions s) = JS.Int n ->
  exists t, Clover.theme s = Some t.
Proof.
  intros Hn Hlen. unfold Clover.actions in Hlen.
  destruct (Clover.theme s); [eauto |].
  cbn in Hlen. injection Hlen as <-. lia.
Qed.

Lemma clover_themes_theme (s : Clover.AppState) (n : Z) :
  0 < n -> JS.length (Clover.themes s) = JS.Int n ->
  exists t, Clover.theme s = Some t.
Proof.
  intros Hn Hlen. unfold Clover.theme.
  destruct (find _ (Clover.themes s)); [cbn; eauto |].
  destruct (Clover.themes s) as [| t rest]; [| cbn; eauto].
  cbn in Hlen. injection Hlen as <-. lia.
Qed.

Section CloverRows.

Variables (i n : Z).
Hypothesis Hn : 0 < n.
Hypothesis Hi : 0 <= i < n.

Lemma clover_entries_row_wraps (s : Clover.AppState) :
  Clover.location s = None ->
  Clover.showOptions s = false ->
  Clover.activeRow s = Clover.entries_row ->
  JS.length (Clover.entries s) = JS.Int n ->
  Clover.selectedIndex s = JS.Int i ->
  Clover.selectedIndex (Clover.step s (Clover.KeyDown ArrowLeft))
    = JS.Int (newIndex i n Previous)
  /\ Clover.selectedIndex (Clover.step s (Clover.KeyDown ArrowRight))
    = JS.Int (newIndex i n Next).
Proof.
  intros Hloc Hopt Hrow Hlen Hsel.
  destruct (clover_entries_theme s n Hn Hlen) as [t Ht].
  split.
  - destruct (clover_step_same_theme s (Clover.KeyDown ArrowLeft) Hloc) as [st ->];
      cbn [Clover.handle]; rewrite Ht; unfold Clover.handleKey;
      rewrite Hopt, Hrow; try reflexivity.
    cbn. rewrite Hsel, Hlen. now apply rem_previous.
  - destruct (clover_step_same_theme s (Clover.KeyDown ArrowRight) Hloc) as [st ->];
      cbn [Clover.handle]; rewrite Ht; unfold Clover.handleKey;
      rewrite Hopt, Hrow; try reflexivity.
    cbn. rewrite Hsel, Hlen. now apply rem_next.
Qed.

Lemma clover_actions_row_wraps (s : Clover.AppState) :
  Clover.location s = None ->
  Clover.showOptions s = false ->
  Clover.activeRow s = Clover.actions_row ->
  JS.length (Clover.actions s) = JS.Int n ->
  Clover.actionIndex s = JS.Int i ->
  Clover.actionIndex (Clover.step s (Clover.KeyDown ArrowLeft))
    = JS.Int (newIndex i n Previous)
  /\ Clover.actionIndex (Clover.step s (Clover.KeyDown ArrowRight))
    = JS.Int (newIndex i n Next).
Proof.
  intros Hloc Hopt Hrow Hlen Hsel.
  destruct (clover_actions_theme s n Hn Hlen) as [t Ht].
  split.
  - destruct (clover_step_same_theme s (Clover.KeyDown ArrowLeft) Hloc) as [st ->];
      cbn [Clover.handle]; rewrite Ht; unfold Clover.handleKey;
      rewrite Hopt, Hrow; try reflexivity.
    cbn. rewrite Hsel, Hlen. now apply rem_previous.
  - destruct (clover_step_same_theme s (Clover.KeyDown ArrowRight) Hloc) as [st ->];
      cbn [Clover.handle]; rewrite Ht; unfold Clover.handleKey;
      rewrite Hopt, Hrow; try reflexivity.
    cbn. rewrite Hsel, Hlen. now apply rem_next.
Qed.

Lemma clover_options_list_wraps (s : Clover.AppState) :
  Clover.location s = None ->
  Clover.showOptions s = true ->
  JS.length (Clover.themes s) = JS.Int n ->
  Clover.optionIndex s = JS.Int i ->
  Clover.optionIndex (Clover.step s (Clover.KeyDown ArrowUp))
    = JS.Int (newIndex i n Previous)
  /\ Clover.optionIndex (Clover.step s (Clover.KeyDown ArrowDown))
    = JS.Int (newIndex i n Next).
Proof.
  intros Hloc Hopt Hlen Hsel.
  destruct (clover_themes_theme s n Hn Hlen) as [t Ht].
  split.
  - destruct (clover_step_same_theme s (Clover.KeyDown ArrowUp) Hloc) as [st ->];
      cbn [Clover.handle]; rewrite Ht; unfold Clover.handleKey;
      rewrite Hopt; try reflexivity.
    cbn. rewrite Hsel, Hlen. now apply rem_previous.
  - destruct (clover_step_same_theme s (Clover.KeyDown ArrowDown) Hloc) as [st ->];
      cbn [Clover.handle]; rewrite Ht; unfold Clover.handleKey;
      rewrite Hopt; try reflexivity.
    cbn. rewrite Hsel, Hlen. now apply rem_next.
Qed.

End CloverRows.

(** ** The static-table picker: what a commit can change *)

Lemma legacy_set_status_same (s : Legacy.AppState) :
  Legacy.set_status (Legacy.status s) s = s.
Proof. destruct s; reflexivity. Qed.

Lemma legacy_row_eqb_refl (r : Legacy.Row) : Legacy.Row_eqb r r = true.
Proof. destruct r; reflexivity. Qed.

Lemma legacy_themeId_eqb_refl (t : Legacy.ThemeId) : Legacy.ThemeId_eqb t t = true.
Proof. destruct t; reflexivity. Qed.

(** Every theme of the table has two entries and six actions. *)
Lemma legacy_rows (s : Legacy.AppState) :
  List.length (Legacy.entries s) = 2%nat /\ List.length (Legacy.actions s) = 6%nat.
Proof.
  unfold Legacy.entries, Legacy.actions, Legacy.theme.
  destruct (Legacy.themeId s); cbn; split; reflexivity.
Qed.

Lemma legacy_first_entry (s : Legacy.AppState) (sel : JS.number) :
  exists e,
    JS.nullish (JS.at_index (Legacy.entries s) sel)
               (JS.at_index (Legacy.entries s) (JS.Int 0)) = Some e.
Proof.
  destruct (JS.at_index (Legacy.entries s) sel) as [e |]; [cbn; eauto |].
  destruct (at_index_in_range (Legacy.entries s) 0) as [e He].
  - destruct (legacy_rows s) as [-> _]. lia.
  - exists e. exact He.
Qed.

Lemma legacy_runEffects_status (prev cur : Legacy.AppState) :
  Legacy.themeId prev = Legacy.themeId cur ->
  exists st, Legacy.runEffects prev cur = Legacy.set_status st cur.
Proof.
  intros Hid. unfold Legacy.runEffects.
  rewrite Hid, legacy_themeId_eqb_refl. cbn [negb].
  destruct (_ || _).
  - unfold Legacy.statusEffect.
    destruct (Legacy.activeRow cur);
      [| exists (Legacy.status cur); now rewrite legacy_set_status_same].
    destruct (legacy_first_entry cur (Legacy.selectedIndex cur)) as [e ->]. eauto.
  - exists (Legacy.status cur); now rewrite legacy_set_status_same.
Qed.

Lemma legacy_runEffects_idle (prev cur : Legacy.AppState) :
  Legacy.themeId prev = Legacy.themeId cur ->
  Legacy.selectedIndex prev = Legacy.selectedIndex cur ->
  Legacy.activeRow prev = Legacy.activeRow cur ->
  Legacy.runEffects prev cur = cur.
Proof.
  intros Hid Hsel Hrow. unfold Legacy.runEffects.
  now rewrite Hid, Hsel, Hrow, legacy_themeId_eqb_refl, number_eqb_refl,
    legacy_row_eqb_refl.
Qed.

Lemma legacy_step_same_theme (s : Legacy.AppState) (ev : Legacy.Event) :
  Legacy.themeId (Legacy.handle ev s) = Legacy.themeId s ->
  exists st, Legacy.step s ev = Legacy.set_status st (Legacy.handle ev s).
Proof.
  intros Hid. unfold Legacy.step, Legacy.commit.
  destruct (legacy_runEffects_status s (Legacy.handle ev s)) as [st ->];
    [now rewrite Hid |].
  rewrite legacy_runEffects_idle by reflexivity. eauto.
Qed.

Lemma legacy_commit_quiescent (prev next : Legacy.AppState) :
  Legacy.runEffects (Legacy.runEffects prev next) (Legacy.commit prev next)
  = Legacy.commit prev next.
Proof.
  unfold Legacy.commit.
  set (s1 := Legacy.runEffects prev next).
  assert (Hid : Legacy.themeId next = Legacy.themeId s1).
  { subst s1. unfold Legacy.runEffects, Legacy.resetEffect, Legacy.statusEffect.
    repeat match goal with
           | |- context [if ?b then _ else _] => destruct b
           | |- context [match ?x with _ => _ end] => destruct x
           end; reflexivity. }
  destruct (legacy_runEffects_status next s1 Hid) as [st ->].
  now apply legacy_runEffects_idle.
Qed.

Section OtherRows.

Variables (i n : Z).
Hypothesis Hn : 0 < n.
Hypothesis Hi : 0 <= i < n.

Lemma legacy_entries_row_wraps (s : Legacy.AppState) :
  Legacy.activeRow s = Legacy.entries_row ->
  JS.length (Legacy.entries s) = JS.Int n ->
  Legacy.selectedIndex s = JS.Int i ->
  Legacy.selectedIndex (Legacy.step s (Legacy.KeyDown ArrowLeft))
    = JS.Int (newIndex i n Previous)
  /\ Legacy.selectedIndex (Legacy.step s (Legacy.KeyDown ArrowRight))
    = JS.Int (newIndex i n Next).
Proof.
  intros Hrow Hlen Hsel. split.
  - destruct (legacy_step_same_theme s (Legacy.KeyDown ArrowLeft)) as [st ->];
      cbn [Legacy.handle Legacy.handleKey]; rewrite Hrow; try reflexivity.
    cbn. rewrite Hsel, Hlen. now apply rem_delta_previous.
  - destruct (legacy_step_same_theme s (Legacy.KeyDown ArrowRight)) as [st ->];
      cbn [Legacy.handle Legacy.handleKey]; rewrite Hrow; try reflexivity.
    cbn. rewrite Hsel, Hlen. now apply rem_delta_next.
Qed.

Lemma legacy_actions_row_wraps (s : Legacy.AppState) :
  Legacy.activeRow s = Legacy.actions_row ->
  JS.length (Legacy.actions s) = JS.Int n ->
  Legacy.actionIndex s = JS.Int i ->
  Legacy.actionIndex (Legacy.step s (Legacy.KeyDown ArrowLeft))
    = JS.Int (newIndex i n Previous)
  /\ Legacy.actionIndex (Legacy.step s (Legacy.KeyDown ArrowRight))
    = JS.Int (newIndex i n Next).
Proof.
  intros Hrow Hlen Hsel. split.
  - destruct (legacy_step_same_theme s (Legacy.KeyDown ArrowLeft)) as [st ->];
      cbn [Legacy.handle Legacy.handleKey]; rewrite Hrow; try reflexivity.
    cbn. rewrite Hsel, Hlen. now apply rem_delta_previous.
  - destruct (legacy_step_same_theme s (Legacy.KeyDown ArrowRight)) as [st ->];
      cbn [Legacy.handle Legacy.handleKey]; rewrite Hrow; try reflexivity.
    cbn. rewrite Hsel, Hlen. now apply rem_delta_next.
Qed.

Lemma xp_bootloader_list_wraps (p : XP.Props) (s : XP.ScreenState) :
  XP.mounted s = true ->
  XP.phase s = XP.bootloader ->
  JS.length XP.bootOptions = JS.Int n ->
  XP.bootloaderIndex s = JS.Int i ->
  XP.bootloaderIndex (XP.step p s (XP.KeyDown ArrowUp))
    = JS.Int (newIndex i n Previous)
  /\ XP.bootloaderIndex (XP.step p s (XP.KeyDown ArrowDown))
    = JS.Int (newIndex i n Next).
Proof.
  intros Hm Hph Hlen Hsel.
  unfold XP.step, XP.handle, XP.handleKeyDown. rewrite Hm, Hph, Hsel, Hlen.
  cbn [XP.mounted XP.set_bootloaderIndex].
  rewrite Hm. unfold XP.commit. cbn [XP.phase XP.set_bootloaderIndex].
  rewrite Hph. cbn [XP.BootPhase_eqb XP.bootloaderIndex].
  split; [now apply rem_previous | now apply rem_next].
Qed.

End OtherRows.

(** ** C1: arrow keys move the selection index modulo the row length *)

(** C1.  On a row of length [n > 0] with the selection at an in-bounds
    position [i], the arrow key toward the previous item takes the index to
    [(i - 1 + n) mod n] and the one toward the next item to [(i + 1) mod n],
    wrapping at both ends.  This holds for the entries and actions rows of
    the picker (Left/Right, both versions of the picker), for the list of
    the options modal (Up/Down) and for the option list of the XP bootloader
    (Up/Down); [newIndex] is the spec's [(index, length, key) -> newIndex]. *)
Theorem arrow_keys_wrap (i n : Z) :
  0 < n -> 0 <= i < n ->
  (forall s,
      Clover.location s = None -> Clover.showOptions s = false ->
      Clover.activeRow s = Clover.entries_row ->
      JS.length (Clover.entries s) = JS.Int n -> Clover.selectedIndex s = JS.Int i ->
      Clover.selectedIndex (Clover.step s (Clover.KeyDown ArrowLeft))
        = JS.Int (newIndex i n Previous)
      /\ Clover.selectedIndex (Clover.step s (Clover.KeyDown ArrowRight))
        = JS.Int (newIndex i n Next))
  /\ (forall s,
      Clover.location s = None -> Clover.showOptions s = false ->
      Clover.activeRow s = Clover.actions_row ->
      JS.length (Clover.actions s) = JS.Int n -> Clover.actionIndex s = JS.Int i ->
      Clover.actionIndex (Clover.step s (Clover.KeyDown ArrowLeft))
        = JS.Int (newIndex i n Previous)
      /\ Clover.actionIndex (Clover.step s (Clover.KeyDown ArrowRight))
        = JS.Int (newIndex i n Next))
  /\ (forall s,
      Clover.location s = None -> Clover.showOptions s = true ->
      JS.length (Clover.themes s) = JS.Int n -> Clover.optionIndex s = JS.Int i ->
      Clover.optionIndex (Clover.step s (Clover.KeyDown ArrowUp))
        = JS.Int (newIndex i n Previous)
      /\ Clover.optionIndex (Clover.step s (Clover.KeyDown ArrowDown))
        = JS.Int (newIndex i n Next))
  /\ (forall p s,
      XP.mounted s = true -> XP.phase s = XP.bootloader ->
      JS.length XP.bootOptions = JS.Int n -> XP.bootloaderIndex s = JS.Int i ->
      XP.bootloaderIndex (XP.step p s (XP.KeyDown ArrowUp))
        = JS.Int (newIndex i n Previous)
      /\ XP.bootloaderIndex (XP.step p s (XP.KeyDown ArrowDown))
        = JS.Int (newIndex i n Next))
  /\ (forall s,
      Legacy.activeRow s = Legacy.entries_row ->
      JS.length (Legacy.entries s) = JS.Int n -> Legacy.selectedIndex s = JS.Int i ->
      Legacy.selectedIndex (Legacy.step s (Legacy.KeyDown ArrowLeft))
        = JS.Int (newIndex i n Previous)
      /\ Legacy.selectedIndex (Legacy.step s (Legacy.KeyDown ArrowRight))
        = JS.Int (newIndex i n Next))
  /\ (forall s,
      Legacy.activeRow s = Legacy.actions_row ->
      JS.length (Legacy.actions s) = JS.Int n -> Legacy.actionIndex s = JS.Int i ->
      Legacy.actionIndex (Legacy.step s (Legacy.KeyDown ArrowLeft))
        = JS.Int (newIndex i n Previous)
      /\ Legacy.actionIndex (Legacy.step s (Legacy.KeyDown ArrowRight))
        = JS.Int (newIndex i n Next))
  /\ 0 <= newIndex i n Previous < n
  /\ 0 <= newIndex i n Next < n
  /\ newIndex 0 n Previous = n - 1
  /\ newIndex (n - 1) n Next = 0.
Proof.
  intros Hn Hi.
  split; [intros s; now apply clover_entries_row_wraps |].
  split; [intros s; now apply clover_actions_row_wraps |].
  split; [intros s; now apply clover_options_list_wraps |].
  split; [intros p s; now apply xp_bootloader_list_wraps |].
  split; [intros s; now apply legacy_entries_row_wraps |].
  split; [intros s; now apply legacy_actions_row_wraps |].
  split; [now apply newIndex_in_range |].
  split; [now apply newIndex_in_range |].
  cbn [newIndex]. split.
  - replace (0 - 1 + n) with (n - 1) by lia. apply Z.mod_small. lia.
  - replace (n - 1 + 1) with n by lia. apply Z.mod_same. lia.
Qed.

(** The theorem at work: from the first entry, Left wraps to the last one;
    in the modal, Up wraps from the first theme to the last; in the XP
    bootloader, Down moves from the first option to the second; from the
    first action of the static table, Left wraps to the sixth. *)
Lemma arrow_keys_wrap_witness :
  Clover.selectedIndex (Clover.step demoState (Clover.KeyDown ArrowLeft))
    = JS.Int (newIndex 0 2 Previous)
  /\ Clover.optionIndex (Clover.step demoOptions (Clover.KeyDown ArrowUp))
    = JS.Int (newIndex 0 2 Previous)
  /\ XP.bootloaderIndex (XP.step XP.defaultProps demoBootloader (XP.KeyDown ArrowDown))
    = JS.Int (newIndex 0 3 Next)
  /\ Legacy.actionIndex (Legacy.step demoActionsRow (Legacy.KeyDown ArrowLeft))
    = JS.Int (newIndex 0 6 Previous).
Proof.
  split; [| split; [| split]].
  - destruct (arrow_keys_wrap 0 2) as (H & _); [lia | lia |].
    refine (proj1 (H demoState _ _ _ _ _)); vm_compute; reflexivity.
  - destruct (arrow_keys_wrap 0 2) as (_ & _ & H & _); [lia | lia |].
    refine (proj1 (H demoOptions _ _ _ _)); vm_compute; reflexivity.
  - destruct (arrow_keys_wrap 0 3) as (_ & _ & _ & H & _); [lia | lia |].
    refine (proj2 (H XP.defaultProps demoBootloader _ _ _ _)); vm_compute; reflexivity.
  - destruct (arrow_keys_wrap 0 6) as (_ & _ & _ & _ & _ & H & _); [lia | lia |].
    refine (proj1 (H demoActionsRow _ _ _)); vm_compute; reflexivity.
Defined.

(** ** C2: which arrow keys move the selection and which switch rows *)

Lemma clover_active_theme (s : Clover.AppState) (n : Z) :
  0 < n -> cloverActiveLength s = JS.Int n -> exists t, Clover.theme s = Some t.
Proof.
  unfold cloverActiveLength. intros Hn Hlen.
  destruct (Clover.activeRow s);
    [eapply clover_entries_theme | eapply clover_actions_theme]; eassumption.
Qed.

Lemma clover_left_right (i n : Z) (s : Clover.AppState) :
  0 < n -> 0 <= i < n ->
  Clover.location s = None -> Clover.showOptions s = false ->
  cloverActiveLength s = JS.Int n -> cloverActiveIndex s = JS.Int i ->
  forall (key : Key) (d : Direction),
    (key = ArrowLeft /\ d = Previous) \/ (key = ArrowRight /\ d = Next) ->
    let s' := Clover.step s (Clover.KeyDown key) in
    Clover.activeRow s' = Clover.activeRow s
    /\ cloverActiveIndex s' = JS.Int (newIndex i n d)
    /\ cloverOtherIndex s' = cloverOtherIndex s.
Proof.
  intros Hn Hi Hloc Hopt Hlen Hsel key d Hkey s'. subst s'.
  destruct (clover_active_theme s n Hn Hlen) as [t Ht].
  unfold cloverActiveIndex, cloverActiveLength, cloverOtherIndex in *.
  destruct Hkey as [[-> ->] | [-> ->]].
  - destruct (clover_step_same_theme s (Clover.KeyDown ArrowLeft) Hloc) as [st ->];
      cbn [Clover.handle]; rewrite Ht; unfold Clover.handleKey; rewrite Hopt;
      destruct (Clover.activeRow s) eqn:Hrow; try reflexivity;
      cbn; rewrite Hrow, Hsel, Hlen; repeat split; now apply rem_previous.
  - destruct (clover_step_same_theme s (Clover.KeyDown ArrowRight) Hloc) as [st ->];
      cbn [Clover.handle]; rewrite Ht; unfold Clover.handleKey; rewrite Hopt;
      destruct (Clover.activeRow s) eqn:Hrow; try reflexivity;
      cbn; rewrite Hrow, Hsel, Hlen; repeat split; now apply rem_next.
Qed.

Lemma clover_up_down (s : Clover.AppState) :
  Clover.location s = None -> Clover.theme s <> None -> Clover.showOptions s = false ->
  forall (key : Key) (row : Clover.Row),
    (key = ArrowUp /\ row = Clover.entries_row)
    \/ (key = ArrowDown /\ row = Clover.actions_row) ->
    let s' := Clover.step s (Clover.KeyDown key) in
    Clover.activeRow s' = row
    /\ Clover.selectedIndex s' = Clover.selectedIndex s
    /\ Clover.actionIndex s' = Clover.actionIndex s.
Proof.
  intros Hloc Ht Hopt key row Hkey s'. subst s'.
  destruct (Clover.theme s) as [t |] eqn:Eth; [clear Ht | congruence].
  destruct Hkey as [[-> ->] | [-> ->]].
  - destruct (clover_step_same_theme s (Clover.KeyDown ArrowUp) Hloc) as [st ->];
      cbn [Clover.handle]; rewrite Eth; unfold Clover.handleKey; rewrite Hopt;
      destruct (JS.at_index (Clover.entries s) (Clover.selectedIndex s));
      try reflexivity; cbn; auto.
  - destruct (clover_step_same_theme s (Clover.KeyDown ArrowDown) Hloc) as [st ->];
      cbn [Clover.handle]; rewrite Eth; unfold Clover.handleKey; rewrite Hopt;
      destruct (JS.at_index (Clover.actions s) (Clover.actionIndex s));
      try reflexivity; cbn; auto.
Qed.

Lemma legacy_left_right (i n : Z) (s : Legacy.AppState) :
  0 < n -> 0 <= i < n ->
  legacyActiveLength s = JS.Int n -> legacyActiveIndex s = JS.Int i ->
  forall (key : Key) (d : Direction),
    (key = ArrowLeft /\ d = Previous) \/ (key = ArrowRight /\ d = Next) ->
    let s' := Legacy.step s (Legacy.KeyDown key) in
    Legacy.activeRow s' = Legacy.activeRow s
    /\ legacyActiveIndex s' = JS.Int (newIndex i n d)
    /\ legacyOtherIndex s' = legacyOtherIndex s.
Proof.
  intros Hn Hi Hlen Hsel key d Hkey s'. subst s'.
  unfold legacyActiveIndex, legacyActiveLength, legacyOtherIndex in *.
  destruct Hkey as [[-> ->] | [-> ->]].
  - destruct (legacy_step_same_theme s (Legacy.KeyDown ArrowLeft)) as [st ->];
      cbn [Legacy.handle Legacy.handleKey];
      destruct (Legacy.activeRow s) eqn:Hrow; try reflexivity;
      cbn; rewrite Hrow, Hsel, Hlen; repeat split; now apply rem_delta_previous.
  - destruct (legacy_step_same_theme s (Legacy.KeyDown ArrowRight)) as [st ->];
      cbn [Legacy.handle Legacy.handleKey];
      destruct (Legacy.activeRow s) eqn:Hrow; try reflexivity;
      cbn; rewrite Hrow, Hsel, Hlen; repeat split; now apply rem_delta_next.
Qed.

Lemma legacy_up_down (s : Legacy.AppState) :
  forall (key : Key) (row : Legacy.Row),
    (key = ArrowUp /\ row = Legacy.entries_row)
    \/ (key = ArrowDown /\ row = Legacy.actions_row) ->
    let s' := Legacy.step s (Legacy.KeyDown key) in
    Legacy.activeRow s' = row
    /\ Legacy.selectedIndex s' = Legacy.selectedIndex s
    /\ Legacy.actionIndex s' = Legacy.actionIndex s.
Proof.
  intros key row Hkey s'. subst s'.
  destruct Hkey as [[-> ->] | [-> ->]].
  - destruct (legacy_step_same_theme s (Legacy.KeyDown ArrowUp)) as [st ->];
      cbn [Legacy.handle Legacy.handleKey];
      destruct (JS.at_index (Legacy.entries s) (Legacy.selectedIndex s));
      try reflexivity; cbn; auto.
  - destruct (legacy_step_same_theme s (Legacy.KeyDown ArrowDown)) as [st ->];
      cbn [Legacy.handle Legacy.handleKey];
      destruct (JS.at_index (Legacy.actions s) (Legacy.actionIndex s));
      try reflexivity; cbn; auto.
Qed.

(** C2, as amended.  With the options modal closed and the selection of the
    active row at an in-bounds position, Left and Right move the selection
    within the active row with wraparound and change neither the active row
    nor the index of the other row; Up and Down move no selection: Up makes
    the entries row the active one, Down the actions row.  Both versions of
    the picker behave so. *)
Theorem left_right_move_up_down_switch (i n : Z) :
  0 < n -> 0 <= i < n ->
  (forall s,
      Clover.location s = None -> Clover.showOptions s = false ->
      cloverActiveLength s = JS.Int n -> cloverActiveIndex s = JS.Int i ->
      let left := Clover.step s (Clover.KeyDown ArrowLeft) in
      let right := Clover.step s (Clover.KeyDown ArrowRight) in
      let up := Clover.step s (Clover.KeyDown ArrowUp) in
      let down := Clover.step s (Clover.KeyDown ArrowDown) in
      (Clover.activeRow left = Clover.activeRow s
       /\ cloverActiveIndex left = JS.Int (newIndex i n Previous)
       /\ cloverOtherIndex left = cloverOtherIndex s)
      /\ (Clover.activeRow right = Clover.activeRow s
          /\ cloverActiveIndex right = JS.Int (newIndex i n Next)
          /\ cloverOtherIndex right = cloverOtherIndex s)
      /\ (Clover.activeRow up = Clover.entries_row
          /\ Clover.selectedIndex up = Clover.selectedIndex s
          /\ Clover.actionIndex up = Clover.actionIndex s)
      /\ (Clover.activeRow down = Clover.actions_row
          /\ Clover.selectedIndex down = Clover.selectedIndex s
          /\ Clover.actionIndex down = Clover.actionIndex s))
  /\ (forall s,
      legacyActiveLength s = JS.Int n -> legacyActiveIndex s = JS.Int i ->
      let left := Legacy.step s (Legacy.KeyDown ArrowLeft) in
      let right := Legacy.step s (Legacy.KeyDown ArrowRight) in
      let up := Legacy.step s (Legacy.KeyDown ArrowUp) in
      let down := Legacy.step s (Legacy.KeyDown ArrowDown) in
      (Legacy.activeRow left = Legacy.activeRow s
       /\ legacyActiveIndex left = JS.Int (newIndex i n Previous)
       /\ legacyOtherIndex left = legacyOtherIndex s)
      /\ (Legacy.activeRow right = Legacy.activeRow s
          /\ legacyActiveIndex right = JS.Int (newIndex i n Next)
          /\ legacyOtherIndex right = legacyOtherIndex s)
      /\ (Legacy.activeRow up = Legacy.entries_row
          /\ Legacy.selectedIndex up = Legacy.selectedIndex s
          /\ Legacy.actionIndex up = Legacy.actionIndex s)
      /\ (Legacy.activeRow down = Legacy.actions_row
          /\ Legacy.selectedIndex down = Legacy.selectedIndex s
          /\ Legacy.actionIndex down = Legacy.actionIndex s)).
Proof.
  intros Hn Hi. split.
  - intros s Hloc Hopt Hlen Hsel left right up down.
    assert (Ht : Clover.theme s <> None).
    { destruct (clover_active_theme s n Hn Hlen) as [t ->]. discriminate. }
    split; [| split; [| split]].
    + apply (clover_left_right i n s Hn Hi Hloc Hopt Hlen Hsel ArrowLeft Previous); auto.
    + apply (clover_left_right i n s Hn Hi Hloc Hopt Hlen Hsel ArrowRight Next); auto.
    + apply (clover_up_down s Hloc Ht Hopt ArrowUp); auto.
    + apply (clover_up_down s Hloc Ht Hopt ArrowDown); auto.
  - intros s Hlen Hsel left right up down.
    split; [| split; [| split]].
    + apply (legacy_left_right i n s Hn Hi Hlen Hsel ArrowLeft Previous); auto.
    + apply (legacy_left_right i n s Hn Hi Hlen Hsel ArrowRight Next); auto.
    + apply (legacy_up_down s ArrowUp); auto.
    + apply (legacy_up_down s ArrowDown); auto.
Qed.

(** On the loaded picker, Right moves the entry selection from 0 to 1 and
    stays on the entries row. *)
Lemma left_right_move_up_down_switch_witness :
  Clover.activeRow (Clover.step demoState (Clover.KeyDown ArrowRight))
    = Clover.activeRow demoState
  /\ cloverActiveIndex (Clover.step demoState (Clover.KeyDown ArrowRight))
    = JS.Int (newIndex 0 2 Next)
  /\ cloverOtherIndex (Clover.step demoState (Clover.KeyDown ArrowRight))
    = cloverOtherIndex demoState.
Proof.
  destruct (left_right_move_up_down_switch 0 2) as (H & _); [lia | lia |].
  refine (proj1 (proj2 (H demoState _ _ _ _))); vm_compute; reflexivity.
Defined.

(** C2 as stated fails: with the entries row active and the modal closed,
    Down does not move the selection within the entries row; it makes the
    actions row the active one.  The static-table picker does the same. *)
Lemma arrow_down_switches_row :
  Clover.showOptions demoState = false
  /\ Clover.activeRow demoState = Clover.entries_row
  /\ Clover.activeRow (Clover.step demoState (Clover.KeyDown ArrowDown))
     <> Clover.activeRow demoState
  /\ Clover.selectedIndex (Clover.step demoState (Clover.KeyDown ArrowDown))
     = Clover.selectedIndex demoState
  /\ Legacy.activeRow Legacy.start = Legacy.entries_row
  /\ Legacy.activeRow (Legacy.step Legacy.start (Legacy.KeyDown ArrowDown))
     <> Legacy.activeRow Legacy.start
  /\ Legacy.selectedIndex (Legacy.step Legacy.start (Legacy.KeyDown ArrowDown))
     = Legacy.selectedIndex Legacy.start.
Proof.
  vm_compute. repeat split; discriminate.
Qed.

(** ** C3: the phase of the XP simulation only moves forward *)

Lemma In_remove_timer (t x : XP.Timer) (l : list XP.Timer) :
  In x (XP.remove_timer t l) -> In x l.
Proof.
  induction l as [| y l IH]; cbn; [tauto |].
  destruct (XP.Timer_eqb t y); cbn; tauto.
Qed.

Lemma Timer_eqb_effect (t x : XP.Timer) :
  XP.Timer_eqb t x = true -> XP.ofEffect t = true -> x = t.
Proof. destruct t, x; cbn; congruence. Qed.

Lemma pending_effect_In (t : XP.Timer) (s : XP.ScreenState) :
  XP.pending t s = true -> XP.ofEffect t = true -> In t (XP.timers s).
Proof.
  unfold XP.pending. intros Hp He.
  apply existsb_exists in Hp as (x & Hx & Heq).
  now rewrite <- (Timer_eqb_effect t x Heq He).
Qed.

Lemma pending_effect_phase (t : XP.Timer) (s : XP.ScreenState) :
  timers_fit s -> XP.pending t s = true -> XP.ofEffect t = true ->
  XP.mounted s = true /\ timer_fits (XP.phase s) t = true.
Proof.
  intros Hfit Hp He. apply Hfit; [now apply pending_effect_In | exact He].
Qed.

(** A commit leaves the phase alone. *)
Lemma xp_commit_phase (prev next : XP.ScreenState) :
  XP.phase (XP.commit prev next) = XP.phase next.
Proof.
  unfold XP.commit, XP.setupEffects.
  destruct (XP.BootPhase_eqb _ _); [reflexivity |].
  destruct next as [ph ? ? ? ? ? ? ? ? ?]; destruct ph; reflexivity.
Qed.

Lemma xp_step_phase (p : XP.Props) (s : XP.ScreenState) (ev : XP.Event) :
  XP.phase (XP.step p s ev) = XP.phase (XP.handle p ev s).
Proof.
  unfold XP.step. destruct (XP.mounted _); [apply xp_commit_phase | reflexivity].
Qed.

(** After a change of phase only the timers of the new phase's effect and
    the login timeouts are pending. *)
Lemma xp_rerun_fits (next : XP.ScreenState) :
  XP.mounted next = true ->
  timers_fit (XP.setupEffects next (XP.cleanupEffects next)).
Proof.
  intros Hm t. unfold XP.setupEffects, XP.cleanupEffects, XP.schedule.
  destruct next as [ph su lu mc pl bi cd ts m cs]. cbn in Hm. subst m.
  destruct ph; cbn; rewrite ?in_app_iff, filter_In; cbn;
    intros Hin He; split; try reflexivity;
    repeat match goal with
           | H : _ \/ _ |- _ => destruct H
           | H : _ /\ _ |- _ => destruct H
           | H : False |- _ => destruct H
           end; subst; try reflexivity;
    match goal with
    | H : negb (XP.ofEffect ?t) = true |- _ => rewrite He in H; discriminate
    end.
Qed.

Lemma xp_commit_fits (prev next : XP.ScreenState) :
  XP.mounted next = true ->
  (XP.phase prev = XP.phase next -> timers_fit next) ->
  timers_fit (XP.commit prev next).
Proof.
  intros Hm Hsame. unfold XP.commit.
  destruct (XP.BootPhase_eqb (XP.phase prev) (XP.phase next)) eqn:E.
  - apply Hsame. destruct (XP.phase prev), (XP.phase next); cbn in E; congruence.
  - now apply xp_rerun_fits.
Qed.

Ltac xp_split_matches :=
  repeat match goal with
         | |- context [match ?x with _ => _ end] => destruct x eqn:?
         end.

(** A handler starts no effect timer and, unless it unmounts the component
    (which clears them all), leaves [mounted] as it is. *)
Lemma xp_handle_effect_timers (p : XP.Props) (ev : XP.Event) (s : XP.ScreenState)
  (t : XP.Timer) :
  In t (XP.timers (XP.handle p ev s)) -> XP.ofEffect t = true ->
  In t (XP.timers s) /\ XP.mounted (XP.handle p ev s) = XP.mounted s.
Proof.
  destruct s as [ph su lu mc pl bi cd ts m cs].
  unfold XP.handle, XP.fire, XP.pending, XP.memoryTick, XP.addLines, XP.countdownTick,
    XP.loginDone, XP.handleKeyDown, XP.clickBootOption, XP.clickUser, XP.clickExit,
    XP.handleUserClick, XP.handleLogin, XP.callOnExit, XP.unmount, XP.cleanupEffects,
    XP.clear, XP.schedule.
  cbn [XP.phase XP.selectedUser XP.timers XP.mounted XP.countdown XP.calls
       XP.set_phase XP.set_selectedUser XP.set_loggingInUser XP.set_memoryCount
       XP.set_postLines XP.set_bootloaderIndex XP.set_countdown XP.set_timers
       XP.set_mounted XP.set_calls].
  intros Hin He. revert Hin. xp_split_matches;
    cbn [XP.phase XP.selectedUser XP.timers XP.mounted XP.countdown XP.calls
         XP.set_phase XP.set_selectedUser XP.set_loggingInUser XP.set_memoryCount
         XP.set_postLines XP.set_bootloaderIndex XP.set_countdown XP.set_timers
         XP.set_mounted XP.set_calls];
    rewrite ?in_app_iff, ?filter_In; cbn [In]; intros Hin;
    try (split; [assumption | reflexivity]);
    try (split; [eapply In_remove_timer; eassumption | reflexivity]);
    repeat match goal with
           | H : _ \/ _ |- _ => destruct H
           | H : _ /\ _ |- _ => destruct H
           | H : False |- _ => destruct H
           end; subst;
    try (split; [assumption | reflexivity]);
    try (split; [eapply In_remove_timer; eassumption | reflexivity]);
    try (cbn in He; discriminate);
    try (rewrite He in *; discriminate).
Qed.

Lemma xp_fire_forward (p : XP.Props) (t : XP.Timer) (s : XP.ScreenState) :
  timers_fit s ->
  (phaseRank (XP.phase s) <= phaseRank (XP.phase (XP.fire p t s)))%nat.
Proof.
  intros Hfit. unfold XP.fire.
  destruct (XP.pending t s) eqn:Hp; [| lia].
  destruct t.
  - lia.
  - unfold XP.addLines, XP.clear. destruct s; cbn. lia.
  - destruct (pending_effect_phase _ s Hfit Hp eq_refl) as [_ Hph].
    destruct s as [ph ? ? ? ? ? ? ? ? ?]; destruct ph; cbn in *; (discriminate || lia).
  - destruct (pending_effect_phase _ s Hfit Hp eq_refl) as [_ Hph].
    unfold XP.countdownTick, XP.clear.
    destruct s as [ph ? ? ? ? ? cd ? ? ?]; destruct ph; cbn in *; try discriminate.
    destruct (cd <=? 1); cbn; lia.
  - destruct (pending_effect_phase _ s Hfit Hp eq_refl) as [_ Hph].
    destruct s as [ph ? ? ? ? ? ? ? ? ?]; destruct ph; cbn in *; (discriminate || lia).
  - unfold XP.loginDone, XP.clear.
    destruct s as [ph ? ? ? ? ? ? ? m ?]; destruct m, (XP.onLogin p), ph; cbn; lia.
Qed.

(** No handler takes the phase backward. *)
Lemma xp_handle_forward (p : XP.Props) (ev : XP.Event) (s : XP.ScreenState) :
  timers_fit s ->
  (phaseRank (XP.phase s) <= phaseRank (XP.phase (XP.handle p ev s)))%nat.
Proof.
  intros Hfit.
  destruct ev as [key | index | index | | reached shown | t |];
    try (cbn [XP.handle]; now apply xp_fire_forward).
  - unfold XP.handle, XP.handleKeyDown, XP.handleLogin, XP.callOnExit, XP.schedule.
    destruct s as [ph su ? ? ? ? ? ? m ?]. cbn.
    destruct m, key, ph, su, (XP.onExit p); cbn; lia.
  - unfold XP.handle, XP.clickBootOption.
    destruct s as [ph ? ? ? ? ? ? ? m ?]. cbn.
    destruct m, ph, (nth_error XP.bootOptions index); cbn; lia.
  - unfold XP.handle, XP.clickUser, XP.handleUserClick, XP.handleLogin, XP.schedule.
    destruct s as [ph su ? ? ? ? ? ? m ?]. cbn.
    destruct m, ph, (nth_error (XP.users p) index) as [u |], su as [sel |]; cbn;
      try lia; destruct (String.eqb (XP.User.id sel) (XP.User.id u)); cbn; lia.
  - unfold XP.handle, XP.clickExit, XP.callOnExit.
    destruct s as [ph ? ? ? ? ? ? ? m ?]. cbn.
    destruct m, ph, (XP.onExit p); cbn; lia.
  - unfold XP.handle, XP.pending, XP.memoryTick, XP.clear.
    destruct s as [ph ? ? ? ? ? ? ts ? ?]. cbn.
    destruct (existsb _ ts), reached; cbn; lia.
  - unfold XP.handle, XP.unmount, XP.cleanupEffects.
    destruct s as [ph ? ? ? ? ? ? ? m ?]. cbn. destruct m; cbn; lia.
Qed.

Lemma xp_start_fits : timers_fit XP.start.
Proof.
  intros t Hin _. cbn in Hin.
  repeat (destruct Hin as [<- | Hin]; [split; reflexivity |]). destruct Hin.
Qed.

Lemma xp_handle_fits (p : XP.Props) (ev : XP.Event) (s : XP.ScreenState) :
  timers_fit s ->
  XP.phase s = XP.phase (XP.handle p ev s) \/ XP.mounted (XP.handle p ev s) = false ->
  timers_fit (XP.handle p ev s).
Proof.
  intros Hfit Hcase t Hin He.
  destruct (xp_handle_effect_timers p ev s t Hin He) as [Hold Hm].
  destruct (Hfit t Hold He) as [Hmounted Hph].
  rewrite Hm. destruct Hcase as [<- | Hun]; [now split |].
  rewrite Hm, Hmounted in Hun. discriminate.
Qed.

Lemma xp_step_fits (p : XP.Props) (s : XP.ScreenState) (ev : XP.Event) :
  timers_fit s -> timers_fit (XP.step p s ev).
Proof.
  intros Hfit. unfold XP.step.
  destruct (XP.mounted (XP.handle p ev s)) eqn:Hm.
  - apply xp_commit_fits; [exact Hm |].
    intros Hsame. apply xp_handle_fits; auto.
  - apply xp_handle_fits; auto.
Qed.

Lemma xp_run_snoc (p : XP.Props) (s : XP.ScreenState) (evs : list XP.Event)
  (ev : XP.Event) :
  XP.run p s (evs ++ [ev]) = XP.step p (XP.run p s evs) ev.
Proof. unfold XP.run. now rewrite fold_left_app. Qed.

Lemma xp_run_fits (p : XP.Props) (evs : list XP.Event) :
  timers_fit (XP.run p XP.start evs).
Proof.
  induction evs as [| ev evs IH] using rev_ind.
  - exact xp_start_fits.
  - rewrite xp_run_snoc. now apply xp_step_fits.
Qed.

Lemma phaseRank_injective (a b : XP.BootPhase) :
  phaseRank a = phaseRank b -> a = b.
Proof. destruct a, b; cbn; congruence. Qed.

(** C3, as amended.  The phase only advances through the order post,
    bootloader, boot, login, logging-in, desktop: in every state the
    simulation can reach, whatever happens next (a timer, the countdown
    running out, a key, a click, an unmount) leaves the phase where it is or
    moves it to a later phase of that order, never to an earlier one. *)
Theorem phase_moves_forward (p : XP.Props) (evs : list XP.Event) (ev : XP.Event) :
  let s := XP.run p XP.start evs in
  let s' := XP.step p s ev in
  (forall ph, nth_error phaseOrder (phaseRank ph) = Some ph)
  /\ XP.phase (XP.run p XP.start []) = XP.post
  /\ (phaseRank (XP.phase s) <= phaseRank (XP.phase s'))%nat
  /\ (XP.phase s' = XP.phase s
      \/ (phaseRank (XP.phase s) < phaseRank (XP.phase s'))%nat).
Proof.
  intros s s'.
  assert (Hle : (phaseRank (XP.phase s) <= phaseRank (XP.phase s'))%nat).
  { subst s'. rewrite xp_step_phase. apply xp_handle_forward. apply xp_run_fits. }
  split; [intros ph; destruct ph; reflexivity |].
  split; [reflexivity |].
  split; [exact Hle |].
  destruct (Nat.eq_dec (phaseRank (XP.phase s)) (phaseRank (XP.phase s'))) as [E | N].
  - left. symmetry. now apply phaseRank_injective.
  - right. lia.
Qed.

(** C3 as stated fails: Enter on the login screen with a user selected
    takes the phase from login to logging-in, which is none of the five
    phases the claim lists. *)
Lemma enter_at_login_leaves_named_phases :
  XP.phase demoLogin = XP.login
  /\ XP.phase (XP.step loginProps demoLogin (XP.KeyDown Enter)) = XP.logging_in
  /\ ~ In (XP.phase (XP.step loginProps demoLogin (XP.KeyDown Enter))) namedPhases.
Proof.
  vm_compute. split; [reflexivity |]. split; [reflexivity |].
  intros H. repeat (destruct H as [H | H]; [discriminate |]). exact H.
Qed.

(** ** C4: the timers that are, and the timer that is not, cancelled *)

Lemma Timer_eqb_login (user : XP.User.t) (x : XP.Timer) :
  XP.Timer_eqb (XP.loginTimeout user) x = true -> XP.ofEffect x = false.
Proof. destruct x; cbn; congruence. Qed.

Lemma pending_after_cleanup (t : XP.Timer) (s : XP.ScreenState) :
  XP.pending t (XP.cleanupEffects s) = true -> XP.ofEffect t = false.
Proof.
  unfold XP.pending, XP.cleanupEffects. destruct s; cbn.
  intros H. apply existsb_exists in H as (x & Hx & Heq).
  apply filter_In in Hx as [_ Hx].
  destruct t, x; cbn in *; congruence.
Qed.

Lemma login_pending_after_cleanup (user : XP.User.t) (s : XP.ScreenState) :
  XP.pending (XP.loginTimeout user) s = true ->
  XP.pending (XP.loginTimeout user) (XP.cleanupEffects s) = true.
Proof.
  unfold XP.pending, XP.cleanupEffects. destruct s; cbn.
  intros H. apply existsb_exists in H as (x & Hx & Heq).
  apply existsb_exists. exists x. split; [| exact Heq].
  apply filter_In. split; [exact Hx |].
  now rewrite (Timer_eqb_login user x Heq).
Qed.

(** C4 fails on the code.  Unmounting the XP screen clears the timers of the
    three effects and nothing else: a timeout started by [handleLogin] is
    still pending afterwards, and when it fires on the unmounted component
    it calls the parent's [onLogin]. *)
Theorem login_timeout_outlives_unmount (p : XP.Props) (s : XP.ScreenState)
  (user : XP.User.t) :
  XP.mounted s = true ->
  XP.pending (XP.loginTimeout user) s = true ->
  let s' := XP.step p s XP.Unmount in
  XP.mounted s' = false
  /\ (forall t, XP.pending t s' = true -> XP.ofEffect t = false)
  /\ XP.pending (XP.loginTimeout user) s' = true
  /\ XP.calls (XP.step p s' (XP.TimerFires (XP.loginTimeout user)))
     = XP.calls s' ++ (if XP.onLogin p then [ XP.calledOnLogin user ] else []).
Proof.
  intros Hm Hp s'.
  assert (Es' : s' = XP.set_mounted false (XP.cleanupEffects s)).
  { subst s'. unfold XP.step, XP.handle. rewrite Hm. reflexivity. }
  assert (Hp' : XP.pending (XP.loginTimeout user) s' = true).
  { rewrite Es'. apply (login_pending_after_cleanup user s Hp). }
  split; [rewrite Es'; reflexivity |].
  split; [intros t; rewrite Es'; apply (pending_after_cleanup t s) |].
  split; [exact Hp' |].
  unfold XP.step, XP.handle, XP.fire. rewrite Hp'.
  unfold XP.loginDone. rewrite Es'. cbn [XP.mounted XP.set_mounted].
  destruct (XP.onLogin p); cbn; [reflexivity | now rewrite app_nil_r].
Qed.

(** Enter on the login screen, then the parent unmounts the screen (as it
    may on Escape) before the two seconds are over: the timeout is the one
    timer left, and firing it reports a login to the parent. *)
Lemma login_timeout_outlives_unmount_witness :
  XP.timers (XP.step loginProps demoLoggingIn XP.Unmount)
    = [ XP.loginTimeout administrator ]
  /\ XP.calls
       (XP.run loginProps demoLoggingIn
          [ XP.Unmount; XP.TimerFires (XP.loginTimeout administrator) ])
     = [ XP.calledOnLogin administrator ].
Proof.
  split; [vm_compute; reflexivity |].
  destruct (login_timeout_outlives_unmount loginProps demoLoggingIn administrator)
    as (_ & _ & _ & H); [vm_compute; reflexivity | vm_compute; reflexivity |].
  exact H.
Defined.

(** ** C5 and C9: the options modal and the option index *)

(** C5 fails on the code.  When [themeId] names no theme, opening the modal
    sets the option index to -1, the result of [findIndex]; no theme is
    highlighted, and Enter throws on [themes[-1].id] before it has set the
    theme or closed the modal. *)
Theorem enter_on_stray_option_throws :
  Clover.showOptions strayOptions = true
  /\ Clover.optionIndex strayOptions = JS.Int (-1)
  /\ JS.at_index (Clover.themes strayOptions) (Clover.optionIndex strayOptions) = None
  /\ Clover.showOptions (Clover.step strayOptions (Clover.KeyDown Enter)) = true
  /\ Clover.themeId (Clover.step strayOptions (Clover.KeyDown Enter))
     = Clover.themeId strayOptions
  /\ Clover.errors (Clover.step strayOptions (Clover.KeyDown Enter))
     = S (Clover.errors strayOptions).
Proof. vm_compute. repeat split. Qed.

(** C9 fails on the code.  The theme shown has one entry and one action and
    the theme list has one theme; from the initial selection, Down and Enter
    on the Options action leave the option index at -1, outside
    [0, themes.length). *)
Theorem option_index_leaves_range :
  Clover.selectedIndex strayState = JS.Int 0
  /\ Clover.activeRow strayState = Clover.entries_row
  /\ List.length (Clover.entries strayState) = 1%nat
  /\ List.length (Clover.actions strayState) = 1%nat
  /\ List.length (Clover.themes strayState) = 1%nat
  /\ Clover.themes strayOptions = Clover.themes strayState
  /\ Clover.optionIndex strayOptions = JS.Int (-1).
Proof. vm_compute. repeat split. Qed.

(** ** C6: a failed load *)

Lemma clover_no_themes_no_theme (s : Clover.AppState) :
  Clover.themes s = [] -> Clover.theme s = None.
Proof. unfold Clover.theme. now intros ->. Qed.

(** With no theme, no timer and the page in place, nothing but the settling
    of a pending fetch changes the state. *)
Lemma clover_idle_step (s : Clover.AppState) (ev : Clover.Event) :
  Clover.themes s = [] -> Clover.timeouts s = [] -> Clover.location s = None ->
  isFetch ev = false \/ Clover.fetchPending s = false ->
  Clover.step s ev = s.
Proof.
  intros Hth Hto Hloc Hev. unfold Clover.step. rewrite Hloc.
  assert (Hh : Clover.handle ev s = s).
  { pose proof (clover_no_themes_no_theme s Hth) as Ht.
    destruct ev; cbn [Clover.handle]; rewrite ?Ht; try reflexivity.
    - destruct Hev as [Hev | Hev]; [discriminate |].
      unfold Clover.settleFetch. now rewrite Hev.
    - unfold Clover.timeoutFires. now rewrite Hto. }
  rewrite Hh. now apply clover_commit_idle.
Qed.

Lemma clover_idle_run (s : Clover.AppState) (evs : list Clover.Event) :
  Clover.themes s = [] -> Clover.timeouts s = [] -> Clover.location s = None ->
  forallb (fun ev => negb (isFetch ev)) evs = true \/ Clover.fetchPending s = false ->
  Clover.run s evs = s.
Proof.
  intros Hth Hto Hloc. induction evs as [| ev evs IH]; intros Hev; [reflexivity |].
  cbn [Clover.run fold_left].
  assert (Hstep : Clover.step s ev = s).
  { apply clover_idle_step; auto.
    destruct Hev as [Hev | Hev]; [left | now right].
    cbn in Hev. apply andb_prop in Hev as [Hev _]. now destruct (isFetch ev). }
  rewrite Hstep. apply IH.
  destruct Hev as [Hev | Hev]; [left | now right].
  cbn in Hev. now apply andb_prop in Hev as [_ Hev].
Qed.

Lemma clover_run_app (s : Clover.AppState) (evs1 evs2 : list Clover.Event) :
  Clover.run s (evs1 ++ evs2) = Clover.run (Clover.run s evs1) evs2.
Proof. unfold Clover.run. apply fold_left_app. Qed.

(** C6.  When the fetch of config.json is rejected, or the response cannot
    be read as JSON, the status becomes 'Failed to load config' and stays on
    the loading screen whatever happens afterwards: the theme list stays
    empty, no theme is shown, and [fetch] has been called once and is not
    called again. *)
Theorem failed_load_stays_on_loading_screen
  (before after : list Clover.Event) (r : Clover.FetchResult) :
  forallb (fun ev => negb (isFetch ev)) before = true ->
  isFailure r = true ->
  let s := Clover.run Clover.start (before ++ Clover.ConfigFetched r :: after) in
  Clover.themes s = []
  /\ Clover.theme s = None
  /\ Clover.render s = Clover.LoadingScreen "Failed to load config"
  /\ Clover.fetches s = 1%nat
  /\ Clover.fetchPending s = false
  /\ Clover.timeouts s = []
  /\ Clover.location s = None.
Proof.
  intros Hbefore Hr s. subst s.
  rewrite clover_run_app, (clover_idle_run Clover.start before); auto.
  cbn [Clover.run fold_left].
  set (failed := Clover.step Clover.start (Clover.ConfigFetched r)).
  assert (Hfailed : failed
                    = Clover.set_status "Failed to load config"
                        (Clover.set_fetchPending false Clover.start)).
  { subst failed. destruct r; [reflexivity | reflexivity | discriminate]. }
  change (fold_left Clover.step after failed) with (Clover.run failed after).
  rewrite (clover_idle_run failed after); rewrite Hfailed; auto.
  repeat split.
Qed.

(** The request is rejected; keys pressed before and after change nothing. *)
Lemma failed_load_stays_on_loading_screen_witness :
  Clover.render
    (Clover.run Clover.start
       ([ Clover.KeyDown ArrowRight ]
        ++ Clover.ConfigFetched Clover.FetchRejected
        :: [ Clover.KeyDown Enter;
             Clover.ConfigFetched (Clover.Parsed demoConfig);
             Clover.KeyDown ArrowDown ]))
  = Clover.LoadingScreen "Failed to load config".
Proof.
  destruct (failed_load_stays_on_loading_screen
              [ Clover.KeyDown ArrowRight ]
              [ Clover.KeyDown Enter;
                Clover.ConfigFetched (Clover.Parsed demoConfig);
                Clover.KeyDown ArrowDown ]
              Clover.FetchRejected) as (_ & _ & H & _);
    [reflexivity | reflexivity |].
  exact H.
Defined.

(** ** C7: the theme list built from the configuration *)

(** The effects set the selection, the active row and the status line, and
    nothing else. *)
Lemma clover_runEffects_frame (prev cur : Clover.AppState) :
  let r := Clover.runEffects prev cur in
  Clover.config r = Clover.config cur
  /\ Clover.themes r = Clover.themes cur
  /\ Clover.themeId r = Clover.themeId cur
  /\ Clover.showOptions r = Clover.showOptions cur
  /\ Clover.optionIndex r = Clover.optionIndex cur
  /\ Clover.fetches r = Clover.fetches cur
  /\ Clover.fetchPending r = Clover.fetchPending cur
  /\ Clover.timeouts r = Clover.timeouts cur
  /\ Clover.location r = Clover.location cur
  /\ Clover.errors r = Clover.errors cur.
Proof.
  unfold Clover.runEffects, Clover.resetEffect, Clover.statusEffect.
  repeat match goal with
         | |- context [if ?b then _ else _] => destruct b
         | |- context [match ?x with _ => _ end] => destruct x
         end; cbn; repeat split.
Qed.

Lemma clover_commit_frame (prev next : Clover.AppState) :
  let r := Clover.commit prev next in
  Clover.config r = Clover.config next
  /\ Clover.themes r = Clover.themes next
  /\ Clover.themeId r = Clover.themeId next
  /\ Clover.showOptions r = Clover.showOptions next
  /\ Clover.optionIndex r = Clover.optionIndex next
  /\ Clover.fetches r = Clover.fetches next
  /\ Clover.fetchPending r = Clover.fetchPending next
  /\ Clover.timeouts r = Clover.timeouts next
  /\ Clover.location r = Clover.location next
  /\ Clover.errors r = Clover.errors next.
Proof.
  unfold Clover.commit.
  pose proof (clover_runEffects_frame prev next) as H1.
  pose proof (clover_runEffects_frame next (Clover.runEffects prev next)) as H2.
  cbv zeta in *.
  destruct H1 as (? & ? & ? & ? & ? & ? & ? & ? & ? & ?).
  destruct H2 as (? & ? & ? & ? & ? & ? & ? & ? & ? & ?).
  repeat split; congruence.
Qed.

Lemma configLoaded_themes (data : Clover.Config.t) (s : Clover.AppState) :
  Clover.themes (Clover.configLoaded data s) = Clover.allThemes data
  /\ Clover.config (Clover.configLoaded data s) = Some data.
Proof.
  unfold Clover.configLoaded.
  destruct (JS.nullish _ _) as [t |]; [| split; reflexivity].
  destruct (JS.at_index (Clover.Theme.entries t) (JS.Int 0)); split; reflexivity.
Qed.

(** C7.  After a successful load the theme list is the config's themes, each
    with its computed style (clover for type 'clover', else classic for id
    'classic', else modern), followed in order by one synthesized theme per
    name of [cloverThemes] (none when the list is absent); a synthesized
    theme has id 'clover-' + name, the name as label, the two entries macOS
    and Windows, and six actions. *)
Theorem theme_list_after_load (data : Clover.Config.t) :
  let names :=
    match Clover.Config.cloverThemes data with
    | Some names => names
    | None => []
    end in
  let loaded := Clover.step Clover.start (Clover.ConfigFetched (Clover.Parsed data)) in
  Clover.themes loaded
  = map (fun t => Clover.Theme.mk t (Clover.getThemeStyle t)) (Clover.Config.themes data)
    ++ map Clover.buildCloverTheme names
  /\ Clover.config loaded = Some data
  /\ (forall t,
        (Clover.ConfigTheme.type t = Clover.type_clover ->
         Clover.getThemeStyle t = Clover.style_clover)
        /\ (Clover.ConfigTheme.type t <> Clover.type_clover ->
            Clover.ConfigTheme.id t = "classic" ->
            Clover.getThemeStyle t = Clover.style_classic)
        /\ (Clover.ConfigTheme.type t <> Clover.type_clover ->
            Clover.ConfigTheme.id t <> "classic" ->
            Clover.getThemeStyle t = Clover.style_modern))
  /\ (forall name,
        let synthesized := Clover.buildCloverTheme name in
        Clover.Theme.id synthesized = ("clover-" ++ name)%string
        /\ Clover.Theme.label synthesized = name
        /\ map Clover.ConfigEntry.name (Clover.Theme.entries synthesized)
           = [ "macOS"; "Windows" ]
        /\ List.length (Clover.Theme.actions synthesized) = 6%nat).
Proof.
  intros names loaded.
  assert (Hloaded : Clover.themes loaded = Clover.allThemes data
                    /\ Clover.config loaded = Some data).
  { subst loaded. unfold Clover.step. cbn [Clover.location Clover.start].
    change (Clover.location Clover.start) with (@None string). cbv iota.
    destruct (clover_commit_frame Clover.start
                (Clover.handle (Clover.ConfigFetched (Clover.Parsed data)) Clover.start))
      as (-> & -> & _).
    apply configLoaded_themes. }
  destruct Hloaded as [Hthemes Hconfig].
  split; [rewrite Hthemes; reflexivity |].
  split; [exact Hconfig |].
  split; [| intros name; cbn; repeat split].
  intros t. unfold Clover.getThemeStyle.
  destruct (Clover.ConfigTheme.type t); repeat split; try congruence.
  - intros _ ->. reflexivity.
  - intros _ Hid. apply String.eqb_neq in Hid. now rewrite Hid.
Qed.

(** The demonstration configuration: its built-in theme is styled classic and
    is followed by the theme synthesized for the folder "Mojave". *)
Lemma theme_list_after_load_witness :
  map Clover.Theme.id (Clover.themes demoState) = [ "classic"; "clover-Mojave" ]
  /\ map Clover.Theme.style (Clover.themes demoState)
     = [ Clover.style_classic; Clover.style_clover ].
Proof.
  destruct (theme_list_after_load demoConfig) as (Hlist & _ & Hstyle & Hsynth).
  change (Clover.themes demoState)
    with (Clover.themes
            (Clover.step Clover.start (Clover.ConfigFetched (Clover.Parsed demoConfig)))).
  rewrite Hlist. cbn [map app demoConfig Clover.Config.themes Clover.Config.cloverThemes].
  destruct (Hsynth "Mojave") as (Hid & _).
  set (classicConfig := Clover.ConfigTheme.mk "classic" _ _ _ _ _ _).
  destruct (Hstyle classicConfig) as (_ & Hclassic & _).
  unfold Clover.Theme.id at 1. cbn [Clover.Theme.config Clover.Theme.style].
  rewrite Hid, Hclassic; [split; reflexivity | discriminate | reflexivity].
Defined.

(** ** C10: the entries of a synthesized theme have no URL *)

Lemma at_index_In {A : Type} (l : list A) (i : JS.number) (x : A) :
  JS.at_index l i = Some x -> In x l.
Proof.
  destruct i as [z |]; cbn; [| discriminate].
  destruct (z <? 0); [discriminate |]. apply nth_error_In.
Qed.

Lemma bootEntry_empty_url (entry : Clover.ConfigEntry.t) (s : Clover.AppState) :
  Clover.ConfigEntry.url entry = Some "" ->
  Clover.bootEntry entry s = Clover.set_status (noUrlStatus entry) s.
Proof. unfold Clover.bootEntry. now intros ->. Qed.

Lemma synthesized_entries_url (name : string) (entry : Clover.ConfigEntry.t) :
  In entry (Clover.Theme.entries (Clover.buildCloverTheme name)) ->
  Clover.ConfigEntry.url entry = Some "".
Proof.
  cbn. intros [<- | [<- | []]]; reflexivity.
Qed.

(** C10.  Every entry of a theme built by [buildCloverTheme] has the empty
    string as url.  While such a theme is shown, confirming an entry, with
    Enter on the entries row or with a double click, takes the no-URL branch
    of [bootEntry]: the status becomes 'Boot <name> (no URL configured)' and
    nothing else changes; in particular no timer is started and the page
    does not navigate. *)
Theorem synthesized_entries_do_not_boot (name : string) (s : Clover.AppState) :
  Clover.location s = None ->
  Clover.theme s = Some (Clover.buildCloverTheme name) ->
  (forall entry, In entry (Clover.entries s) -> Clover.ConfigEntry.url entry = Some "")
  /\ (forall entry,
        Clover.showOptions s = false ->
        Clover.activeRow s = Clover.entries_row ->
        JS.at_index (Clover.entries s) (Clover.selectedIndex s) = Some entry ->
        let s' := Clover.step s (Clover.KeyDown Enter) in
        s' = Clover.set_status (noUrlStatus entry) s
        /\ Clover.timeouts s' = Clover.timeouts s
        /\ Clover.location s' = None)
  /\ (forall index entry,
        nth_error (Clover.entries s) index = Some entry ->
        let s' := Clover.step s (Clover.DoubleClickEntry index) in
        s' = Clover.set_status (noUrlStatus entry) s
        /\ Clover.timeouts s' = Clover.timeouts s
        /\ Clover.location s' = None).
Proof.
  intros Hloc Ht.
  assert (Hurl : forall entry, In entry (Clover.entries s) ->
                               Clover.ConfigEntry.url entry = Some "").
  { intros entry. unfold Clover.entries. rewrite Ht. apply synthesized_entries_url. }
  assert (Hstep : forall ev entry,
             Clover.handle ev s = Clover.bootEntry entry s ->
             In entry (Clover.entries s) ->
             let s' := Clover.step s ev in
             s' = Clover.set_status (noUrlStatus entry) s
             /\ Clover.timeouts s' = Clover.timeouts s
             /\ Clover.location s' = None).
  { intros ev entry Hh Hin s'. subst s'. unfold Clover.step.
    rewrite Hloc, Hh, (bootEntry_empty_url entry s (Hurl entry Hin)).
    rewrite clover_commit_idle by reflexivity.
    repeat split. exact Hloc. }
  split; [exact Hurl |]. split.
  - intros entry Hopt Hrow Hat. apply Hstep; [| now apply at_index_In in Hat].
    cbn [Clover.handle]. rewrite Ht. unfold Clover.handleKey.
    now rewrite Hopt, Hrow, Hat.
  - intros index entry Hnth. apply Hstep; [| now apply nth_error_In in Hnth].
    cbn [Clover.handle]. rewrite Ht. unfold Clover.doubleClickEntry.
    now rewrite Hnth.
Qed.

(** With the "Mojave" theme shown and macOS selected, Enter only sets the
    status line. *)
Lemma synthesized_entries_do_not_boot_witness :
  Clover.step demoClover (Clover.KeyDown Enter)
  = Clover.set_status "Boot macOS (no URL configured)" demoClover.
Proof.
  destruct (synthesized_entries_do_not_boot "Mojave" demoClover) as (_ & H & _);
    [vm_compute; reflexivity | vm_compute; reflexivity |].
  refine (proj1 (H (Clover.ConfigEntry.mk "macos" "macOS"
                      "themes/Mojave/icons/os_mac.icns" None (Some "")) _ _ _));
    vm_compute; reflexivity.
Defined.

(** ** C8: the new index is a function of index, length and key *)

Lemma clover_index_after (s : Clover.AppState) (f : Focus) (key : Key) :
  Clover.location s = None -> Clover.theme s <> None -> cloverFocus s = f ->
  cloverIndex f (Clover.step s (Clover.KeyDown key))
  = indexAfter (isVertical f) (cloverIndex f s) (cloverLength f s) key.
Proof.
  intros Hloc Hsome Hf.
  destruct (Clover.theme s) as [t |] eqn:Ht; [clear Hsome | congruence].
  unfold cloverFocus in Hf.
  destruct (Clover.showOptions s) eqn:Hopt.
  - subst f. cbn [cloverIndex cloverLength isVertical].
    destruct key;
      try solve
        [ match goal with
          | |- context [Clover.step s (Clover.KeyDown ?k)] =>
              destruct (clover_step_same_theme s (Clover.KeyDown k) Hloc) as [st ->]
          end;
          cbn [Clover.handle]; rewrite ?Ht; unfold Clover.handleKey; rewrite ?Hopt;
          reflexivity ].
    unfold Clover.step. rewrite Hloc.
    destruct (clover_commit_frame s (Clover.handle (Clover.KeyDown Enter) s))
      as (_ & _ & _ & _ & -> & _).
    cbn [Clover.handle]. rewrite Ht. unfold Clover.handleKey. rewrite Hopt.
    destruct (JS.at_index (Clover.themes s) (Clover.optionIndex s)); reflexivity.
  - destruct (Clover.activeRow s) eqn:Hrow; subst f;
      cbn [cloverIndex cloverLength isVertical];
      destruct key;
      match goal with
      | |- context [Clover.step s (Clover.KeyDown ?k)] =>
          destruct (clover_step_same_theme s (Clover.KeyDown k) Hloc) as [st ->]
      end;
      cbn [Clover.handle]; rewrite ?Ht; unfold Clover.handleKey, Clover.bootEntry;
      rewrite ?Hopt, ?Hrow; xp_split_matches; reflexivity.
Qed.

Lemma legacy_index_after (s : Legacy.AppState) (key : Key) :
  legacyIndex (Legacy.activeRow s) (Legacy.step s (Legacy.KeyDown key))
  = legacyIndexAfter (legacyIndex (Legacy.activeRow s) s)
      (legacyLength (Legacy.activeRow s) s) key.
Proof.
  destruct (legacy_step_same_theme s (Legacy.KeyDown key)) as [st ->];
    cbn [Legacy.handle]; unfold Legacy.handleKey;
    destruct (Legacy.activeRow s) eqn:Hrow, key; xp_split_matches; reflexivity.
Qed.

Lemma xp_index_after (p : XP.Props) (s : XP.ScreenState) (key : Key) :
  XP.mounted s = true -> XP.phase s = XP.bootloader ->
  XP.bootloaderIndex (XP.step p s (XP.KeyDown key))
  = indexAfter true (XP.bootloaderIndex s) (JS.length XP.bootOptions) key.
Proof.
  destruct s as [ph su lu mc pl bi cd ts m cs]. cbn. intros -> ->.
  unfold XP.step, XP.handle, XP.handleKeyDown, XP.callOnExit. cbn.
  destruct key, (XP.onExit p); reflexivity.
Qed.

(** C8.  The index updates of the keyboard handlers are functions of the
    index, the length and the key: two runs in which the keys go to the same
    list, with equal index and equal length, end with equal indices for
    every key, whatever else differs between them (themes, status line, the
    other indices, props).  This holds for the rows and the modal of the
    picker, for both rows of the static-table picker, and for the option
    list of the XP bootloader. *)
Theorem index_update_deterministic :
  (forall (s1 s2 : Clover.AppState) (f : Focus) (key : Key),
      Clover.location s1 = None -> Clover.location s2 = None ->
      Clover.theme s1 <> None -> Clover.theme s2 <> None ->
      cloverFocus s1 = f -> cloverFocus s2 = f ->
      cloverIndex f s1 = cloverIndex f s2 ->
      cloverLength f s1 = cloverLength f s2 ->
      cloverIndex f (Clover.step s1 (Clover.KeyDown key))
      = cloverIndex f (Clover.step s2 (Clover.KeyDown key)))
  /\ (forall (s1 s2 : Legacy.AppState) (r : Legacy.Row) (key : Key),
      Legacy.activeRow s1 = r -> Legacy.activeRow s2 = r ->
      legacyIndex r s1 = legacyIndex r s2 ->
      legacyLength r s1 = legacyLength r s2 ->
      legacyIndex r (Legacy.step s1 (Legacy.KeyDown key))
      = legacyIndex r (Legacy.step s2 (Legacy.KeyDown key)))
  /\ (forall (p1 p2 : XP.Props) (s1 s2 : XP.ScreenState) (key : Key),
      XP.mounted s1 = true -> XP.mounted s2 = true ->
      XP.phase s1 = XP.bootloader -> XP.phase s2 = XP.bootloader ->
      XP.bootloaderIndex s1 = XP.bootloaderIndex s2 ->
      XP.bootloaderIndex (XP.step p1 s1 (XP.KeyDown key))
      = XP.bootloaderIndex (XP.step p2 s2 (XP.KeyDown key))).
Proof.
  split; [| split].
  - intros s1 s2 f key Hl1 Hl2 Ht1 Ht2 Hf1 Hf2 Hi Hn.
    rewrite (clover_index_after s1 f key Hl1 Ht1 Hf1).
    rewrite (clover_index_after s2 f key Hl2 Ht2 Hf2).
    now rewrite Hi, Hn.
  - intros s1 s2 r key Hr1 Hr2 Hi Hn.
    pose proof (legacy_index_after s1 key) as H1.
    pose proof (legacy_index_after s2 key) as H2.
    rewrite Hr1 in H1. rewrite Hr2 in H2. now rewrite H1, H2, Hi, Hn.
  - intros p1 p2 s1 s2 key Hm1 Hm2 Hp1 Hp2 Hi.
    rewrite (xp_index_after p1 s1 key Hm1 Hp1), (xp_index_after p2 s2 key Hm2 Hp2).
    now rewrite Hi.
Qed.

(** Two pickers showing different themes, both with two entries and the
    first one selected: Right gives the same entry index in both. *)
Lemma index_update_deterministic_witness :
  Clover.themeId demoState <> Clover.themeId demoClover
  /\ cloverIndex onEntries (Clover.step demoState (Clover.KeyDown ArrowRight))
     = cloverIndex onEntries (Clover.step demoClover (Clover.KeyDown ArrowRight)).
Proof.
  split; [vm_compute; discriminate |].
  destruct index_update_deterministic as (H & _).
  apply (H demoState demoClover onEntries ArrowRight);
    vm_compute; (reflexivity || discriminate).
Defined.

(** ** The options modal while a theme is highlighted *)

Lemma clover_set_optionIndex_same (s : Clover.AppState) :
  Clover.set_optionIndex (Clover.optionIndex s) s = s.
Proof. destruct s; reflexivity. Qed.

(** X8.  In the open options modal, whenever the option index is a position
    of the theme list, Enter selects that theme and closes the modal, Escape
    closes it, and an arrow key changes the option index and nothing else. *)
Lemma options_modal_keys (s : Clover.AppState) (t : Clover.Theme.t) :
  Clover.location s = None ->
  Clover.showOptions s = true ->
  JS.at_index (Clover.themes s) (Clover.optionIndex s) = Some t ->
  (Clover.themeId (Clover.step s (Clover.KeyDown Enter)) = Clover.Theme.id t
   /\ Clover.showOptions (Clover.step s (Clover.KeyDown Enter)) = false)
  /\ Clover.step s (Clover.KeyDown Escape) = Clover.set_showOptions false s
  /\ (forall key,
        In key [ ArrowUp; ArrowDown; ArrowLeft; ArrowRight ] ->
        Clover.step s (Clover.KeyDown key)
        = Clover.set_optionIndex
            (indexAfter true (Clover.optionIndex s) (JS.length (Clover.themes s)) key) s).
Proof.
  intros Hloc Hopt Hat.
  assert (Ht : exists shown, Clover.theme s = Some shown).
  { unfold Clover.theme. destruct (find _ (Clover.themes s)); [cbn; eauto |].
    destruct (Clover.themes s) as [| x rest]; [| cbn; eauto].
    destruct (Clover.optionIndex s) as [z |]; cbn in Hat; [| discriminate].
    destruct (z <? 0); [discriminate |]. now destruct (Z.to_nat z). }
  destruct Ht as [shown Ht].
  split; [| split].
  - unfold Clover.step. rewrite Hloc.
    destruct (clover_commit_frame s (Clover.handle (Clover.KeyDown Enter) s))
      as (_ & _ & -> & -> & _).
    cbn [Clover.handle]. rewrite Ht. unfold Clover.handleKey.
    rewrite Hopt, Hat. split; reflexivity.
  - unfold Clover.step. rewrite Hloc. cbn [Clover.handle]. rewrite Ht.
    unfold Clover.handleKey. rewrite Hopt. now apply clover_commit_idle.
  - intros key Hkey. unfold Clover.step. rewrite Hloc. cbn [Clover.handle].
    rewrite Ht. unfold Clover.handleKey. rewrite Hopt.
    destruct Hkey as [<- | [<- | [<- | [<- | []]]]]; cbn [indexAfter];
      rewrite ?clover_set_optionIndex_same; now apply clover_commit_idle.
Qed.

(** ** Which indices do stay in range *)

Lemma inRange_zero (lo : Z) (n : nat) : lo <= 0 -> n <> 0%nat -> inRange (JS.Int 0) lo n.
Proof. intros Hlo Hn. exists 0. split; [reflexivity | lia]. Qed.

Lemma inRange_nat (k n : nat) (lo : Z) :
  lo <= 0 -> (k < n)%nat -> inRange (JS.Int (Z.of_nat k)) lo n.
Proof. intros Hlo Hk. exists (Z.of_nat k). split; [reflexivity | lia]. Qed.

Lemma inRange_weaken (i : JS.number) (n : nat) :
  inRange i 0 n -> inRange i (-1) n.
Proof. intros (z & -> & Hz). exists z. split; [reflexivity | lia]. Qed.

(** Both arrow updates land in [0, n) from anywhere in [-1, n). *)
Lemma inRange_previous (i : JS.number) (n : nat) :
  n <> 0%nat -> inRange i (-1) n ->
  inRange (JS.rem (JS.add (JS.sub i (JS.Int 1)) (JS.length_of n)) (JS.length_of n)) 0 n.
Proof.
  intros Hn (z & -> & Hz). unfold JS.length_of. cbn [JS.sub JS.add JS.rem].
  destruct (Z.eqb_spec (Z.of_nat n) 0) as [E | _]; [lia |].
  eexists. split; [reflexivity |].
  destruct (Z.eq_dec z (-1)) as [-> | Hne].
  - destruct (Z.eq_dec (Z.of_nat n) 1) as [-> | Hn1]; [rewrite Z.rem_1_r; lia |].
    rewrite Z.rem_small; lia.
  - rewrite Z.rem_mod_nonneg by lia. apply Z.mod_pos_bound. lia.
Qed.

Lemma inRange_next (i : JS.number) (n : nat) :
  n <> 0%nat -> inRange i (-1) n ->
  inRange (JS.rem (JS.add i (JS.Int 1)) (JS.length_of n)) 0 n.
Proof.
  intros Hn (z & -> & Hz). unfold JS.length_of. cbn [JS.add JS.rem].
  destruct (Z.eqb_spec (Z.of_nat n) 0) as [E | _]; [lia |].
  eexists. split; [reflexivity |].
  rewrite Z.rem_mod_nonneg by lia. apply Z.mod_pos_bound. lia.
Qed.

Lemma findIndex_from_range {A : Type} (p : A -> bool) (l : list A) (k : Z) :
  JS.findIndex_from p l k = -1
  \/ k <= JS.findIndex_from p l k < k + Z.of_nat (List.length l).
Proof.
  revert k. induction l as [| x l IH]; intros k; cbn [JS.findIndex_from List.length].
  - now left.
  - destruct (p x); [right; lia |].
    destruct (IH (k + 1)) as [-> | H]; [now left | right; lia].
Qed.

Lemma findIndex_inRange {A : Type} (p : A -> bool) (l : list A) :
  inRange (JS.findIndex p l) (-1) (List.length l).
Proof.
  exists (JS.findIndex_from p l 0). split; [reflexivity |].
  destruct (findIndex_from_range p l 0) as [E | H]; [| lia].
  rewrite E. destruct l; cbn [JS.findIndex_from] in E; cbn [List.length]; [| lia].
  lia.
Qed.

Lemma clover_theme_In (s : Clover.AppState) (t : Clover.Theme.t) :
  Clover.theme s = Some t -> In t (Clover.themes s).
Proof.
  unfold Clover.theme.
  destruct (find _ (Clover.themes s)) eqn:E; cbn [JS.nullish].
  - intros [= <-]. now apply find_some in E.
  - apply at_index_In.
Qed.

Lemma clover_theme_ext (s s' : Clover.AppState) :
  Clover.themes s' = Clover.themes s -> Clover.themeId s' = Clover.themeId s ->
  Clover.theme s' = Clover.theme s.
Proof. unfold Clover.theme. now intros -> ->. Qed.

Lemma clover_theme_exists (s s' : Clover.AppState) (t : Clover.Theme.t) :
  Clover.themes s' = Clover.themes s -> Clover.theme s = Some t ->
  exists t', Clover.theme s' = Some t'.
Proof.
  intros Hth Ht. apply clover_theme_In in Ht. unfold Clover.theme. rewrite Hth.
  destruct (find _ (Clover.themes s)); [cbn; eauto |].
  destruct (Clover.themes s); [destruct Ht | cbn; eauto].
Qed.

(** After a change of theme the commit leaves both row indices at 0. *)
Lemma clover_commit_reset (prev next : Clover.AppState) (t : Clover.Theme.t) :
  Clover.resetDeps_changed prev next = true ->
  Clover.theme next = Some t ->
  Clover.selectedIndex (Clover.commit prev next) = JS.Int 0
  /\ Clover.actionIndex (Clover.commit prev next) = JS.Int 0.
Proof.
  intros Hdeps Ht. unfold Clover.commit.
  pose proof (clover_runEffects_frame prev next) as Hframe. cbv zeta in Hframe.
  destruct Hframe as (_ & Hth & Hid & _).
  destruct (clover_runEffects_status next (Clover.runEffects prev next)) as [st ->];
    [now rewrite Hid | now rewrite Hth |].
  cbn [Clover.selectedIndex Clover.actionIndex Clover.set_status].
  unfold Clover.runEffects. rewrite Hdeps.
  unfold Clover.resetEffect, Clover.statusEffect. rewrite Ht.
  xp_split_matches; split; reflexivity.
Qed.

Ltac range_solver :=
  first
    [ assumption
    | apply inRange_weaken; assumption
    | apply findIndex_inRange
    | apply inRange_previous;
        [assumption | first [assumption | apply inRange_weaken; assumption]]
    | apply inRange_next;
        [assumption | first [assumption | apply inRange_weaken; assumption]]
    | apply inRange_weaken; apply inRange_previous; assumption
    | apply inRange_weaken; apply inRange_next; assumption
    | apply inRange_nat;
        [lia | apply nth_error_Some; congruence] ].

(** What a handler does to the indices of a picker whose indices are in
    range. *)
Lemma clover_handle_ranges (s : Clover.AppState) (ev : Clover.Event) :
  cloverRanges s ->
  let next := Clover.handle ev s in
  Clover.fetchPending next = false
  /\ Clover.themes next = Clover.themes s
  /\ (forall t, Clover.theme s = Some t ->
        inRange (Clover.optionIndex next) (-1) (List.length (Clover.themes s)))
  /\ (Clover.themeId next = Clover.themeId s ->
      forall t, Clover.theme s = Some t ->
        inRange (Clover.selectedIndex next) 0 (List.length (Clover.Theme.entries t))
        /\ inRange (Clover.actionIndex next) 0 (List.length (Clover.Theme.actions t))).
Proof.
  intros (Hpend & Hne & Hr) next. subst next.
  destruct (Clover.theme s) as [t |] eqn:Ht.
  - destruct (Hr t eq_refl) as (Hsel & Hact & Hopt).
    pose proof (clover_theme_In s t Ht) as Hin.
    assert (Hthemes : List.length (Clover.themes s) <> 0%nat).
    { destruct (Clover.themes s); [destruct Hin | discriminate]. }
    assert (Hrows : List.length (Clover.Theme.entries t) <> 0%nat
                    /\ List.length (Clover.Theme.actions t) <> 0%nat).
    { rewrite Forall_forall in Hne. destruct (Hne t Hin) as [He Ha].
      split; [destruct (Clover.Theme.entries t) | destruct (Clover.Theme.actions t)];
        cbn; congruence. }
    destruct Hrows as [Hentries Hactions].
    destruct ev; cbn [Clover.handle]; rewrite ?Ht;
      unfold Clover.settleFetch, Clover.timeoutFires, Clover.handleKey,
        Clover.clickEntry, Clover.doubleClickEntry, Clover.clickAction,
        Clover.clickOverlay, Clover.clickOption, Clover.throw,
        Clover.entries, Clover.actions, JS.length;
      unfold Clover.bootEntry;
      rewrite ?Ht, ?Hpend; cbv beta iota;
      xp_split_matches;
      cbn [Clover.fetchPending Clover.themes Clover.themeId Clover.selectedIndex
           Clover.actionIndex Clover.optionIndex
           Clover.set_config Clover.set_themes Clover.set_themeId
           Clover.set_selectedIndex Clover.set_status Clover.set_activeRow
           Clover.set_actionIndex Clover.set_showOptions Clover.set_optionIndex
           Clover.set_fetches Clover.set_fetchPending Clover.set_timeouts
           Clover.set_location Clover.set_errors];
      (split; [first [assumption | reflexivity] |]); (split; [reflexivity |]);
      (split; [intros ? _; range_solver |]);
      intros _ ? [= <-]; split; range_solver.
  - destruct ev; cbn [Clover.handle]; rewrite ?Ht;
      unfold Clover.settleFetch, Clover.timeoutFires; rewrite ?Hpend;
      xp_split_matches; cbn; repeat split; auto; discriminate.
Qed.

(** The ranges are kept by every step. *)
Lemma clover_step_ranges (s : Clover.AppState) (ev : Clover.Event) :
  cloverRanges s -> cloverRanges (Clover.step s ev).
Proof.
  intros Hinv. unfold Clover.step.
  destruct (Clover.location s); [exact Hinv |].
  pose proof (clover_handle_ranges s ev Hinv) as Hh. cbv zeta in Hh.
  destruct Hh as (Hpend & Hth & Hopt & Hrows).
  destruct Hinv as (_ & Hne & _).
  set (next := Clover.handle ev s) in *.
  pose proof (clover_commit_frame s next) as Hframe. cbv zeta in Hframe.
  destruct Hframe as (_ & Fth & Fid & _ & Fopt & _ & Fpend & _).
  split; [now rewrite Fpend |].
  split; [now rewrite Fth, Hth |].
  intros t Ht.
  assert (Htnext : Clover.theme next = Some t).
  { rewrite <- Ht. symmetry. now apply clover_theme_ext. }
  assert (Hts : exists t0, Clover.theme s = Some t0).
  { apply (clover_theme_exists next s t); [now rewrite Hth | exact Htnext]. }
  destruct Hts as [t0 Ht0].
  assert (Hoption : inRange (Clover.optionIndex (Clover.commit s next)) (-1)
                      (List.length (Clover.themes (Clover.commit s next)))).
  { rewrite Fopt, Fth, Hth. now apply (Hopt t0). }
  destruct (Clover.resetDeps_changed s next) eqn:Hdeps.
  - destruct (clover_commit_reset s next t Hdeps Htnext) as [-> ->].
    pose proof (clover_theme_In next t Htnext) as Hin. rewrite Hth in Hin.
    rewrite Forall_forall in Hne. destruct (Hne t Hin) as [He Ha].
    repeat split; [apply inRange_zero | apply inRange_zero | exact Hoption];
      try lia;
      [destruct (Clover.Theme.entries t) | destruct (Clover.Theme.actions t)];
      cbn; congruence.
  - unfold Clover.resetDeps_changed in Hdeps.
    apply orb_false_elim in Hdeps as [Hid Hlen].
    apply negb_false_iff in Hid. apply String.eqb_eq in Hid.
    apply negb_false_iff in Hlen. apply Nat.eqb_eq in Hlen.
    assert (Esame : Clover.theme s = Clover.theme next).
    { symmetry. now apply clover_theme_ext. }
    destruct (Hrows (eq_sym Hid) t) as [Hsel Hact]; [now rewrite Esame |].
    destruct (clover_commit_status s next Hid Hlen) as [st E].
    rewrite E in *. cbn [Clover.selectedIndex Clover.actionIndex Clover.set_status] in *.
    repeat split; assumption.
Qed.

Lemma clover_loaded_ranges (data : Clover.Config.t) :
  Forall rowsNonempty (Clover.allThemes data) ->
  cloverRanges (Clover.step Clover.start (Clover.ConfigFetched (Clover.Parsed data))).
Proof.
  intros Hne. unfold Clover.step.
  change (Clover.location Clover.start) with (@None string). cbv iota.
  set (next := Clover.handle (Clover.ConfigFetched (Clover.Parsed data)) Clover.start).
  assert (Hnext : Clover.themes next = Clover.allThemes data
                  /\ Clover.fetchPending next = false
                  /\ Clover.optionIndex next = JS.Int 0).
  { subst next. cbn [Clover.handle]. unfold Clover.settleFetch.
    change (Clover.fetchPending Clover.start) with true. cbv iota.
    unfold Clover.configLoaded. xp_split_matches; repeat split. }
  destruct Hnext as (Hth & Hpend & Hopt).
  pose proof (clover_commit_frame Clover.start next) as Hframe. cbv zeta in Hframe.
  destruct Hframe as (_ & Fth & Fid & _ & Fopt & _ & Fpend & _).
  split; [now rewrite Fpend |].
  split; [now rewrite Fth, Hth |].
  intros t Ht.
  assert (Htnext : Clover.theme next = Some t).
  { rewrite <- Ht. symmetry. now apply clover_theme_ext. }
  pose proof (clover_theme_In next t Htnext) as Hin.
  assert (Hdeps : Clover.resetDeps_changed Clover.start next = true).
  { unfold Clover.resetDeps_changed. apply orb_true_intro. right.
    change (Clover.themes Clover.start) with (@nil Clover.Theme.t).
    destruct (Clover.themes next); [destruct Hin | reflexivity]. }
  destruct (clover_commit_reset Clover.start next t Hdeps Htnext) as [-> ->].
  rewrite Fopt, Fth, Hopt.
  rewrite Hth in Hin. rewrite Forall_forall in Hne. destruct (Hne t Hin) as [He Ha].
  repeat split; apply inRange_zero; try lia;
    [destruct (Clover.Theme.entries t) | destruct (Clover.Theme.actions t)
     | rewrite Hth; destruct (Clover.allThemes data); [destruct Hin |]];
    cbn; congruence.
Qed.

Lemma clover_run_ranges (s : Clover.AppState) (evs : list Clover.Event) :
  cloverRanges s -> cloverRanges (Clover.run s evs).
Proof.
  revert s. induction evs as [| ev evs IH]; intros s Hinv; [exact Hinv |].
  cbn [Clover.run fold_left]. apply IH. now apply clover_step_ranges.
Qed.

Lemma legacy_rows_of (s s' : Legacy.AppState) :
  List.length (Legacy.entries s') = List.length (Legacy.entries s)
  /\ List.length (Legacy.actions s') = List.length (Legacy.actions s).
Proof.
  destruct (legacy_rows s) as [-> ->]. destruct (legacy_rows s') as [-> ->]. now split.
Qed.

Lemma legacy_runEffects_ranges (prev cur : Legacy.AppState) :
  legacyRanges cur -> legacyRanges (Legacy.runEffects prev cur).
Proof.
  intros (Hsel & Hact & Herr). unfold legacyRanges.
  destruct (legacy_rows_of cur (Legacy.runEffects prev cur)) as [-> ->].
  unfold Legacy.runEffects, Legacy.resetEffect, Legacy.statusEffect.
  destruct (legacy_first_entry cur (Legacy.selectedIndex cur)) as [e ->].
  destruct (legacy_rows cur) as [He Ha].
  xp_split_matches; cbn; repeat split;
    first [assumption | apply inRange_zero; lia].
Qed.

Lemma inRange_delta_next (i : JS.number) (n : nat) :
  n <> 0%nat -> inRange i 0 n ->
  inRange (JS.rem (JS.add (JS.add i (JS.Int 1)) (JS.length_of n)) (JS.length_of n)) 0 n.
Proof.
  intros Hn (z & -> & Hz). unfold JS.length_of. cbn [JS.add JS.rem].
  destruct (Z.eqb_spec (Z.of_nat n) 0) as [E | _]; [lia |].
  eexists. split; [reflexivity |].
  rewrite Z.rem_mod_nonneg by lia. apply Z.mod_pos_bound. lia.
Qed.

Lemma legacy_handle_ranges (s : Legacy.AppState) (ev : Legacy.Event) :
  legacyRanges s -> legacyRanges (Legacy.handle ev s).
Proof.
  intros (Hsel & Hact & Herr). unfold legacyRanges.
  destruct (legacy_rows_of s (Legacy.handle ev s)) as [-> ->].
  destruct (legacy_rows s) as [He Ha].
  assert (Hentry : exists e,
             JS.at_index (Legacy.entries s) (Legacy.selectedIndex s) = Some e).
  { destruct Hsel as (z & -> & Hz). now apply at_index_in_range. }
  assert (Haction : exists a,
             JS.at_index (Legacy.actions s) (Legacy.actionIndex s) = Some a).
  { destruct Hact as (z & -> & Hz). now apply at_index_in_range. }
  destruct Hentry as [e Hentry]. destruct Haction as [a Haction].
  assert (Hne : List.length (Legacy.entries s) <> 0%nat) by lia.
  assert (Hna : List.length (Legacy.actions s) <> 0%nat) by lia.
  destruct ev as [key | index | index | item]; cbn [Legacy.handle];
    unfold Legacy.handleKey, Legacy.moveEntries, Legacy.moveActions,
      Legacy.clickEntry, Legacy.clickAction, JS.length;
    rewrite ?Hentry, ?Haction;
    xp_split_matches; cbn; repeat split;
    first
      [ assumption
      | apply inRange_previous; [assumption | apply inRange_weaken; assumption]
      | apply inRange_delta_next; assumption
      | apply inRange_nat; [lia | apply nth_error_Some; congruence] ].
Qed.

Lemma legacy_step_ranges (s : Legacy.AppState) (ev : Legacy.Event) :
  legacyRanges s -> legacyRanges (Legacy.step s ev).
Proof.
  intros Hinv. unfold Legacy.step, Legacy.commit.
  now apply legacy_runEffects_ranges, legacy_runEffects_ranges, legacy_handle_ranges.
Qed.

Lemma legacy_run_ranges (evs : list Legacy.Event) :
  legacyRanges (Legacy.run Legacy.start evs).
Proof.
  assert (H : forall s, legacyRanges s -> legacyRanges (Legacy.run s evs)).
  { induction evs as [| ev evs IH]; intros s Hinv; [exact Hinv |].
    cbn [Legacy.run fold_left]. apply IH. now apply legacy_step_ranges. }
  apply H. repeat split; [apply inRange_zero | apply inRange_zero]; cbn; lia.
Qed.

Lemma xp_step_index (p : XP.Props) (s : XP.ScreenState) (ev : XP.Event) :
  inRange (XP.bootloaderIndex s) 0 (List.length XP.bootOptions) ->
  inRange (XP.bootloaderIndex (XP.step p s ev)) 0 (List.length XP.bootOptions).
Proof.
  intros Hin.
  assert (Hcommit : forall prev next,
             XP.bootloaderIndex (XP.commit prev next) = XP.bootloaderIndex next).
  { intros prev next. unfold XP.commit, XP.setupEffects.
    destruct (XP.BootPhase_eqb _ _); [reflexivity |].
    destruct next as [ph ? ? ? ? ? ? ? ? ?]; destruct ph; reflexivity. }
  assert (Hhandle : inRange (XP.bootloaderIndex (XP.handle p ev s)) 0
                      (List.length XP.bootOptions)).
  { destruct s as [ph su lu mc pl bi cd ts m cs]. cbn in Hin.
    unfold XP.handle, XP.fire, XP.pending, XP.memoryTick, XP.addLines, XP.countdownTick,
      XP.loginDone, XP.handleKeyDown, XP.clickBootOption, XP.clickUser, XP.clickExit,
      XP.handleUserClick, XP.handleLogin, XP.callOnExit, XP.unmount, XP.cleanupEffects,
      XP.clear, XP.schedule, JS.length.
    cbn [XP.phase XP.selectedUser XP.timers XP.mounted XP.countdown XP.calls
         XP.bootloaderIndex].
    xp_split_matches; cbn;
      first
        [ assumption
        | apply inRange_previous; [discriminate | apply inRange_weaken; assumption]
        | apply inRange_next; [discriminate | apply inRange_weaken; assumption]
        | apply (inRange_nat _ (List.length XP.bootOptions));
            [lia | apply nth_error_Some; congruence] ]. }
  unfold XP.step. destruct (XP.mounted _); [now rewrite Hcommit | exact Hhandle].
Qed.

Lemma xp_run_index (p : XP.Props) (evs : list XP.Event) :
  inRange (XP.bootloaderIndex (XP.run p XP.start evs)) 0 (List.length XP.bootOptions).
Proof.
  induction evs as [| ev evs IH] using rev_ind.
  - apply inRange_zero; [lia | discriminate].
  - rewrite xp_run_snoc. now apply xp_step_index.
Qed.

(** X9.  The ranges the indices do keep.  In every state the
    components can reach (for the config-driven picker: after the load of a
    configuration all of whose themes have nonempty rows), the entry index
    and the action index are positions of their rows and the bootloader
    index is a position of the option list; the option index of the modal
    is a position of the theme list or -1, and the static-table picker
    never throws. *)
Theorem row_indices_stay_in_range :
  (forall data evs,
      Forall rowsNonempty (Clover.allThemes data) ->
      cloverRanges
        (Clover.run Clover.start (Clover.ConfigFetched (Clover.Parsed data) :: evs)))
  /\ (forall evs, legacyRanges (Legacy.run Legacy.start evs))
  /\ (forall p evs,
        inRange (XP.bootloaderIndex (XP.run p XP.start evs)) 0
          (List.length XP.bootOptions)).
Proof.
  split; [| split; [exact legacy_run_ranges | exact xp_run_index]].
  intros data evs Hne. cbn [Clover.run fold_left].
  apply (clover_run_ranges _ evs). now apply clover_loaded_ranges.
Qed.

(** * Further properties of the three components *)

(** ** The commit of the config-driven picker, in closed form *)

Lemma clover_commit_same (prev next : Clover.AppState) :
  Clover.resetDeps_changed prev next = false ->
  Clover.commit prev next = Clover.runEffects prev next.
Proof.
  intros Hdeps. unfold Clover.resetDeps_changed in Hdeps.
  apply orb_false_elim in Hdeps as [Hid Hlen].
  apply negb_false_iff in Hid. apply String.eqb_eq in Hid.
  apply negb_false_iff in Hlen. apply Nat.eqb_eq in Hlen.
  unfold Clover.commit.
  destruct (clover_runEffects_status prev next Hid Hlen) as [st ->].
  now apply clover_runEffects_idle.
Qed.

Lemma clover_theme_reset (X : string) (s : Clover.AppState) :
  Clover.theme (cloverReset X s) = Clover.theme s.
Proof. reflexivity. Qed.

Lemma clover_first_round (prev next : Clover.AppState) (t : Clover.Theme.t) :
  Clover.resetDeps_changed prev next = true ->
  Clover.theme next = Some t ->
  exists X,
    Clover.runEffects prev next = cloverReset X next
    /\ (Clover.Theme.entries t = [] -> X = Clover.status next)
    /\ (Clover.selectedIndex next = JS.Int 0 ->
        Clover.activeRow next = Clover.entries_row ->
        X = bootFirst t (Clover.status next)).
Proof.
  intros Hdeps Ht. unfold Clover.runEffects. rewrite Hdeps.
  unfold Clover.resetEffect, Clover.statusEffect, Clover.entries. rewrite Ht.
  unfold bootFirst.
  destruct (Clover.statusDeps_changed prev next);
    destruct (Clover.Theme.entries t) as [| e0 rest] eqn:He;
    destruct (Clover.selectedIndex next) as [z |] eqn:Hsel;
    destruct (Clover.activeRow next) eqn:Hrow;
    cbn [JS.at_index JS.nullish Z.ltb Z.compare Z.to_nat nth_error];
    try (destruct (z <? 0) eqn:Hneg; cbn [JS.nullish nth_error]);
    try (destruct (nth_error (e0 :: rest) (Z.to_nat z)) eqn:Hnth; cbn [JS.nullish]);
    try (destruct (nth_error [] (Z.to_nat z)) eqn:Hnth; cbn [JS.nullish]);
    eexists; (split; [unfold cloverReset; destruct next; reflexivity |]);
    (split; [try discriminate; try reflexivity |]);
    try (intros Hz Hr; try discriminate; try reflexivity).
  - destruct (Z.to_nat z); discriminate.
  - destruct (Z.to_nat z); discriminate.
  - injection Hz as ->. cbn in Hnth. congruence.
Qed.

Lemma clover_second_round (next : Clover.AppState) (t : Clover.Theme.t) (X : string) :
  Clover.theme next = Some t ->
  Clover.runEffects next (cloverReset X next)
  = if JS.number_eqb (Clover.selectedIndex next) (JS.Int 0)
       && Clover.Row_eqb (Clover.activeRow next) Clover.entries_row
    then cloverReset X next
    else cloverReset (bootFirst t X) next.
Proof.
  intros Ht. unfold Clover.runEffects, Clover.resetDeps_changed,
    Clover.statusDeps_changed, Clover.statusEffect, Clover.entries.
  rewrite clover_theme_reset, Ht. unfold bootFirst.
  destruct next as [cfg th tid sel st row act so oi fe fp to loc er].
  cbn [cloverReset Clover.themeId Clover.themes Clover.selectedIndex Clover.activeRow
       Clover.set_status Clover.set_activeRow Clover.set_actionIndex
       Clover.set_selectedIndex Clover.status].
  rewrite String.eqb_refl, Nat.eqb_refl. cbn [negb orb].
  destruct (JS.number_eqb sel (JS.Int 0)), row; cbn [negb orb andb Clover.Row_eqb];
    try reflexivity;
    destruct (Clover.Theme.entries t) as [| e0 rest]; reflexivity.
Qed.

(** When the theme changed (or the theme list arrived) and there is a theme
    to show, the two rounds of effects end with the selection reset and the
    status line announcing the first entry. *)
Lemma clover_commit_change (prev next : Clover.AppState) (t : Clover.Theme.t) :
  Clover.resetDeps_changed prev next = true ->
  Clover.theme next = Some t ->
  Clover.commit prev next = cloverReset (bootFirst t (Clover.status next)) next.
Proof.
  intros Hdeps Ht. unfold Clover.commit.
  destruct (clover_first_round prev next t Hdeps Ht) as (X & -> & Hempty & Hzero).
  rewrite (clover_second_round next t X Ht).
  destruct (JS.number_eqb (Clover.selectedIndex next) (JS.Int 0)) eqn:Hsel;
    destruct (Clover.activeRow next) eqn:Hrow; cbn [andb Clover.Row_eqb].
  - rewrite Hzero; [reflexivity | | reflexivity].
    destruct (Clover.selectedIndex next) as [z |]; cbn in Hsel; [| discriminate].
    apply Z.eqb_eq in Hsel. now subst.
  - unfold bootFirst in *. destruct (Clover.Theme.entries t); [now rewrite Hempty | reflexivity].
  - unfold bootFirst in *. destruct (Clover.Theme.entries t); [now rewrite Hempty | reflexivity].
  - unfold bootFirst in *. destruct (Clover.Theme.entries t); [now rewrite Hempty | reflexivity].
Qed.

(** ** The picker after the load *)

Lemma clover_runEffects_no_theme (prev cur : Clover.AppState) :
  Clover.theme cur = None -> Clover.runEffects prev cur = cur.
Proof.
  intros Ht. unfold Clover.runEffects, Clover.resetEffect, Clover.statusEffect.
  rewrite Ht. now destruct (Clover.resetDeps_changed _ _), (Clover.statusDeps_changed _ _).
Qed.

Lemma clover_commit_no_theme (prev next : Clover.AppState) :
  Clover.theme next = None -> Clover.commit prev next = next.
Proof.
  intros Ht. unfold Clover.commit.
  rewrite (clover_runEffects_no_theme prev next Ht).
  now apply clover_runEffects_no_theme.
Qed.

(** X1.  After a successful load the theme id is [defaultTheme], or
    'classic' when that is empty; the theme shown is the first theme with
    that id, or the first theme of the list when no theme has it; the
    selection is at the first entry of the entries row and the modal is
    closed.  The status line announces the first entry of the theme shown;
    when that theme has no entry it still reads 'Loading...', and when the
    list has no theme the loading screen stays, reading 'Loading...'. *)
Theorem picker_after_load (data : Clover.Config.t) :
  let s := Clover.step Clover.start (Clover.ConfigFetched (Clover.Parsed data)) in
  Clover.themeId s = defaultThemeId data
  /\ Clover.theme s
     = JS.nullish
         (find (fun t => (Clover.Theme.id t =? defaultThemeId data)%string)
               (Clover.allThemes data))
         (JS.at_index (Clover.allThemes data) (JS.Int 0))
  /\ Clover.selectedIndex s = JS.Int 0
  /\ Clover.actionIndex s = JS.Int 0
  /\ Clover.activeRow s = Clover.entries_row
  /\ Clover.showOptions s = false
  /\ Clover.render s
     = match Clover.theme s with
       | Some t => Clover.PickerScreen t (bootFirst t "Loading...") false
       | None => Clover.LoadingScreen "Loading..."
       end.
Proof.
  intros s. subst s. unfold Clover.step.
  change (Clover.location Clover.start) with (@None string). cbv iota.
  set (next := Clover.handle (Clover.ConfigFetched (Clover.Parsed data)) Clover.start).
  assert (Hth : Clover.themes next = Clover.allThemes data
                /\ Clover.themeId next = defaultThemeId data).
  { subst next. cbn [Clover.handle]. unfold Clover.settleFetch.
    change (Clover.fetchPending Clover.start) with true. cbv iota.
    unfold Clover.configLoaded, defaultThemeId. xp_split_matches; split; reflexivity. }
  destruct Hth as [Hth Hid].
  assert (Htheme : Clover.theme next
                   = JS.nullish
                       (find (fun t => (Clover.Theme.id t =? defaultThemeId data)%string)
                             (Clover.allThemes data))
                       (JS.at_index (Clover.allThemes data) (JS.Int 0))).
  { unfold Clover.theme. now rewrite Hth, Hid. }
  assert (Hstatus : Clover.status next
                    = match Clover.theme next with
                      | Some t => bootFirst t "Loading..."
                      | None => "Loading..."
                      end
                    /\ Clover.selectedIndex next = JS.Int 0
                    /\ Clover.actionIndex next = JS.Int 0
                    /\ Clover.activeRow next = Clover.entries_row
                    /\ Clover.showOptions next = false).
  { rewrite Htheme. subst next. cbn [Clover.handle]. unfold Clover.settleFetch.
    change (Clover.fetchPending Clover.start) with true. cbv iota.
    unfold Clover.configLoaded. fold (defaultThemeId data).
    destruct (JS.nullish _ _) as [t |]; [| repeat split].
    unfold bootFirst. cbn [JS.at_index Z.ltb Z.compare Z.to_nat].
    destruct (Clover.Theme.entries t); repeat split. }
  destruct Hstatus as (Hst & Hsel & Hact & Hrow & Hopt).
  destruct (Clover.theme next) as [t |] eqn:Ht.
  - assert (Hdeps : Clover.resetDeps_changed Clover.start next = true).
    { unfold Clover.resetDeps_changed. apply orb_true_intro. right.
      change (Clover.themes Clover.start) with (@nil Clover.Theme.t).
      pose proof (clover_theme_In next t Ht) as Hin.
      destruct (Clover.themes next); [destruct Hin | reflexivity]. }
    rewrite (clover_commit_change Clover.start next t Hdeps Ht).
    unfold Clover.render. rewrite clover_theme_reset, Ht, <- Htheme.
    cbn [cloverReset Clover.themeId Clover.selectedIndex Clover.actionIndex
         Clover.activeRow Clover.showOptions Clover.status Clover.set_status
         Clover.set_activeRow Clover.set_actionIndex Clover.set_selectedIndex].
    rewrite Hst, Hopt.
    repeat split; try assumption.
    unfold bootFirst. now destruct (Clover.Theme.entries t).
  - rewrite (clover_commit_no_theme Clover.start next Ht).
    unfold Clover.render. rewrite Ht, <- Htheme, Hst. repeat split; assumption.
Qed.

(** X2.  A configuration without themes (none listed and no Clover theme
    folder) leaves the component on the loading screen reading 'Loading...',
    whatever is pressed or clicked afterwards. *)
Theorem no_themes_keeps_loading (data : Clover.Config.t) (evs : list Clover.Event) :
  Clover.allThemes data = [] ->
  let s := Clover.run Clover.start (Clover.ConfigFetched (Clover.Parsed data) :: evs) in
  Clover.render s = Clover.LoadingScreen "Loading..."
  /\ Clover.themes s = []
  /\ Clover.config s = Some data.
Proof.
  intros Hnone s. subst s. cbn [Clover.run fold_left].
  set (loaded := Clover.step Clover.start (Clover.ConfigFetched (Clover.Parsed data))).
  assert (Hloaded : Clover.themes loaded = [] /\ Clover.config loaded = Some data
                    /\ Clover.timeouts loaded = [] /\ Clover.location loaded = None
                    /\ Clover.fetchPending loaded = false
                    /\ Clover.status loaded = "Loading...").
  { subst loaded. unfold Clover.step.
    change (Clover.location Clover.start) with (@None string). cbv iota.
    rewrite clover_commit_no_theme;
      cbn [Clover.handle]; unfold Clover.settleFetch;
      change (Clover.fetchPending Clover.start) with true; cbv iota;
      unfold Clover.configLoaded, Clover.theme; rewrite Hnone; cbn;
      repeat split. }
  destruct Hloaded as (Hth & Hcfg & Hto & Hloc & Hpend & Hst).
  change (fold_left Clover.step evs loaded) with (Clover.run loaded evs).
  rewrite (clover_idle_run loaded evs Hth Hto Hloc (or_intror Hpend)).
  unfold Clover.render. rewrite (clover_no_themes_no_theme loaded Hth), Hst.
  repeat split; assumption.
Qed.

Lemma no_themes_keeps_loading_witness :
  Clover.render
    (Clover.run Clover.start
       [ Clover.ConfigFetched (Clover.Parsed emptyConfig);
         Clover.KeyDown ArrowRight; Clover.KeyDown Enter ])
  = Clover.LoadingScreen "Loading...".
Proof.
  destruct (no_themes_keeps_loading emptyConfig
              [ Clover.KeyDown ArrowRight; Clover.KeyDown Enter ]) as (H & _);
    [reflexivity |].
  exact H.
Defined.

(** ** Choosing a theme in the options modal *)

Lemma find_findIndex_from {A : Type} (p : A -> bool) (l : list A) (x : A) (k : Z) :
  find p l = Some x ->
  exists j : nat,
    JS.findIndex_from p l k = k + Z.of_nat j /\ nth_error l j = Some x.
Proof.
  revert k. induction l as [| y l IH]; intros k; cbn [find JS.findIndex_from];
    [discriminate |].
  destruct (p y).
  - intros [= ->]. exists 0%nat. split; [lia | reflexivity].
  - intros Hfind. destruct (IH (k + 1) Hfind) as (j & Hj & Hnth).
    exists (S j). split; [lia | exact Hnth].
Qed.

Lemma find_at_findIndex {A : Type} (p : A -> bool) (l : list A) (x : A) :
  find p l = Some x -> JS.at_index l (JS.findIndex p l) = Some x.
Proof.
  intros Hfind. destruct (find_findIndex_from p l x 0 Hfind) as (j & Hj & Hnth).
  unfold JS.findIndex. rewrite Hj. cbn [Z.add]. now rewrite at_index_nat.
Qed.

Lemma find_by_key_nodup {A : Type} (f : A -> string) (l : list A) (k : nat) (x : A) :
  NoDup (map f l) -> nth_error l k = Some x ->
  find (fun y => (f y =? f x)%string) l = Some x.
Proof.
  revert k. induction l as [| y l IH]; intros k Hnd Hnth; [now destruct k |].
  cbn [map] in Hnd. inversion Hnd as [| ? ? Hnotin Hnd']; subst.
  destruct k as [| k]; cbn in Hnth.
  - injection Hnth as ->. cbn [find]. now rewrite String.eqb_refl.
  - cbn [find]. destruct (String.eqb_spec (f y) (f x)) as [E | _].
    + exfalso. apply Hnotin. rewrite E. apply in_map. eapply nth_error_In; eauto.
    + eapply IH; eauto.
Qed.

Lemma clover_set_themeId_same (s : Clover.AppState) :
  Clover.set_themeId (Clover.themeId s) s = s.
Proof. destruct s; reflexivity. Qed.

(** X3.  A click on the option at position [k] of the open modal.  The theme id
    becomes that option's id, the modal closes, and the theme shown is the
    first theme of the list with that id (the option itself when ids are
    distinct).  When the id differs from the current one, the selection
    returns to the first entry of the entries row and the status line
    announces the first entry of the theme shown; when it is the current id,
    nothing but the modal changes.  Enter with the option index at [k] does
    exactly the same. *)
Theorem choosing_a_theme (s : Clover.AppState) (k : nat) (item : Clover.Theme.t) :
  Clover.location s = None ->
  Clover.showOptions s = true ->
  nth_error (Clover.themes s) k = Some item ->
  let chosen := Clover.set_showOptions false (Clover.set_themeId (Clover.Theme.id item) s) in
  let s' := Clover.step s (Clover.ClickOption k) in
  exists shown,
    find (fun t => (Clover.Theme.id t =? Clover.Theme.id item)%string) (Clover.themes s)
    = Some shown
    /\ Clover.theme s' = Some shown
    /\ Clover.themeId s' = Clover.Theme.id item
    /\ Clover.showOptions s' = false
    /\ (Clover.Theme.id item = Clover.themeId s -> s' = Clover.set_showOptions false s)
    /\ (Clover.Theme.id item <> Clover.themeId s ->
        s' = cloverReset (bootFirst shown (Clover.status s)) chosen)
    /\ (Clover.optionIndex s = JS.Int (Z.of_nat k) ->
        Clover.step s (Clover.KeyDown Enter) = s')
    /\ (NoDup (map Clover.Theme.id (Clover.themes s)) -> shown = item).
Proof.
  intros Hloc Hopt Hnth chosen s'.
  assert (Hin : In item (Clover.themes s)) by (eapply nth_error_In; eauto).
  destruct (find (fun t => (Clover.Theme.id t =? Clover.Theme.id item)%string)
                 (Clover.themes s)) as [shown |] eqn:Hfind;
    [| exfalso; apply (find_none _ _ Hfind) in Hin; cbv beta in Hin;
       rewrite String.eqb_refl in Hin; discriminate].
  assert (Hts : exists t0, Clover.theme s = Some t0).
  { unfold Clover.theme.
    destruct (find (fun x => (Clover.Theme.id x =? Clover.themeId s)%string)
                   (Clover.themes s)); [cbn; eauto |].
    destruct (Clover.themes s); [destruct Hin | cbn; eauto]. }
  destruct Hts as [t0 Ht0].
  assert (Hclick : Clover.handle (Clover.ClickOption k) s = chosen).
  { cbn [Clover.handle]. rewrite Ht0. unfold Clover.clickOption.
    now rewrite Hopt, Hnth. }
  assert (Hchosen : Clover.theme chosen = Some shown).
  { unfold Clover.theme, chosen. cbn. now rewrite Hfind. }
  assert (Hs' : s' = Clover.commit s chosen).
  { subst s'. unfold Clover.step. now rewrite Hloc, Hclick. }
  assert (Hsame : Clover.Theme.id item = Clover.themeId s ->
                  s' = Clover.set_showOptions false s).
  { intros E. rewrite Hs'. unfold chosen. rewrite E, clover_set_themeId_same.
    now apply clover_commit_idle. }
  assert (Hdiff : Clover.Theme.id item <> Clover.themeId s ->
                  s' = cloverReset (bootFirst shown (Clover.status s)) chosen).
  { intros N. rewrite Hs'.
    rewrite (clover_commit_change s chosen shown); [reflexivity | | exact Hchosen].
    unfold Clover.resetDeps_changed. apply orb_true_intro. left.
    apply negb_true_iff, String.eqb_neq. unfold chosen. cbn. congruence. }
  exists shown. split; [reflexivity |].
  assert (Hfields : Clover.theme s' = Some shown
                    /\ Clover.themeId s' = Clover.Theme.id item
                    /\ Clover.showOptions s' = false).
  { destruct (string_dec (Clover.Theme.id item) (Clover.themeId s)) as [E | N].
    - rewrite (Hsame E). rewrite <- Hchosen. unfold Clover.theme, chosen. cbn.
      rewrite E. repeat split.
    - rewrite (Hdiff N). rewrite clover_theme_reset. repeat split. exact Hchosen. }
  destruct Hfields as (H1 & H2 & H3).
  repeat (split; [assumption |]).
  split.
  - intros Hoi. fold s'. rewrite Hs'. unfold Clover.step. rewrite Hloc. f_equal.
    cbn [Clover.handle]. rewrite Ht0. unfold Clover.handleKey.
    now rewrite Hopt, Hoi, at_index_nat, Hnth.
  - intros Hnd.
    rewrite (find_by_key_nodup Clover.Theme.id (Clover.themes s) k item Hnd Hnth) in Hfind.
    congruence.
Qed.

(** In the demonstration picker the second option is the theme of the
    "Mojave" folder; a click on it shows that theme with the selection
    reset. *)
Lemma choosing_a_theme_witness :
  Clover.theme (Clover.step demoOptions (Clover.ClickOption 1))
    = Some (Clover.buildCloverTheme "Mojave")
  /\ Clover.status (Clover.step demoOptions (Clover.ClickOption 1)) = "Boot macOS".
Proof.
  destruct (choosing_a_theme demoOptions 1 (Clover.buildCloverTheme "Mojave"))
    as (shown & Hfind & Htheme & _ & _ & _ & Hdiff & _ & Hnd);
    [vm_compute; reflexivity | vm_compute; reflexivity | vm_compute; reflexivity |].
  assert (E : shown = Clover.buildCloverTheme "Mojave").
  { apply Hnd. vm_compute.
    apply NoDup_cons; [intros [H | []]; discriminate |].
    apply NoDup_cons; [intros [] | apply NoDup_nil]. }
  subst shown. split; [exact Htheme |].
  etransitivity; [apply (f_equal Clover.status), Hdiff |];
    vm_compute; [discriminate | reflexivity].
Defined.

(** ** Opening the options modal *)

(** X4.  When the theme id names a theme, opening the modal, with Enter on the
    Options action or with a click on it, highlights the theme that is
    shown. *)
Theorem options_open_on_shown_theme (s : Clover.AppState) (t : Clover.Theme.t) :
  Clover.location s = None ->
  Clover.showOptions s = false ->
  find (fun x => (Clover.Theme.id x =? Clover.themeId s)%string) (Clover.themes s)
  = Some t ->
  Clover.theme s = Some t
  /\ (forall index action,
        nth_error (Clover.actions s) index = Some action ->
        Clover.ConfigAction.id action = "options" ->
        let s' := Clover.step s (Clover.ClickAction index) in
        Clover.showOptions s' = true
        /\ JS.at_index (Clover.themes s') (Clover.optionIndex s') = Some t
        /\ Clover.theme s' = Some t
        /\ Clover.actionIndex s' = JS.Int (Z.of_nat index)
        /\ Clover.activeRow s' = Clover.actions_row)
  /\ (forall action,
        Clover.activeRow s = Clover.actions_row ->
        JS.at_index (Clover.actions s) (Clover.actionIndex s) = Some action ->
        Clover.ConfigAction.id action = "options" ->
        let s' := Clover.step s (Clover.KeyDown Enter) in
        Clover.showOptions s' = true
        /\ JS.at_index (Clover.themes s') (Clover.optionIndex s') = Some t
        /\ Clover.theme s' = Some t
        /\ Clover.actionIndex s' = Clover.actionIndex s
        /\ Clover.activeRow s' = Clover.actions_row).
Proof.
  intros Hloc Hopt Hfind.
  assert (Ht : Clover.theme s = Some t).
  { unfold Clover.theme. now rewrite Hfind. }
  pose proof (find_at_findIndex _ _ _ Hfind) as Hat.
  split; [exact Ht |]. split.
  - intros index action Hnth Hid s'. subst s'.
    destruct (clover_step_same_theme s (Clover.ClickAction index) Hloc) as [st ->];
      cbn [Clover.handle]; rewrite Ht; unfold Clover.clickAction;
      rewrite Hnth, Hid; cbn [String.eqb Ascii.eqb Bool.eqb andb]; try reflexivity.
    cbn. repeat split; assumption.
  - intros action Hrow Hact Hid s'. subst s'.
    destruct (clover_step_same_theme s (Clover.KeyDown Enter) Hloc) as [st ->];
      cbn [Clover.handle]; rewrite Ht; unfold Clover.handleKey;
      rewrite Hopt, Hrow, Hact, Hid; cbn [String.eqb Ascii.eqb Bool.eqb andb];
      try reflexivity.
    cbn. repeat split; assumption.
Qed.

(** In the demonstration picker the Options action is the second action;
    a click on it highlights the classic theme, which is the one shown. *)
Lemma options_open_on_shown_theme_witness :
  Clover.showOptions (Clover.step demoState (Clover.ClickAction 1)) = true
  /\ JS.at_index (Clover.themes (Clover.step demoState (Clover.ClickAction 1)))
       (Clover.optionIndex (Clover.step demoState (Clover.ClickAction 1)))
     = Clover.theme demoState.
Proof.
  destruct (Clover.theme demoState) as [t |] eqn:Ht; [| vm_compute in Ht; discriminate].
  destruct (options_open_on_shown_theme demoState t) as (_ & H & _);
    [vm_compute; reflexivity | vm_compute; reflexivity
     | vm_compute in Ht; injection Ht as <-; vm_compute; reflexivity |].
  destruct (H 1%nat (Clover.ConfigAction.mk "options" "Options" "assets/options.png"))
    as (H1 & H2 & _); [vm_compute; reflexivity | reflexivity |].
  split; assumption.
Defined.

(** ** The status line and the selection *)

Lemma number_eqb_eq (a b : JS.number) : JS.number_eqb a b = true <-> a = b.
Proof.
  destruct a as [x |], b as [y |]; cbn; split; try congruence.
  - intros H. apply Z.eqb_eq in H. now subst.
  - intros [= ->]. apply Z.eqb_refl.
Qed.

Lemma clover_row_eqb_eq (a b : Clover.Row) : Clover.Row_eqb a b = true <-> a = b.
Proof. destruct a, b; cbn; split; congruence. Qed.

(** A step that keeps the theme, leaves the entries row active and has
    changed the entry index or the active row announces the selected
    entry. *)
Lemma clover_status_after_selection (s : Clover.AppState) (ev : Clover.Event)
  (entry : Clover.ConfigEntry.t) :
  Clover.location s = None ->
  let s' := Clover.step s ev in
  Clover.themeId (Clover.handle ev s) = Clover.themeId s ->
  Clover.themes (Clover.handle ev s) = Clover.themes s ->
  Clover.selectedIndex s' <> Clover.selectedIndex s
  \/ Clover.activeRow s' <> Clover.activeRow s ->
  Clover.activeRow s' = Clover.entries_row ->
  JS.at_index (Clover.entries s') (Clover.selectedIndex s') = Some entry ->
  Clover.status s' = ("Boot " ++ Clover.ConfigEntry.name entry)%string.
Proof.
  intros Hloc s' Hid Hth Hchanged Hrow Hentry. subst s'.
  unfold Clover.step in *. rewrite Hloc in *.
  set (next := Clover.handle ev s) in *.
  assert (Hdeps : Clover.resetDeps_changed s next = false).
  { unfold Clover.resetDeps_changed.
    now rewrite Hid, Hth, String.eqb_refl, Nat.eqb_refl. }
  rewrite (clover_commit_same s next Hdeps) in *.
  destruct (clover_runEffects_status s next) as [st Est];
    [now rewrite Hid | now rewrite Hth |].
  assert (Hsel : Clover.selectedIndex (Clover.runEffects s next)
                 = Clover.selectedIndex next) by now rewrite Est.
  assert (Hr : Clover.activeRow (Clover.runEffects s next) = Clover.activeRow next)
    by now rewrite Est.
  assert (Hen : Clover.entries (Clover.runEffects s next) = Clover.entries next)
    by now rewrite Est.
  rewrite Hsel, Hr in Hchanged. rewrite Hr in Hrow. rewrite Hen, Hsel in Hentry.
  clear Est Hsel Hr Hen.
  assert (Hs : Clover.statusDeps_changed s next = true).
  { unfold Clover.statusDeps_changed. apply orb_true_intro. left.
    destruct Hchanged as [N | N].
    - apply orb_true_intro. left. apply negb_true_iff.
      destruct (JS.number_eqb _ _) eqn:E; [| reflexivity].
      apply number_eqb_eq in E. congruence.
    - apply orb_true_intro. right. apply negb_true_iff.
      destruct (Clover.Row_eqb _ _) eqn:E; [| reflexivity].
      apply clover_row_eqb_eq in E. congruence. }
  unfold Clover.runEffects. rewrite Hdeps, Hs. unfold Clover.statusEffect.
  rewrite Hentry, Hrow. cbn [JS.nullish].
  destruct (Clover.theme next) eqn:Ht; [reflexivity |].
  unfold Clover.entries in Hentry. rewrite Ht in Hentry.
  destruct (Clover.selectedIndex next) as [z |]; cbn in Hentry; [| discriminate].
  destruct (z <? 0); [discriminate |]. now destruct (Z.to_nat z).
Qed.

(** X5.  The status line follows the entry selection and not the action
    selection.  Whenever a step that keeps the theme leaves the entries row
    active and has changed the entry index or the active row, the status
    line reads 'Boot ' and the name of the selected entry.  Left and Right
    on the actions row move the action index and leave the status line as
    it was. *)
Theorem status_follows_entries_only (s : Clover.AppState) :
  Clover.location s = None ->
  (forall ev entry,
      let s' := Clover.step s ev in
      Clover.themeId (Clover.handle ev s) = Clover.themeId s ->
      Clover.themes (Clover.handle ev s) = Clover.themes s ->
      Clover.selectedIndex s' <> Clover.selectedIndex s
      \/ Clover.activeRow s' <> Clover.activeRow s ->
      Clover.activeRow s' = Clover.entries_row ->
      JS.at_index (Clover.entries s') (Clover.selectedIndex s') = Some entry ->
      Clover.status s' = ("Boot " ++ Clover.ConfigEntry.name entry)%string)
  /\ (forall key,
      key = ArrowLeft \/ key = ArrowRight ->
      Clover.showOptions s = false ->
      Clover.activeRow s = Clover.actions_row ->
      Clover.status (Clover.step s (Clover.KeyDown key)) = Clover.status s).
Proof.
  intros Hloc. split.
  - intros ev entry. now apply clover_status_after_selection.
  - intros key Hkey Hopt Hrow. unfold Clover.step. rewrite Hloc.
    destruct (Clover.theme s) eqn:Ht.
    + destruct Hkey as [-> | ->]; cbn [Clover.handle]; rewrite Ht;
        unfold Clover.handleKey; rewrite Hopt, Hrow;
        now rewrite clover_commit_idle.
    + destruct Hkey as [-> | ->]; cbn [Clover.handle]; rewrite Ht;
        now rewrite clover_commit_idle.
Qed.

(** Right on the entries row of the demonstration picker announces the
    second entry. *)
Lemma status_follows_entries_only_witness :
  Clover.status (Clover.step demoState (Clover.KeyDown ArrowRight)) = "Boot Windows".
Proof.
  destruct (status_follows_entries_only demoState) as (H & _);
    [vm_compute; reflexivity |].
  apply (H (Clover.KeyDown ArrowRight)
           (Clover.ConfigEntry.mk "win" "Windows" "assets/win.png" None None));
    vm_compute; try reflexivity.
  left. discriminate.
Defined.

(** ** Booting an entry that has a URL *)




(** The options modal with the first theme highlighted: Enter keeps the
    classic theme, Down moves to the second option. *)
Lemma options_modal_keys_witness :
  Clover.themeId (Clover.step demoOptions (Clover.KeyDown Enter)) = "classic"
  /\ Clover.showOptions (Clover.step demoOptions (Clover.KeyDown Escape)) = false
  /\ Clover.optionIndex (Clover.step demoOptions (Clover.KeyDown ArrowDown)) = JS.Int 1.
Proof.
  destruct (Clover.theme demoOptions) as [t |] eqn:Ht;
    [| vm_compute in Ht; discriminate].
  destruct (options_modal_keys demoOptions t) as ((Hid & _) & Hesc & Harrow);
    [vm_compute; reflexivity | vm_compute; reflexivity
     | vm_compute in Ht; injection Ht as <-; vm_compute; reflexivity |].
  split; [| split].
  - etransitivity; [exact Hid |].
    vm_compute in Ht. injection Ht as <-. reflexivity.
  - etransitivity; [apply (f_equal Clover.showOptions), Hesc | reflexivity].
  - etransitivity;
      [apply (f_equal Clover.optionIndex), (Harrow ArrowDown); cbn; tauto |].
    vm_compute. reflexivity.
Defined.

(** The demonstration configuration has nonempty rows throughout; after a
    walk through the picker the entry index is still a position of the
    entries row. *)
Lemma row_indices_stay_in_range_witness :
  cloverRanges
    (Clover.run Clover.start
       [ Clover.ConfigFetched (Clover.Parsed demoConfig);
         Clover.KeyDown ArrowLeft; Clover.KeyDown ArrowDown; Clover.KeyDown ArrowLeft ]).
Proof.
  destruct row_indices_stay_in_range as (H & _).
  apply (H demoConfig
           [ Clover.KeyDown ArrowLeft; Clover.KeyDown ArrowDown; Clover.KeyDown ArrowLeft ]).
  vm_compute. repeat (apply Forall_cons; [split; discriminate |]). apply Forall_nil.
Defined.

(** ** The theme buttons of the static-table picker *)

Lemma legacy_set_themeId_same (s : Legacy.AppState) :
  Legacy.set_themeId (Legacy.themeId s) s = s.
Proof. destruct s; reflexivity. Qed.

(** X10.  A click on a theme button shows the theme with that id.  For another
    theme than the current one the selection returns to the first entry of
    the entries row, the status line announces that entry, and nothing is
    thrown; for the current theme nothing changes. *)
Theorem legacy_theme_button (s : Legacy.AppState) (item : Legacy.ThemeId) :
  let s' := Legacy.step s (Legacy.ClickTheme item) in
  Legacy.Theme.id (Legacy.theme s') = item
  /\ (item = Legacy.themeId s -> s' = s)
  /\ (item <> Legacy.themeId s ->
      exists first rest,
        Legacy.entries s' = first :: rest
        /\ s' = Legacy.mkState item (JS.Int 0)
                  ("Boot " ++ Legacy.Entry.name first)%string
                  Legacy.entries_row (JS.Int 0) (Legacy.errors s)).
Proof.
  intros s'. subst s'. unfold Legacy.step. cbn [Legacy.handle].
  split; [| split].
  - assert (E : Legacy.themeId (Legacy.commit s (Legacy.set_themeId item s)) = item).
    { unfold Legacy.commit, Legacy.runEffects, Legacy.resetEffect, Legacy.statusEffect.
      repeat match goal with
             | |- context [if ?b then _ else _] => destruct b
             | |- context [match ?x with _ => _ end] => destruct x
             end; reflexivity. }
    unfold Legacy.theme. rewrite E. now destruct item.
  - intros ->. rewrite legacy_set_themeId_same.
    unfold Legacy.commit. rewrite (legacy_runEffects_idle s s) by reflexivity.
    now apply legacy_runEffects_idle.
  - intros Hne.
    destruct s as [tid sel st row act er]. cbn in Hne.
    unfold Legacy.commit.
    assert (H1 : exists X,
               Legacy.runEffects (Legacy.mkState tid sel st row act er)
                 (Legacy.set_themeId item (Legacy.mkState tid sel st row act er))
               = Legacy.mkState item (JS.Int 0) X Legacy.entries_row (JS.Int 0) er
               /\ (sel = JS.Int 0 -> row = Legacy.entries_row ->
                   exists first rest,
                     Legacy.entries (Legacy.mkState item sel st row act er) = first :: rest
                     /\ X = ("Boot " ++ Legacy.Entry.name first)%string)).
    { change (Legacy.set_themeId item (Legacy.mkState tid sel st row act er))
        with (Legacy.mkState item sel st row act er).
      unfold Legacy.runEffects. cbn [Legacy.themeId].
      assert (Hb : Legacy.ThemeId_eqb tid item = false) by (destruct tid, item; cbn; congruence).
      rewrite Hb. cbn [negb]. rewrite orb_true_r.
      unfold Legacy.resetEffect, Legacy.statusEffect.
      cbn [Legacy.activeRow Legacy.selectedIndex Legacy.set_themeId].
      destruct (legacy_first_entry (Legacy.mkState item sel st row act er) sel) as [e He].
      destruct (legacy_first_entry (Legacy.mkState item sel st row act er) (JS.Int 0))
        as [e0 He0].
      cbn [Legacy.selectedIndex] in *. rewrite He.
      destruct (JS.at_index _ (JS.Int 0)) as [f |] eqn:Hf; [| discriminate].
      destruct row; eexists; (split; [reflexivity |]); intros Hs Hr; try discriminate.
      subst sel. rewrite Hf in He. cbn in He. injection He as <-.
      cbn in Hf. destruct (Legacy.entries _) as [| x rest]; [discriminate |].
      injection Hf as <-. eauto. }
    destruct H1 as (X & -> & HX).
    change (Legacy.set_themeId item (Legacy.mkState tid sel st row act er))
      with (Legacy.mkState item sel st row act er).
    cbn [Legacy.set_themeId Legacy.themeId Legacy.selectedIndex Legacy.status
         Legacy.activeRow Legacy.actionIndex Legacy.errors].
    unfold Legacy.runEffects. cbn [Legacy.themeId Legacy.selectedIndex Legacy.activeRow].
    rewrite legacy_themeId_eqb_refl. cbn [negb].
    destruct (legacy_first_entry
                (Legacy.mkState item (JS.Int 0) X Legacy.entries_row (JS.Int 0) er)
                (JS.Int 0)) as [e He].
    assert (Hfirst : exists rest,
               Legacy.entries
                 (Legacy.mkState item (JS.Int 0) X Legacy.entries_row (JS.Int 0) er)
               = e :: rest).
    { cbn in He. destruct (Legacy.entries _) as [| x rest]; [discriminate |].
      cbn in He. injection He as <-. eauto. }
    destruct Hfirst as [rest Hrest].
    destruct (JS.number_eqb sel (JS.Int 0)) eqn:Hsel;
      destruct row; cbn [negb orb Legacy.Row_eqb].
    + apply number_eqb_eq in Hsel. destruct (HX Hsel eq_refl) as (f & r & Hf & ->).
      exists f, r. split; [exact Hf | reflexivity].
    + unfold Legacy.statusEffect. cbn [Legacy.activeRow Legacy.selectedIndex].
      rewrite He. exists e, rest. split; [exact Hrest | reflexivity].
    + unfold Legacy.statusEffect. cbn [Legacy.activeRow Legacy.selectedIndex].
      rewrite He. exists e, rest. split; [exact Hrest | reflexivity].
    + unfold Legacy.statusEffect. cbn [Legacy.activeRow Legacy.selectedIndex].
      rewrite He. exists e, rest. split; [exact Hrest | reflexivity].
Qed.

(** From the classic theme with the second action selected, the Modern Dark
    button shows that theme with its first entry announced. *)
Lemma legacy_theme_button_witness :
  Legacy.status
    (Legacy.step
       (Legacy.run Legacy.start [ Legacy.KeyDown ArrowDown; Legacy.KeyDown ArrowRight ])
       (Legacy.ClickTheme Legacy.id_modern_dark))
  = "Boot macOS".
Proof.
  destruct (legacy_theme_button
              (Legacy.run Legacy.start [ Legacy.KeyDown ArrowDown; Legacy.KeyDown ArrowRight ])
              Legacy.id_modern_dark) as (_ & _ & H).
  destruct H as (first & rest & Hentries & E); [vm_compute; discriminate |].
  etransitivity; [apply (f_equal Legacy.status), E |].
  vm_compute in Hentries. injection Hentries as <- _. reflexivity.
Defined.

(** ** Keyboard and clicks on the XP screen *)

Lemma findIndex_from_nodup {A : Type} (f : A -> string) (l : list A) (i : nat)
  (x : A) (k : Z) :
  NoDup (map f l) -> nth_error l i = Some x ->
  JS.findIndex_from (fun y => (f y =? f x)%string) l k = k + Z.of_nat i.
Proof.
  revert i k. induction l as [| y l IH]; intros i k Hnd Hnth; [now destruct i |].
  cbn [map] in Hnd. inversion Hnd as [| ? ? Hnotin Hnd']; subst.
  cbn [JS.findIndex_from]. destruct i as [| i]; cbn in Hnth.
  - injection Hnth as ->. rewrite String.eqb_refl. lia.
  - destruct (String.eqb_spec (f y) (f x)) as [E | _].
    + exfalso. apply Hnotin. rewrite E. apply in_map. eapply nth_error_In; eauto.
    + rewrite (IH i (k + 1) Hnd' Hnth). lia.
Qed.

Lemma findIndex_from_none {A : Type} (p : A -> bool) (l : list A) (k : Z) :
  (forall x, In x l -> p x = false) -> JS.findIndex_from p l k = -1.
Proof.
  revert k. induction l as [| y l IH]; intros k Hnone; [reflexivity |].
  cbn [JS.findIndex_from]. rewrite (Hnone y (or_introl eq_refl)).
  apply IH. intros x Hx. apply Hnone. now right.
Qed.

Lemma xp_commit_same_phase (prev next : XP.ScreenState) :
  XP.phase next = XP.phase prev -> XP.commit prev next = next.
Proof.
  intros E. unfold XP.commit. rewrite E.
  now destruct (XP.phase prev).
Qed.

(** X12.  On the login screen Down and Up move the selection through the user
    list and wrap at its ends; user ids are taken to be distinct, as the
    lookup of the selected user goes by id.  With no user selected, Down
    takes the first user and Up the last; with an empty list both leave the
    selection empty.  Nothing else changes. *)
Theorem login_arrows_cycle_users (p : XP.Props) (s : XP.ScreenState) :
  XP.mounted s = true ->
  XP.phase s = XP.login ->
  let n := List.length (XP.users p) in
  (forall (i : nat) (u sel : XP.User.t),
      NoDup (map XP.User.id (XP.users p)) ->
      nth_error (XP.users p) i = Some u ->
      XP.selectedUser s = Some sel ->
      XP.User.id sel = XP.User.id u ->
      XP.step p s (XP.KeyDown ArrowDown)
      = XP.set_selectedUser (nth_error (XP.users p) ((i + 1) mod n)) s
      /\ XP.step p s (XP.KeyDown ArrowUp)
         = XP.set_selectedUser (nth_error (XP.users p) ((i + n - 1) mod n)) s)
  /\ (XP.selectedUser s = None ->
      XP.step p s (XP.KeyDown ArrowDown)
      = XP.set_selectedUser (nth_error (XP.users p) 0) s
      /\ XP.step p s (XP.KeyDown ArrowUp)
         = XP.set_selectedUser (nth_error (XP.users p) (n - 1)) s).
Proof.
  intros Hm Hph n.
  assert (Hstep : forall key x,
             XP.handleKeyDown p key s = XP.set_selectedUser x s ->
             XP.step p s (XP.KeyDown key) = XP.set_selectedUser x s).
  { intros key x E. unfold XP.step, XP.handle. rewrite Hm, E.
    cbn [XP.mounted XP.set_selectedUser]. rewrite Hm.
    now apply xp_commit_same_phase. }
  split.
  - intros i u sel Hnd Hnth Hsel Hid.
    assert (Hi : (i < n)%nat) by (apply nth_error_Some; congruence).
    split; apply Hstep; unfold XP.handleKeyDown; rewrite Hph, Hsel, Hid;
      rewrite (findIndex_from_nodup XP.User.id (XP.users p) i u 0 Hnd Hnth);
      fold n; f_equal; cbn [Z.add].
    + destruct (Z.geb_spec (Z.of_nat i) (Z.of_nat n - 1)) as [Hge | Hlt].
      * replace (i + 1)%nat with n by lia. rewrite Nat.Div0.mod_same.
        apply (at_index_nat (XP.users p) 0).
      * rewrite Nat.mod_small by lia.
        replace (Z.of_nat i + 1) with (Z.of_nat (i + 1)) by lia. apply at_index_nat.
    + destruct (Z.leb_spec (Z.of_nat i) 0) as [Hle | Hgt].
      * replace i with 0%nat by lia. cbn [Nat.add].
        rewrite Nat.mod_small by lia.
        replace (Z.of_nat n - 1) with (Z.of_nat (n - 1)) by lia. apply at_index_nat.
      * replace (i + n - 1)%nat with (i - 1 + 1 * n)%nat by lia.
        rewrite Nat.Div0.mod_add, Nat.mod_small by lia.
        replace (Z.of_nat i - 1) with (Z.of_nat (i - 1)) by lia. apply at_index_nat.
  - intros Hsel. split; apply Hstep; unfold XP.handleKeyDown; rewrite Hph, Hsel;
      fold n; f_equal.
    + destruct (Z.geb_spec (-1) (Z.of_nat n - 1)) as [Hge | Hlt].
      * apply (at_index_nat (XP.users p) 0).
      * apply (at_index_nat (XP.users p) 0).
    + cbn [Z.leb Z.compare]. destruct n as [| m] eqn:En.
      * unfold n in En. apply length_zero_iff_nil in En. now rewrite En.
      * replace (Z.of_nat (S m) - 1) with (Z.of_nat (S m - 1)) by lia.
        apply at_index_nat.
Qed.

(** With the two default users and Administrator selected, Up wraps to
    Guest. *)
Lemma login_arrows_cycle_users_witness :
  XP.selectedUser (XP.step loginProps demoLogin (XP.KeyDown ArrowUp))
  = Some (XP.User.mk "2" "Guest" "xp/images/user/butterfly.png").
Proof.
  destruct (login_arrows_cycle_users loginProps demoLogin) as (H & _);
    [vm_compute; reflexivity | vm_compute; reflexivity |].
  destruct (H 0%nat administrator administrator) as (_ & Hup);
    [ vm_compute;
      apply NoDup_cons; [intros [E | []]; discriminate |];
      apply NoDup_cons; [intros [] | apply NoDup_nil]
    | reflexivity | vm_compute; reflexivity | reflexivity |].
  etransitivity; [apply (f_equal XP.selectedUser), Hup | reflexivity].
Defined.

Lemma loginTimeouts_schedule (user : XP.User.t) (s : XP.ScreenState) :
  loginTimeouts (XP.schedule (XP.loginTimeout user) s)
  = loginTimeouts s ++ [ XP.loginTimeout user ].
Proof.
  unfold loginTimeouts, XP.schedule. destruct s; cbn. now rewrite filter_app.
Qed.

Lemma xp_commit_login (prev next : XP.ScreenState) :
  XP.phase next = XP.logging_in ->
  XP.commit prev next = next
  \/ XP.commit prev next = XP.set_timers (loginTimeouts next) next.
Proof.
  intros E. unfold XP.commit, XP.setupEffects, XP.cleanupEffects.
  destruct (XP.BootPhase_eqb (XP.phase prev) (XP.phase next)); [now left |].
  right. destruct next; cbn in *. now rewrite E.
Qed.

Lemma loginTimeouts_idem (s : XP.ScreenState) :
  loginTimeouts (XP.set_timers (loginTimeouts s) s) = loginTimeouts s.
Proof.
  unfold loginTimeouts. destruct s as [? ? ? ? ? ? ? ts ? ?]; cbn.
  induction ts as [| t ts IH]; [reflexivity |].
  cbn. destruct (XP.ofEffect t) eqn:E; cbn; [exact IH |]. now rewrite E, IH.
Qed.

(** X13.  A click on a user of the login screen, which stays clickable while a
    login is in progress.  A click on the user that is selected (by id)
    starts the login: the phase becomes logging-in, that user is the one
    being logged in, and one more timeout of [handleLogin] is pending.  A
    click on any other user only selects it.  So two clicks on the same
    user always start a login, and every further click on it starts another
    timeout. *)
Theorem clicking_a_user (p : XP.Props) (s : XP.ScreenState) (i : nat) (u : XP.User.t) :
  XP.mounted s = true ->
  XP.phase s = XP.login \/ XP.phase s = XP.logging_in ->
  nth_error (XP.users p) i = Some u ->
  let s' := XP.step p s (XP.ClickUser i) in
  (forall sel,
      XP.selectedUser s = Some sel -> XP.User.id sel = XP.User.id u ->
      XP.phase s' = XP.logging_in
      /\ XP.loggingInUser s' = Some u
      /\ XP.selectedUser s' = XP.selectedUser s
      /\ loginTimeouts s' = loginTimeouts s ++ [ XP.loginTimeout u ])
  /\ ((forall sel, XP.selectedUser s = Some sel -> XP.User.id sel <> XP.User.id u) ->
      s' = XP.set_selectedUser (Some u) s)
  /\ XP.phase (XP.step p s' (XP.ClickUser i)) = XP.logging_in.
Proof.
  intros Hm Hph Hnth s'.
  assert (Hclick : XP.handle p (XP.ClickUser i) s = XP.handleUserClick u s).
  { unfold XP.handle, XP.clickUser. rewrite Hm, Hnth. now destruct Hph as [-> | ->]. }
  assert (Hlogin : forall sel,
             XP.selectedUser s = Some sel -> XP.User.id sel = XP.User.id u ->
             XP.phase s' = XP.logging_in
             /\ XP.loggingInUser s' = Some u
             /\ XP.selectedUser s' = XP.selectedUser s
             /\ loginTimeouts s' = loginTimeouts s ++ [ XP.loginTimeout u ]
             /\ XP.mounted s' = true).
  { intros sel Hsel Hid. subst s'. unfold XP.step. rewrite Hclick.
    unfold XP.handleUserClick. rewrite Hsel, Hid, String.eqb_refl.
    set (next := XP.handleLogin u s).
    assert (Hnext : XP.phase next = XP.logging_in /\ XP.loggingInUser next = Some u
                    /\ XP.selectedUser next = Some sel /\ XP.mounted next = true
                    /\ loginTimeouts next = loginTimeouts s ++ [ XP.loginTimeout u ]).
    { subst next. unfold XP.handleLogin. rewrite loginTimeouts_schedule.
      unfold loginTimeouts. destruct s; cbn in *. subst. repeat split. }
    destruct Hnext as (N1 & N2 & N3 & N4 & N5). rewrite N4.
    destruct (xp_commit_login s next N1) as [-> | ->].
    - repeat split; assumption.
    - rewrite loginTimeouts_idem.
      destruct next; cbn in *. repeat split; assumption. }
  assert (Hselect : (forall sel, XP.selectedUser s = Some sel ->
                                 XP.User.id sel <> XP.User.id u) ->
                    s' = XP.set_selectedUser (Some u) s).
  { intros Hother. subst s'. unfold XP.step. rewrite Hclick.
    assert (E : XP.handleUserClick u s = XP.set_selectedUser (Some u) s).
    { unfold XP.handleUserClick. destruct (XP.selectedUser s) as [sel |]; [| reflexivity].
      specialize (Hother sel eq_refl). apply String.eqb_neq in Hother.
      now rewrite Hother. }
    rewrite E. cbn [XP.mounted XP.set_selectedUser]. rewrite Hm.
    now apply xp_commit_same_phase. }
  split; [intros sel Hsel Hid; destruct (Hlogin sel Hsel Hid) as (? & ? & ? & ? & _);
          repeat split; assumption |].
  split; [exact Hselect |].
  (* the second click *)
  assert (Hs' : XP.mounted s' = true
                /\ (XP.phase s' = XP.login \/ XP.phase s' = XP.logging_in)
                /\ exists sel, XP.selectedUser s' = Some sel
                               /\ XP.User.id sel = XP.User.id u).
  { destruct (XP.selectedUser s) as [sel |] eqn:Hsel.
    - destruct (String.eqb_spec (XP.User.id sel) (XP.User.id u)) as [Hid | Hne].
      + destruct (Hlogin sel eq_refl Hid) as (H1 & _ & H3 & _ & H5).
        split; [exact H5 |]. split; [now right |]. exists sel. now rewrite H3.
      + rewrite Hselect by (intros ? [= <-]; exact Hne).
        cbn. split; [exact Hm |]. split; [exact Hph |]. now exists u.
    - rewrite Hselect by discriminate.
      cbn. split; [exact Hm |]. split; [exact Hph |]. now exists u. }
  destruct Hs' as (Hm' & Hph' & sel & Hsel' & Hid').
  rewrite xp_step_phase.
  unfold XP.handle, XP.clickUser. rewrite Hm', Hnth.
  assert (E : XP.handleUserClick u s' = XP.handleLogin u s').
  { unfold XP.handleUserClick. now rewrite Hsel', Hid', String.eqb_refl. }
  destruct Hph' as [-> | ->]; rewrite E; unfold XP.handleLogin, XP.schedule;
    destruct s'; reflexivity.
Qed.

(** On the login screen with Administrator selected, a click on
    Administrator starts the login. *)
Lemma clicking_a_user_witness :
  XP.phase (XP.step loginProps demoLogin (XP.ClickUser 0)) = XP.logging_in
  /\ XP.loggingInUser (XP.step loginProps demoLogin (XP.ClickUser 0))
     = Some administrator.
Proof.
  destruct (clicking_a_user loginProps demoLogin 0 administrator) as (H & _);
    [vm_compute; reflexivity | left; vm_compute; reflexivity | reflexivity |].
  destruct (H administrator) as (H1 & H2 & _);
    [vm_compute; reflexivity | reflexivity |].
  split; assumption.
Defined.

(** X14.  Outside the bootloader menu and the login screen the keyboard does
    nothing: during POST, the boot animation, the logging-in pause and on
    the desktop, every key but Escape leaves the state as it is.  Escape,
    in every phase, calls [onExit] when the parent gave one and changes
    nothing else; in particular it stops no timer. *)
Theorem keys_outside_the_menus (p : XP.Props) (s : XP.ScreenState) :
  XP.mounted s = true ->
  (forall key,
      key <> Escape ->
      XP.phase s <> XP.bootloader -> XP.phase s <> XP.login ->
      XP.step p s (XP.KeyDown key) = s)
  /\ XP.step p s (XP.KeyDown Escape)
     = (if XP.onExit p then XP.set_calls (XP.calls s ++ [ XP.calledOnExit ]) s else s).
Proof.
  intros Hm. split.
  - intros key Hkey Hb Hl. unfold XP.step, XP.handle. rewrite Hm.
    assert (E : XP.handleKeyDown p key s = s).
    { unfold XP.handleKeyDown. destruct key; try congruence;
        destruct (XP.phase s); congruence. }
    rewrite E, Hm. now apply xp_commit_same_phase.
  - unfold XP.step, XP.handle. rewrite Hm. cbn [XP.handleKeyDown].
    unfold XP.callOnExit. destruct (XP.onExit p).
    + cbn [XP.mounted XP.set_calls]. rewrite Hm. now apply xp_commit_same_phase.
    + rewrite Hm. now apply xp_commit_same_phase.
Qed.

(** During the logging-in pause Enter does nothing. *)
Lemma keys_outside_the_menus_witness :
  XP.step loginProps demoLoggingIn (XP.KeyDown Enter) = demoLoggingIn.
Proof.
  destruct (keys_outside_the_menus loginProps demoLoggingIn) as (H & _);
    [vm_compute; reflexivity |].
  apply H; [discriminate | vm_compute; discriminate | vm_compute; discriminate].
Defined.

(** ** The users of the XP screen *)

Lemma User_eqb_eq (u v : XP.User.t) :
  XP.Timer_eqb (XP.loginTimeout u) (XP.loginTimeout v) = true -> v = u.
Proof.
  destruct u as [i1 n1 a1], v as [i2 n2 a2]. cbn.
  intros H. apply andb_prop in H as [H Ha]. apply andb_prop in H as [Hi Hn].
  apply String.eqb_eq in Hi, Hn, Ha. now subst.
Qed.

Lemma pending_login_In (user : XP.User.t) (s : XP.ScreenState) :
  XP.pending (XP.loginTimeout user) s = true -> In (XP.loginTimeout user) (XP.timers s).
Proof.
  unfold XP.pending. intros H. apply existsb_exists in H as (x & Hx & Heq).
  destruct x; try discriminate. now rewrite <- (User_eqb_eq _ _ Heq).
Qed.

Ltac users_split := refine (conj _ (conj _ (conj _ (conj _ _)))).

Ltac users_solve Hsel Hlog Htim Hcalls Hphase :=
  first
    [ assumption
    | exact Hsel | exact Hlog | exact Htim | exact Hcalls | exact Hphase
    | now (intros [E | E]; discriminate)
    | now (intros u Hin; apply In_remove_timer in Hin; auto)
    | now (intros u Hin; apply filter_In in Hin as [Hin _]; auto)
    | now (intros _; discriminate)
    | now (intros u [= <-]; eauto using at_index_In, nth_error_In)
    | idtac ].

Lemma usersKnown_handleLogin (p : XP.Props) (u : XP.User.t) (s : XP.ScreenState) :
  usersKnown p s -> In u (XP.users p) -> usersKnown p (XP.handleLogin u s).
Proof.
  intros (Hsel & Hlog & Htim & Hcalls & Hphase) Hu.
  unfold XP.handleLogin, XP.schedule.
  destruct s as [ph su lu mc pl bi cd ts m cs]; cbn in *.
  users_split; users_solve Hsel Hlog Htim Hcalls Hphase.
  - intros v [= <-]. exact Hu.
  - intros v Hin. apply in_app_iff in Hin as [Hin | [[= <-] | []]].
    + split; [apply (Htim v Hin) | discriminate].
    + split; [exact Hu | discriminate].
Qed.

Lemma usersKnown_select (p : XP.Props) (x : option XP.User.t) (s : XP.ScreenState) :
  usersKnown p s -> (forall u, x = Some u -> In u (XP.users p)) ->
  usersKnown p (XP.set_selectedUser x s).
Proof.
  intros (Hsel & Hlog & Htim & Hcalls & Hphase) Hx.
  destruct s as [ph su lu mc pl bi cd ts m cs]; cbn in *.
  users_split; users_solve Hsel Hlog Htim Hcalls Hphase.
Qed.

Lemma usersKnown_callOnExit (p : XP.Props) (s : XP.ScreenState) :
  usersKnown p s -> usersKnown p (XP.callOnExit p s).
Proof.
  intros (Hsel & Hlog & Htim & Hcalls & Hphase). unfold XP.callOnExit.
  destruct (XP.onExit p); [| users_split; assumption].
  destruct s as [ph su lu mc pl bi cd ts m cs]; cbn in *.
  users_split; users_solve Hsel Hlog Htim Hcalls Hphase.
  intros u Hin. apply in_app_iff in Hin as [Hin | [E | []]]; [now auto | discriminate].
Qed.

Lemma usersKnown_handle (p : XP.Props) (ev : XP.Event) (s : XP.ScreenState) :
  usersKnown p s -> usersKnown p (XP.handle p ev s).
Proof.
  intros (Hsel & Hlog & Htim & Hcalls & Hphase).
  destruct ev as [key | index | index | | reached shown | t |].
  7: { unfold XP.handle, XP.unmount, XP.cleanupEffects.
       destruct s as [ph su lu mc pl bi cd ts m cs]; cbn in *.
       destruct m; cbn; users_split; users_solve Hsel Hlog Htim Hcalls Hphase. }
  6: { unfold XP.handle, XP.fire.
       destruct (XP.pending t s) eqn:Hp; [| users_split; assumption].
       destruct t.
       - users_split; assumption.
       - unfold XP.addLines, XP.clear.
         destruct s as [ph su lu mc pl bi cd ts m cs]; cbn in *.
         users_split; users_solve Hsel Hlog Htim Hcalls Hphase.
       - unfold XP.clear.
         destruct s as [ph su lu mc pl bi cd ts m cs]; cbn in *.
         users_split; users_solve Hsel Hlog Htim Hcalls Hphase.
       - unfold XP.countdownTick, XP.clear.
         destruct s as [ph su lu mc pl bi cd ts m cs]; cbn in *.
         destruct (cd <=? 1); cbn;
           users_split; users_solve Hsel Hlog Htim Hcalls Hphase.
       - unfold XP.clear.
         destruct s as [ph su lu mc pl bi cd ts m cs]; cbn in *.
         users_split; users_solve Hsel Hlog Htim Hcalls Hphase.
       - apply pending_login_In in Hp. destruct (Htim user Hp) as [Hu Hl].
         unfold XP.loginDone, XP.clear.
         destruct s as [ph su lu mc pl bi cd ts m cs]; cbn in *.
         destruct m, (XP.onLogin p); cbn;
           users_split; users_solve Hsel Hlog Htim Hcalls Hphase;
           try (intros u Hin; apply in_app_iff in Hin as [Hin | [[= <-] | []]]; now auto);
           try (intros _; assumption). }
  5: { unfold XP.handle, XP.pending, XP.memoryTick, XP.clear.
       destruct s as [ph su lu mc pl bi cd ts m cs]; cbn in *.
       destruct (existsb _ ts), reached; cbn;
         users_split; users_solve Hsel Hlog Htim Hcalls Hphase. }
  4: { assert (Hs : usersKnown p s) by (users_split; assumption).
       unfold XP.handle, XP.clickExit.
       destruct (XP.mounted s); [| exact Hs].
       destruct (XP.phase s); try exact Hs.
       now apply usersKnown_callOnExit. }
  - assert (Hs : usersKnown p s) by (users_split; assumption).
    unfold XP.handle. destruct (XP.mounted s); [| exact Hs].
    unfold XP.handleKeyDown.
    destruct key; try (now apply usersKnown_callOnExit);
      destruct (XP.phase s) eqn:Hph; try exact Hs;
      try (apply usersKnown_select; [exact Hs | intros u Hu; eapply at_index_In; eauto]).
    all: try (destruct s as [ph su lu mc pl bi cd ts m cs]; cbn in *;
              users_split; users_solve Hsel Hlog Htim Hcalls Hphase; fail).
    destruct (XP.selectedUser s) as [sel |] eqn:Hsu; [| exact Hs].
    apply usersKnown_handleLogin; [exact Hs | now apply Hsel].
  - unfold XP.handle, XP.clickBootOption.
    destruct s as [ph su lu mc pl bi cd ts m cs]; cbn in *.
    destruct m, ph, (nth_error XP.bootOptions index); cbn;
      users_split; users_solve Hsel Hlog Htim Hcalls Hphase.
  - assert (Hs : usersKnown p s) by (users_split; assumption).
    unfold XP.handle, XP.clickUser. destruct (XP.mounted s); [| exact Hs].
    destruct (nth_error (XP.users p) index) as [u |] eqn:Hnth;
      [| destruct (XP.phase s); exact Hs].
    assert (Hu : In u (XP.users p)) by (eapply nth_error_In; eauto).
    assert (Hclick : usersKnown p (XP.handleUserClick u s)).
    { unfold XP.handleUserClick.
      destruct (XP.selectedUser s) as [sel |];
        [destruct (String.eqb _ _) |];
        [now apply usersKnown_handleLogin | |];
        (apply usersKnown_select; [exact Hs | now intros v [= <-]]). }
    destruct (XP.phase s); first [exact Hs | exact Hclick].
Qed.

Lemma usersKnown_commit (p : XP.Props) (prev next : XP.ScreenState) :
  usersKnown p next -> usersKnown p (XP.commit prev next).
Proof.
  intros (Hsel & Hlog & Htim & Hcalls & Hphase).
  unfold XP.commit, XP.setupEffects, XP.cleanupEffects, XP.schedule.
  destruct (XP.BootPhase_eqb _ _); [users_split; assumption |].
  destruct next as [ph su lu mc pl bi cd ts m cs]; cbn in *.
  destruct ph; unfold XP.set_timers, XP.set_postLines; cbn;
    users_split; users_solve Hsel Hlog Htim Hcalls Hphase;
    intros u Hin; cbn in Hin; rewrite ?in_app_iff in Hin; cbn in Hin; cbn;
    repeat match goal with
           | H : _ \/ _ |- _ => destruct H
           | H : False |- _ => destruct H
           end; try discriminate;
    match goal with
    | H : In _ (filter _ _) |- _ => apply filter_In in H as [H _]; now auto
    end.
Qed.

Lemma usersKnown_run (p : XP.Props) (evs : list XP.Event) :
  usersKnown p (XP.run p XP.start evs).
Proof.
  induction evs as [| ev evs IH] using rev_ind.
  - users_split; cbn; try discriminate.
    + intros u [E | [E | [E | []]]]; discriminate.
    + intros u [].
    + intros [E | E]; discriminate.
  - rewrite xp_run_snoc. unfold XP.step.
    destruct (XP.mounted _); [apply usersKnown_commit |]; now apply usersKnown_handle.
Qed.

(** X15.  Every user the screen deals with comes from the [users] prop: the
    selected user, the user being logged in, and every user reported to
    [onLogin].  Whenever the desktop is reached a login was started before,
    so its heading greets a user of the list by name. *)
Theorem desktop_greets_a_known_user (p : XP.Props) (evs : list XP.Event) :
  let s := XP.run p XP.start evs in
  (forall u, XP.selectedUser s = Some u -> In u (XP.users p))
  /\ (forall u, In (XP.calledOnLogin u) (XP.calls s) -> In u (XP.users p))
  /\ (XP.phase s = XP.desktop ->
      exists u, In u (XP.users p)
                /\ XP.loggingInUser s = Some u
                /\ XP.render s = XP.DesktopScreen ("Welcome, " ++ XP.User.name u)%string).
Proof.
  intros s. destruct (usersKnown_run p evs) as (Hsel & Hlog & _ & Hcalls & Hphase).
  fold s in Hsel, Hlog, Hcalls, Hphase.
  split; [exact Hsel |]. split; [exact Hcalls |].
  intros Hd. specialize (Hphase (or_intror Hd)).
  destruct (XP.loggingInUser s) as [u |] eqn:Hu; [| congruence].
  exists u. split; [now apply Hlog |]. split; [reflexivity |].
  unfold XP.render. now rewrite Hd, Hu.
Qed.

(** The whole walk to the desktop with the default users: the heading
    greets the Administrator. *)
Lemma desktop_greets_a_known_user_witness :
  XP.render
    (XP.run loginProps XP.start
       [ XP.TimerFires XP.transitionTimeout; XP.KeyDown Enter;
         XP.TimerFires XP.bootTimer; XP.KeyDown ArrowDown; XP.KeyDown Enter;
         XP.TimerFires (XP.loginTimeout administrator) ])
  = XP.DesktopScreen "Welcome, Administrator".
Proof.
  destruct (desktop_greets_a_known_user loginProps
              [ XP.TimerFires XP.transitionTimeout; XP.KeyDown Enter;
                XP.TimerFires XP.bootTimer; XP.KeyDown ArrowDown; XP.KeyDown Enter;
                XP.TimerFires (XP.loginTimeout administrator) ]) as (_ & _ & H).
  destruct H as (u & _ & Hu & Hr); [vm_compute; reflexivity |].
  etransitivity; [exact Hr |].
  vm_compute in Hu. injection Hu as <-. reflexivity.
Defined.

(** ** The timers of the XP screen *)

Lemma xp_set_countdown_same (s : XP.ScreenState) :
  XP.set_countdown (XP.countdown s) s = s.
Proof. destruct s; reflexivity. Qed.

Lemma loginTimeouts_remove_effect (t : XP.Timer) (ts : list XP.Timer) :
  XP.ofEffect t = true ->
  filter (fun x => negb (XP.ofEffect x)) (XP.remove_timer t ts)
  = filter (fun x => negb (XP.ofEffect x)) ts.
Proof.
  intros He. induction ts as [| x ts IH]; [reflexivity |].
  cbn [XP.remove_timer]. destruct (XP.Timer_eqb t x) eqn:E.
  - rewrite (Timer_eqb_effect t x E He). cbn. now rewrite He.
  - cbn. now rewrite IH.
Qed.

Lemma countdown_tick (p : XP.Props) (s : XP.ScreenState) :
  XP.mounted s = true -> XP.phase s = XP.bootloader ->
  XP.pending XP.countdownInterval s = true ->
  XP.step p s (XP.TimerFires XP.countdownInterval)
  = if XP.countdown s <=? 1
    then XP.mkState XP.boot (XP.selectedUser s) (XP.loggingInUser s) (XP.memoryCount s)
           (XP.postLines s) (XP.bootloaderIndex s) 0
           (loginTimeouts s ++ [ XP.bootTimer ]) true (XP.calls s)
    else XP.set_countdown (XP.countdown s - 1) s.
Proof.
  intros Hm Hph Hp. unfold XP.step, XP.handle, XP.fire. rewrite Hp.
  unfold XP.countdownTick. destruct (XP.countdown s <=? 1).
  - unfold XP.commit, XP.setupEffects, XP.cleanupEffects, XP.clear, XP.schedule,
      loginTimeouts.
    destruct s as [ph su lu mc pl bi cd ts m cs]; cbn in *. subst. cbn.
    now rewrite loginTimeouts_remove_effect.
  - cbn [XP.mounted XP.set_countdown]. rewrite Hm. now apply xp_commit_same_phase.
Qed.

(** X16.  The countdown of the bootloader menu.  With [n + 1] seconds on the
    display, each of the next [n] ticks of the interval takes one second
    off and changes nothing else; the tick after that one shows the boot
    animation: the countdown is 0, the interval is cleared and the boot
    timer is the only effect timer pending. *)
Theorem countdown_runs_out (p : XP.Props) (s : XP.ScreenState) (n : nat) :
  XP.mounted s = true ->
  XP.phase s = XP.bootloader ->
  XP.pending XP.countdownInterval s = true ->
  XP.countdown s = Z.of_nat (S n) ->
  let ticks k := repeat (XP.TimerFires XP.countdownInterval) k in
  (forall k, (k <= n)%nat ->
             XP.run p s (ticks k) = XP.set_countdown (Z.of_nat (S n) - Z.of_nat k) s)
  /\ XP.run p s (ticks (S n))
     = XP.mkState XP.boot (XP.selectedUser s) (XP.loggingInUser s) (XP.memoryCount s)
         (XP.postLines s) (XP.bootloaderIndex s) 0
         (loginTimeouts s ++ [ XP.bootTimer ]) true (XP.calls s)
  /\ XP.render (XP.run p s (ticks (S n))) = XP.BootScreen.
Proof.
  intros Hm Hph Hp Hcd ticks.
  assert (Hticks : forall k, ticks (S k) = ticks k ++ [ XP.TimerFires XP.countdownInterval ]).
  { intros k. unfold ticks. cbn [repeat]. apply repeat_cons. }
  assert (Hk : forall k, (k <= n)%nat ->
             XP.run p s (ticks k) = XP.set_countdown (Z.of_nat (S n) - Z.of_nat k) s).
  { induction k as [| k IH]; intros Hle.
    - cbn [ticks repeat XP.run fold_left]. rewrite Z.sub_0_r, <- Hcd.
      symmetry. apply xp_set_countdown_same.
    - rewrite Hticks, xp_run_snoc, IH by lia.
      rewrite countdown_tick; [| exact Hm | exact Hph | exact Hp].
      cbn [XP.countdown XP.set_countdown].
      destruct (Z.leb_spec (Z.of_nat (S n) - Z.of_nat k) 1); [lia |].
      destruct s as [ph su lu mc pl bi cd ts m cs]. unfold XP.set_countdown.
      cbn [XP.phase XP.selectedUser XP.loggingInUser XP.memoryCount XP.postLines
           XP.bootloaderIndex XP.countdown XP.timers XP.mounted XP.calls].
      f_equal. lia. }
  assert (Hlast : XP.run p s (ticks (S n))
                  = XP.mkState XP.boot (XP.selectedUser s) (XP.loggingInUser s)
                      (XP.memoryCount s) (XP.postLines s) (XP.bootloaderIndex s) 0
                      (loginTimeouts s ++ [ XP.bootTimer ]) true (XP.calls s)).
  { rewrite Hticks, xp_run_snoc, Hk by lia.
    rewrite countdown_tick; [| exact Hm | exact Hph | exact Hp].
    cbn [XP.countdown XP.set_countdown].
    destruct (Z.leb_spec (Z.of_nat (S n) - Z.of_nat n) 1); [| lia].
    destruct s; reflexivity. }
  split; [exact Hk |]. split; [exact Hlast |]. now rewrite Hlast.
Qed.

(** The bootloader menu starts with 5 on the display: five ticks lead to
    the boot animation. *)
Lemma countdown_runs_out_witness :
  XP.phase
    (XP.run XP.defaultProps demoBootloader
       (repeat (XP.TimerFires XP.countdownInterval) 4)) = XP.bootloader
  /\ XP.render
       (XP.run XP.defaultProps demoBootloader
          (repeat (XP.TimerFires XP.countdownInterval) 5)) = XP.BootScreen.
Proof.
  destruct (countdown_runs_out XP.defaultProps demoBootloader 4) as (Hk & _ & Hr);
    [vm_compute; reflexivity | vm_compute; reflexivity | vm_compute; reflexivity
     | vm_compute; reflexivity |].
  split; [| exact Hr].
  etransitivity; [apply (f_equal XP.phase), (Hk 4%nat); lia |].
  vm_compute. reflexivity.
Defined.

(** X17.  The cleanups of the three timer effects do their work: in every state
    the screen can reach, a pending timer of an effect belongs to the effect
    of the current phase and the component is mounted.  So a POST timer, the
    countdown or the boot timer left over from an earlier phase never
    fires: such an event finds nothing pending and changes nothing. *)
Theorem effect_timers_follow_the_phase (p : XP.Props) (evs : list XP.Event) :
  let s := XP.run p XP.start evs in
  (forall t, In t (XP.timers s) -> XP.ofEffect t = true ->
             XP.mounted s = true /\ timer_fits (XP.phase s) t = true)
  /\ (forall t, XP.ofEffect t = true ->
                XP.mounted s = false \/ timer_fits (XP.phase s) t = false ->
                XP.step p s (XP.TimerFires t) = s)
  /\ (forall reached shown,
        XP.mounted s = false \/ XP.phase s <> XP.post ->
        XP.step p s (XP.MemoryTick reached shown) = s).
Proof.
  intros s. pose proof (xp_run_fits p evs) as Hfit. fold s in Hfit.
  assert (Hnot : forall t, XP.ofEffect t = true ->
                 XP.mounted s = false \/ timer_fits (XP.phase s) t = false ->
                 XP.pending t s = false).
  { intros t He Hstale. destruct (XP.pending t s) eqn:Hp; [| reflexivity].
    destruct (pending_effect_phase t s Hfit Hp He) as [Hm Hf].
    destruct Hstale; congruence. }
  assert (Hidle : forall next, next = s ->
                  (if XP.mounted next then XP.commit s next else next) = s).
  { intros next ->. destruct (XP.mounted s); [| reflexivity].
    now apply xp_commit_same_phase. }
  split; [exact Hfit |]. split.
  - intros t He Hstale. unfold XP.step. apply Hidle.
    unfold XP.handle, XP.fire. now rewrite (Hnot t He Hstale).
  - intros reached shown Hstale. unfold XP.step. apply Hidle.
    unfold XP.handle. rewrite (Hnot XP.memoryInterval eq_refl); [reflexivity |].
    destruct Hstale as [Hm | Hph]; [now left | right].
    destruct (XP.phase s); cbn; congruence.
Qed.

(** Once Enter has left the bootloader menu, the countdown interval of the
    menu is gone: a tick of it changes nothing. *)
Lemma effect_timers_follow_the_phase_witness :
  XP.step XP.defaultProps
    (XP.run XP.defaultProps XP.start
       [ XP.TimerFires XP.transitionTimeout; XP.KeyDown Enter ])
    (XP.TimerFires XP.countdownInterval)
  = XP.run XP.defaultProps XP.start
      [ XP.TimerFires XP.transitionTimeout; XP.KeyDown Enter ].
Proof.
  destruct (effect_timers_follow_the_phase XP.defaultProps
              [ XP.TimerFires XP.transitionTimeout; XP.KeyDown Enter ])
    as (_ & H & _).
  apply H; [reflexivity | right; vm_compute; reflexivity].
Defined.

(** ** What the XP screen does on its own *)

Lemma untouched_step (p : XP.Props) (s : XP.ScreenState) (ev : XP.Event) :
  untouched s -> isTimerEvent ev = true -> untouched (XP.step p s ev).
Proof.
  intros (Hlt & Hlu & Hsu & Hcalls & Hm & Hrank) Hev.
  assert (Hnologin : forall u, XP.pending (XP.loginTimeout u) s = false).
  { intros u. destruct (XP.pending _ s) eqn:Hp; [| reflexivity].
    apply pending_login_In in Hp.
    assert (Hin : In (XP.loginTimeout u) (loginTimeouts s)).
    { unfold loginTimeouts. apply filter_In. now split. }
    rewrite Hlt in Hin. destruct Hin. }
  unfold untouched, loginTimeouts in *.
  destruct ev as [key | index | index | | reached shown | t |]; try discriminate.
  - unfold XP.step, XP.handle, XP.memoryTick, XP.clear, XP.commit.
    destruct (XP.pending XP.memoryInterval s), reached;
      destruct s as [ph su lu mc pl bi cd ts m cs]; cbn in *; subst;
      rewrite ?loginTimeouts_remove_effect by reflexivity;
      destruct ph; cbn in *; repeat split; try assumption; try lia;
      rewrite loginTimeouts_remove_effect by reflexivity; assumption.
  - unfold XP.step, XP.handle, XP.fire.
    destruct (XP.pending t s) eqn:Hp.
    + destruct t; [| | | | | rewrite Hnologin in Hp; discriminate];
        clear Hp Hnologin;
        unfold XP.addLines, XP.countdownTick, XP.clear, XP.commit, XP.setupEffects,
          XP.cleanupEffects, XP.schedule;
        destruct s as [ph su lu mc pl bi cd ts m cs]; cbn in *; subst;
        try destruct (cd <=? 1); cbn;
        destruct ph; cbn in *;
        unfold XP.set_timers, XP.set_postLines; cbn;
        rewrite ?filter_app, ?loginTimeouts_remove_effect by reflexivity;
        cbn; rewrite ?Hlt; cbn;
        repeat split; try assumption; try reflexivity; try lia.
    + rewrite Hm, xp_commit_same_phase by reflexivity.
      repeat split; assumption.
Qed.

(** X18.  Timers alone take the screen from POST through the bootloader menu and
    the boot animation to the login screen, and no further: without a key
    or a click no login starts, no callback is called, and neither the
    logging-in pause nor the desktop is ever shown. *)
Theorem timers_alone_stop_at_login (p : XP.Props) (evs : list XP.Event) :
  forallb isTimerEvent evs = true ->
  let s := XP.run p XP.start evs in
  (phaseRank (XP.phase s) <= phaseRank XP.login)%nat
  /\ XP.loggingInUser s = None
  /\ XP.selectedUser s = None
  /\ XP.calls s = []
  /\ loginTimeouts s = []
  /\ (forall heading, XP.render s <> XP.DesktopScreen heading).
Proof.
  intros Hevs s.
  assert (H : untouched s).
  { subst s. induction evs as [| ev evs IH] using rev_ind.
    - repeat split. cbn. lia.
    - rewrite forallb_app in Hevs. apply andb_prop in Hevs as [Hevs Hev].
      cbn in Hev. rewrite andb_true_r in Hev.
      rewrite xp_run_snoc. apply untouched_step; auto. }
  destruct H as (Hlt & Hlu & Hsu & Hcalls & Hm & Hrank).
  repeat split; try assumption.
  intros heading. unfold XP.render.
  destruct (XP.phase s); cbn in Hrank; try discriminate. lia.
Qed.

(** All timers of the nominal run fire: POST ends, the countdown runs out,
    the boot animation ends; the screen waits at the login screen. *)
Lemma timers_alone_stop_at_login_witness :
  let s :=
    XP.run XP.defaultProps XP.start
      (XP.TimerFires XP.transitionTimeout
       :: repeat (XP.TimerFires XP.countdownInterval) 5
       ++ [ XP.TimerFires XP.bootTimer; XP.TimerFires XP.bootTimer ]) in
  XP.phase s = XP.login /\ XP.loggingInUser s = None /\ XP.calls s = [].
Proof.
  intros s.
  destruct (timers_alone_stop_at_login XP.defaultProps
              (XP.TimerFires XP.transitionTimeout
               :: repeat (XP.TimerFires XP.countdownInterval) 5
               ++ [ XP.TimerFires XP.bootTimer; XP.TimerFires XP.bootTimer ]))
    as (_ & Hlu & _ & Hcalls & _); [reflexivity |].
  split; [vm_compute; reflexivity | split; assumption].
Defined.
(** ** Clicks on the rows of the picker *)

(** X7.  A click on an entry selects it and makes the entries row active; the
    status line then announces it, except that a click on the entry already
    selected on the active entries row changes nothing at all.  A click on
    an action selects it, makes the actions row active and sets the status
    line to its name; the Options action opens the modal as well.  Neither
    click moves the selection of the other row. *)
Theorem clicking_a_row (s : Clover.AppState) (k : nat) :
  Clover.location s = None ->
  (forall entry,
      nth_error (Clover.entries s) k = Some entry ->
      let s' := Clover.step s (Clover.ClickEntry k) in
      Clover.selectedIndex s' = JS.Int (Z.of_nat k)
      /\ Clover.activeRow s' = Clover.entries_row
      /\ Clover.actionIndex s' = Clover.actionIndex s
      /\ Clover.showOptions s' = Clover.showOptions s
      /\ (Clover.selectedIndex s <> JS.Int (Z.of_nat k)
          \/ Clover.activeRow s <> Clover.entries_row ->
          Clover.status s' = ("Boot " ++ Clover.ConfigEntry.name entry)%string)
      /\ (Clover.selectedIndex s = JS.Int (Z.of_nat k) ->
          Clover.activeRow s = Clover.entries_row -> s' = s))
  /\ (forall action,
      nth_error (Clover.actions s) k = Some action ->
      let s' := Clover.step s (Clover.ClickAction k) in
      Clover.actionIndex s' = JS.Int (Z.of_nat k)
      /\ Clover.activeRow s' = Clover.actions_row
      /\ Clover.selectedIndex s' = Clover.selectedIndex s
      /\ Clover.status s' = Clover.ConfigAction.name action
      /\ Clover.showOptions s'
         = ((Clover.ConfigAction.id action =? "options")%string || Clover.showOptions s)).
Proof.
  intros Hloc. split.
  - intros entry Hnth s'.
    assert (Ht : exists t, Clover.theme s = Some t).
    { unfold Clover.entries in Hnth. destruct (Clover.theme s); [eauto | now destruct k]. }
    destruct Ht as [t Ht].
    assert (Hh : Clover.handle (Clover.ClickEntry k) s
                 = Clover.set_selectedIndex (JS.Int (Z.of_nat k))
                     (Clover.set_activeRow Clover.entries_row s)).
    { cbn [Clover.handle]. rewrite Ht. unfold Clover.clickEntry. now rewrite Hnth. }
    destruct (clover_step_same_theme s (Clover.ClickEntry k) Hloc) as [st Est];
      [now rewrite Hh | now rewrite Hh |].
    fold s' in Est. rewrite Hh in Est.
    assert (Hfields : Clover.selectedIndex s' = JS.Int (Z.of_nat k)
                      /\ Clover.activeRow s' = Clover.entries_row
                      /\ Clover.actionIndex s' = Clover.actionIndex s
                      /\ Clover.showOptions s' = Clover.showOptions s).
    { rewrite Est. repeat split. }
    destruct Hfields as (F1 & F2 & F3 & F4).
    repeat (split; [assumption |]). split.
    + intros Hchanged.
      apply (clover_status_after_selection s (Clover.ClickEntry k) entry Hloc); fold s'.
      * now rewrite Hh.
      * now rewrite Hh.
      * rewrite F1, F2. destruct Hchanged as [N | N]; [left | right]; congruence.
      * exact F2.
      * rewrite F1, at_index_nat, Est. exact Hnth.
    + intros Hsel Hrow. subst s'. unfold Clover.step. rewrite Hloc, Hh.
      assert (E : Clover.set_selectedIndex (JS.Int (Z.of_nat k))
                    (Clover.set_activeRow Clover.entries_row s) = s).
      { rewrite <- Hsel, <- Hrow. destruct s; reflexivity. }
      rewrite E. now apply clover_commit_idle.
  - intros action Hnth s'.
    assert (Ht : exists t, Clover.theme s = Some t).
    { unfold Clover.actions in Hnth. destruct (Clover.theme s); [eauto | now destruct k]. }
    destruct Ht as [t Ht].
    subst s'. unfold Clover.step. rewrite Hloc. cbn [Clover.handle]. rewrite Ht.
    unfold Clover.clickAction. rewrite Hnth.
    set (next := if (Clover.ConfigAction.id action =? "options")%string then _ else _).
    assert (Hnext : Clover.themeId next = Clover.themeId s
                    /\ Clover.themes next = Clover.themes s
                    /\ Clover.activeRow next = Clover.actions_row
                    /\ Clover.actionIndex next = JS.Int (Z.of_nat k)
                    /\ Clover.selectedIndex next = Clover.selectedIndex s
                    /\ Clover.status next = Clover.ConfigAction.name action
                    /\ Clover.showOptions next
                       = ((Clover.ConfigAction.id action =? "options")%string
                          || Clover.showOptions s)).
    { subst next. destruct (Clover.ConfigAction.id action =? "options")%string;
        repeat split. }
    destruct Hnext as (N1 & N2 & N3 & N4 & N5 & N6 & N7).
    assert (Hdeps : Clover.resetDeps_changed s next = false).
    { unfold Clover.resetDeps_changed. now rewrite N1, N2, String.eqb_refl, Nat.eqb_refl. }
    rewrite (clover_commit_same s next Hdeps).
    assert (E : Clover.runEffects s next = next).
    { unfold Clover.runEffects. rewrite Hdeps. unfold Clover.statusEffect. rewrite N3.
      destruct (Clover.statusDeps_changed s next); [| reflexivity].
      destruct (Clover.theme next); [| reflexivity].
      now destruct (JS.nullish _ _). }
    rewrite E. repeat split; assumption.
Qed.

(** A click on the second entry of the demonstration picker announces
    Windows. *)
Lemma clicking_a_row_witness :
  Clover.status (Clover.step demoState (Clover.ClickEntry 1)) = "Boot Windows"
  /\ Clover.selectedIndex (Clover.step demoState (Clover.ClickEntry 1)) = JS.Int 1.
Proof.
  destruct (clicking_a_row demoState 1) as (H & _); [vm_compute; reflexivity |].
  destruct (H (Clover.ConfigEntry.mk "win" "Windows" "assets/win.png" None None))
    as (H1 & _ & _ & _ & H5 & _); [vm_compute; reflexivity |].
  split; [apply H5; left; vm_compute; discriminate | exact H1].
Defined.
(** ** The lines of the POST screen *)

Lemma drive_count_remove (t : XP.Timer) (l : list XP.Timer) :
  XP.Timer_eqb t XP.addLinesTimeout = false ->
  List.length (filter (XP.Timer_eqb XP.addLinesTimeout) (XP.remove_timer t l))
  = List.length (filter (XP.Timer_eqb XP.addLinesTimeout) l).
Proof.
  intros Ht. induction l as [| x l IH]; [reflexivity |].
  cbn [XP.remove_timer]. destruct (XP.Timer_eqb t x) eqn:E.
  - destruct t, x; try discriminate; reflexivity.
  - cbn [filter]. destruct (XP.Timer_eqb XP.addLinesTimeout x); cbn [List.length];
      now rewrite IH.
Qed.

Lemma drive_count_fired (l : list XP.Timer) :
  existsb (XP.Timer_eqb XP.addLinesTimeout) l = true ->
  List.length (filter (XP.Timer_eqb XP.addLinesTimeout) l)
  = S (List.length (filter (XP.Timer_eqb XP.addLinesTimeout)
                      (XP.remove_timer XP.addLinesTimeout l))).
Proof.
  induction l as [| x l IH]; [discriminate |].
  cbn [existsb XP.remove_timer filter].
  destruct (XP.Timer_eqb XP.addLinesTimeout x) eqn:E; [reflexivity |].
  cbn [orb filter]. rewrite E. exact IH.
Qed.

Lemma drive_count_pending (l : list XP.Timer) :
  existsb (XP.Timer_eqb XP.addLinesTimeout) l
  = negb (List.length (filter (XP.Timer_eqb XP.addLinesTimeout) l) =? 0)%nat.
Proof.
  induction l as [| x l IH]; [reflexivity |].
  cbn [existsb filter]. now destruct (XP.Timer_eqb XP.addLinesTimeout x).
Qed.

Lemma drive_count_cleanup (l : list XP.Timer) :
  List.length (filter (XP.Timer_eqb XP.addLinesTimeout)
                 (filter (fun t => negb (XP.ofEffect t)) l)) = 0%nat.
Proof.
  induction l as [| x l IH]; [reflexivity |].
  cbn [filter]. destruct x; cbn; exact IH.
Qed.

Lemma drive_count_app (l l' : list XP.Timer) :
  List.length (filter (XP.Timer_eqb XP.addLinesTimeout) (l ++ l'))
  = (List.length (filter (XP.Timer_eqb XP.addLinesTimeout) l)
     + List.length (filter (XP.Timer_eqb XP.addLinesTimeout) l'))%nat.
Proof. now rewrite filter_app, length_app. Qed.

(** Apart from the timeout itself, no handler touches the lines or the
    timeout, unless it leaves the POST screen or unmounts the component. *)
Lemma post_lines_frame (p : XP.Props) (ev : XP.Event) (s : XP.ScreenState) :
  ev <> XP.TimerFires XP.addLinesTimeout ->
  let next := XP.handle p ev s in
  XP.postLines next = XP.postLines s
  /\ (driveTimeouts next <= driveTimeouts s)%nat
  /\ (XP.mounted next = true -> XP.phase next = XP.post ->
      driveTimeouts next = driveTimeouts s
      /\ XP.mounted s = true /\ XP.phase s = XP.post).
Proof.
  intros Hev next. subst next. unfold driveTimeouts.
  destruct s as [ph su lu mc pl bi cd ts m cs].
  destruct ev as [key | index | index | | reached shown | t |]; cbn [XP.handle].
  - destruct m; cbn [XP.mounted]; [| cbn; intuition lia].
    unfold XP.handleKeyDown, XP.callOnExit, XP.handleLogin, XP.schedule.
    destruct key, ph; cbn; try destruct (XP.onExit p); try destruct su; cbn;
      rewrite ?drive_count_app; cbn; intuition (try discriminate; try lia).
  - unfold XP.clickBootOption.
    destruct m, ph, (nth_error XP.bootOptions index); cbn;
      intuition (try discriminate; try lia).
  - unfold XP.clickUser, XP.handleUserClick, XP.handleLogin, XP.schedule.
    destruct m, ph, (nth_error (XP.users p) index) as [u |]; cbn;
      try (destruct su as [sel |]; cbn; try destruct (String.eqb _ _)); cbn;
      rewrite ?drive_count_app; cbn; intuition (try discriminate; try lia).
  - unfold XP.clickExit, XP.callOnExit.
    destruct m, ph; cbn; try destruct (XP.onExit p); cbn;
      intuition (try discriminate; try lia).
  - unfold XP.pending, XP.memoryTick, XP.clear. cbn.
    destruct (existsb _ ts), reached; cbn;
      rewrite ?drive_count_remove by reflexivity; intuition lia.
  - unfold XP.fire, XP.pending. cbn [XP.timers].
    destruct (existsb (XP.Timer_eqb t) ts) eqn:Hp; [| cbn; intuition lia].
    destruct t; [| now contradiction Hev | | | |].
    + cbn; intuition lia.
    + unfold XP.clear; cbn. rewrite drive_count_remove by reflexivity.
      intuition (try discriminate; try lia).
    + unfold XP.countdownTick, XP.clear; cbn. destruct (cd <=? 1); cbn;
        rewrite ?drive_count_remove by reflexivity;
        intuition (try discriminate; try lia).
    + unfold XP.clear; cbn. rewrite drive_count_remove by reflexivity.
      intuition (try discriminate; try lia).
    + unfold XP.loginDone, XP.clear; cbn.
      destruct m, (XP.onLogin p); cbn;
        rewrite ?drive_count_remove by reflexivity;
        intuition (try discriminate; try lia).
  - unfold XP.unmount, XP.cleanupEffects.
    destruct m; cbn; rewrite ?drive_count_cleanup; intuition (try discriminate; try lia).
Qed.

Lemma postLinesOk_handle (p : XP.Props) (ev : XP.Event) (s : XP.ScreenState) :
  postLinesOk s -> postLinesOk (XP.handle p ev s).
Proof.
  intros (Hle & Hlines).
  assert (Hfire : ev = XP.TimerFires XP.addLinesTimeout
                  \/ ev <> XP.TimerFires XP.addLinesTimeout).
  { destruct ev as [| | | | | t |]; try (right; discriminate).
    destruct t; try (right; discriminate). now left. }
  destruct Hfire as [-> | Hev].
  - cbn [XP.handle]. unfold XP.fire, XP.pending.
    destruct (existsb _ (XP.timers s)) eqn:Hp; [| split; assumption].
    pose proof (drive_count_fired _ Hp) as Hcount.
    unfold postLinesOk, driveTimeouts in *. unfold XP.addLines, XP.clear.
    destruct s as [ph su lu mc pl bi cd ts m cs]; cbn in *.
    split; [lia |]. right.
    destruct Hlines as [[-> _] | [_ H0]]; [split; [reflexivity | lia] | lia].
  - destruct (post_lines_frame p ev s Hev) as (Hpl & Hcnt & Hpost).
    unfold postLinesOk. rewrite Hpl. split; [lia |].
    destruct Hlines as [[Hb Hone] | [Hb H0]]; [left | right; split; [exact Hb | lia]].
    split; [exact Hb |]. intros Hm Hph.
    destruct (Hpost Hm Hph) as (E & Hm' & Hph'). rewrite E. now apply Hone.
Qed.

Lemma postLinesOk_commit (prev next : XP.ScreenState) :
  postLinesOk next -> postLinesOk (XP.commit prev next).
Proof.
  intros Hok. unfold XP.commit.
  destruct (XP.BootPhase_eqb _ _); [exact Hok |].
  destruct Hok as (Hle & Hlines).
  unfold postLinesOk, driveTimeouts in *.
  unfold XP.setupEffects, XP.cleanupEffects, XP.schedule.
  destruct next as [ph su lu mc pl bi cd ts m cs]; cbn in *.
  destruct ph; cbn; rewrite ?drive_count_app, ?drive_count_cleanup; cbn;
    (split; [lia |]);
    try (left; split; [reflexivity | reflexivity]);
    (destruct Hlines as [[Hb _] | [Hb _]];
     [left; split; [exact Hb | discriminate] | right; split; [exact Hb | reflexivity]]).
Qed.

Lemma postLinesOk_run (p : XP.Props) (evs : list XP.Event) :
  postLinesOk (XP.run p XP.start evs).
Proof.
  induction evs as [| ev evs IH] using rev_ind.
  - split; [cbn; lia | left; split; reflexivity].
  - rewrite xp_run_snoc. unfold XP.step.
    pose proof (postLinesOk_handle p ev _ IH) as Hh.
    destruct (XP.mounted _); [now apply postLinesOk_commit | exact Hh].
Qed.

(** X19.  The drive-detection lines are appended at most once.  After any events
    the POST lines are the five lines the effect sets, followed or not by
    the nine lines of the two-second timeout; while that timeout is pending
    they have not been appended, and on the POST screen of a mounted
    component they have been appended as soon as it is no longer
    pending. *)
Theorem post_lines_appended_once (p : XP.Props) (evs : list XP.Event) :
  let s := XP.run p XP.start evs in
  (XP.postLines s = biosLines \/ XP.postLines s = biosLines ++ driveLines)
  /\ (XP.pending XP.addLinesTimeout s = true -> XP.postLines s = biosLines)
  /\ (XP.pending XP.addLinesTimeout s = false ->
      XP.mounted s = true -> XP.phase s = XP.post ->
      XP.postLines s = biosLines ++ driveLines).
Proof.
  intros s. destruct (postLinesOk_run p evs) as (Hle & Hlines). fold s in Hle, Hlines.
  unfold XP.pending. rewrite drive_count_pending. fold (driveTimeouts s).
  split; [destruct Hlines as [[H _] | [H _]]; auto |]. split.
  - intros Hp. destruct Hlines as [[H _] | [_ H0]]; [exact H |].
    rewrite H0 in Hp. discriminate.
  - intros Hp Hm Hph. destruct Hlines as [[_ H1] | [H _]]; [| exact H].
    rewrite (H1 Hm Hph) in Hp. discriminate.
Qed.

(** After a memory tick and the two-second timeout, the POST screen shows
    all fourteen lines. *)
Lemma post_lines_appended_once_witness :
  XP.postLines (XP.run XP.defaultProps XP.start
                 [ XP.MemoryTick false 139810; XP.TimerFires XP.addLinesTimeout ])
  = biosLines ++ driveLines.
Proof.
  destruct (post_lines_appended_once XP.defaultProps
              [ XP.MemoryTick false 139810; XP.TimerFires XP.addLinesTimeout ])
    as (_ & _ & H).
  apply H; vm_compute; reflexivity.
Defined.
(** ** Enter and the row switches of the static-table picker *)

Lemma legacy_rows_same (a b : Legacy.AppState) :
  Legacy.themeId a = Legacy.themeId b ->
  Legacy.entries a = Legacy.entries b /\ Legacy.actions a = Legacy.actions b.
Proof.
  intros E. unfold Legacy.entries, Legacy.actions, Legacy.theme. now rewrite E.
Qed.

(** X11.  With both indices inside their rows, Enter in the static-table picker
    only sets the status line: to 'Booting <name> ...' for the selected
    entry, or to the name of the selected action.  ArrowDown makes the
    actions row active and announces the selected action, ArrowUp makes the
    entries row active and announces the selected entry.  None of them moves
    an index, changes the theme or throws. *)
Theorem legacy_keys_announce (s : Legacy.AppState) :
  legacyRanges s ->
  exists entry action,
    JS.at_index (Legacy.entries s) (Legacy.selectedIndex s) = Some entry
    /\ JS.at_index (Legacy.actions s) (Legacy.actionIndex s) = Some action
    /\ Legacy.step s (Legacy.KeyDown Enter)
       = Legacy.set_status
           match Legacy.activeRow s with
           | Legacy.entries_row =>
               ("Booting " ++ Legacy.Entry.name entry ++ " ...")%string
           | Legacy.actions_row => Legacy.Action.name action
           end s
    /\ Legacy.step s (Legacy.KeyDown ArrowDown)
       = Legacy.set_status (Legacy.Action.name action)
           (Legacy.set_activeRow Legacy.actions_row s)
    /\ Legacy.step s (Legacy.KeyDown ArrowUp)
       = Legacy.set_status ("Boot " ++ Legacy.Entry.name entry)%string
           (Legacy.set_activeRow Legacy.entries_row s).
Proof.
  intros ((z & Hz & Hzr) & (a & Ha & Har) & _).
  destruct (at_index_in_range (Legacy.entries s) z Hzr) as [entry Hentry].
  destruct (at_index_in_range (Legacy.actions s) a Har) as [action Haction].
  rewrite <- Hz in Hentry. rewrite <- Ha in Haction.
  exists entry, action. split; [exact Hentry |]. split; [exact Haction |].
  assert (Hidle : forall next,
             Legacy.themeId next = Legacy.themeId s ->
             Legacy.selectedIndex next = Legacy.selectedIndex s ->
             (Legacy.activeRow next = Legacy.activeRow s
              \/ Legacy.activeRow next = Legacy.actions_row
              \/ Legacy.status next = ("Boot " ++ Legacy.Entry.name entry)%string) ->
             Legacy.commit s next = next).
  { intros next Hid Hsel Hrow.
    assert (E : Legacy.runEffects s next = next).
    { unfold Legacy.runEffects. rewrite Hid, Hsel, legacy_themeId_eqb_refl, number_eqb_refl.
      cbn [negb orb].
      destruct (Legacy.Row_eqb (Legacy.activeRow s) (Legacy.activeRow next)) eqn:Hr;
        [reflexivity |]. cbn [negb orb].
      unfold Legacy.statusEffect.
      destruct (Legacy.activeRow next) eqn:Hn; [| reflexivity].
      destruct Hrow as [Hrow | [Hrow | Hrow]]; [| discriminate |].
      - rewrite <- Hrow in Hr. cbn in Hr. discriminate.
      - destruct (legacy_rows_same next s Hid) as [-> _]. rewrite Hsel, Hentry.
        cbn [JS.nullish]. rewrite <- Hrow. apply legacy_set_status_same. }
    unfold Legacy.commit. rewrite E. now apply legacy_runEffects_idle. }
  unfold Legacy.step. cbn [Legacy.handle]. unfold Legacy.handleKey.
  rewrite Hentry, Haction. split; [| split].
  - destruct (Legacy.activeRow s) eqn:Hrow; apply Hidle; try reflexivity;
      left; cbn; now rewrite Hrow.
  - apply Hidle; try reflexivity. now right; left.
  - apply Hidle; try reflexivity. now right; right.
Qed.

(** In the static-table picker as it starts, Enter announces the boot of
    HFS. *)
Lemma legacy_keys_announce_witness :
  Legacy.status (Legacy.step Legacy.start (Legacy.KeyDown Enter)) = "Booting HFS ...".
Proof.
  destruct (legacy_keys_announce Legacy.start) as (entry & action & He & _ & E & _).
  - split; [| split]; [exists 0 | exists 0 | reflexivity];
      (split; [reflexivity | vm_compute; split; [discriminate | reflexivity]]).
  - etransitivity; [apply (f_equal Legacy.status), E |].
    vm_compute in He. injection He as <-. reflexivity.
Defined.
